(** * gemini-desktop: the browser agent loop of [index.py]

    A shallow embedding of the agent core of [index.py] (coordinate
    normalisation, URL scheme defaulting, the safety prompt, the action
    dispatcher [execute_function_calls], the response builder
    [get_function_responses] and the turn loop [run_agent_loop]) together
    with the properties of the design document that concern them.

    Conventions.
    - Python [int] is [Z]; Python [float] is IEEE binary64, computed with the
      standard library's [SpecFloat] operations at precision 53.
    - Python [str] is [string]; the string builtins ([lower], [strip],
      [title], [startswith], [repr], [int]) are written out for ASCII text.
    - Python [dict] with string keys is a [gmap string _]; [d.update(e)] is
      the union that prefers [e].
    - The browser, the operator console and the remote model are outside the
      program.  Every call made to them is recorded in a trace of [event]s and
      answered by an oracle that sees the trace so far, so that a property
      proved here holds for every browser, operator and model.
    - Exceptions are values of type [exn] (subclasses of Python's
      [Exception]); a computation either returns or raises.  Text written to
      standard output by [print] is not part of the model. *)

From Stdlib Require Import ZArith Zpower String Ascii List Bool Lia.
From Stdlib Require Import Floats.SpecFloat.
From stdpp Require Import gmap strings.
Import ListNotations.

Set Warnings "-register-all".

Local Open Scope Z_scope.
Local Open Scope string_scope.

(** ** Exceptions *)

(** A raised Python exception: its class and the text of [str(e)]. *)
Record exn := Exn { exn_class : string; exn_msg : string }.

Definition ValueError (msg : string) : exn := Exn "ValueError" msg.
Definition TypeError (msg : string) : exn := Exn "TypeError" msg.
Definition OverflowError (msg : string) : exn := Exn "OverflowError" msg.
Definition AttributeError (msg : string) : exn := Exn "AttributeError" msg.
Definition IndexError (msg : string) : exn := Exn "IndexError" msg.
(** [str(KeyError(k))] is the [repr] of the key. *)
Definition KeyError (key : string) : exn := Exn "KeyError" ("'" ++ key ++ "'").
Definition EOFError : exn := Exn "EOFError" "EOF when reading a line".

(** Result of a pure computation that may raise. *)
Inductive res (A : Type) : Type :=
| Ok (a : A)
| Err (e : exn).
Arguments Ok {A} a.
Arguments Err {A} e.

Definition res_bind {A B : Type} (r : res A) (k : A -> res B) : res B :=
  match r with
  | Ok a => k a
  | Err e => Err e
  end.

(** ** Python string builtins, on ASCII text *)

Module PyStr.

Definition is_upper (c : ascii) : bool :=
  let n := nat_of_ascii c in (Nat.leb 65 n && Nat.leb n 90)%bool.

Definition is_lower (c : ascii) : bool :=
  let n := nat_of_ascii c in (Nat.leb 97 n && Nat.leb n 122)%bool.

Definition is_cased (c : ascii) : bool := (is_upper c || is_lower c)%bool.

Definition lower_char (c : ascii) : ascii :=
  if is_upper c then ascii_of_nat (nat_of_ascii c + 32) else c.

Definition upper_char (c : ascii) : ascii :=
  if is_lower c then ascii_of_nat (nat_of_ascii c - 32) else c.

(** [str.isspace] on one ASCII character: TAB..CR, FS..US and space. *)
Definition is_space (c : ascii) : bool :=
  let n := nat_of_ascii c in
  ((Nat.leb 9 n && Nat.leb n 13) || (Nat.leb 28 n && Nat.leb n 32))%bool.

(** [s.lower()] *)
Fixpoint lower (s : string) : string :=
  match s with
  | EmptyString => EmptyString
  | String c s' => String (lower_char c) (lower s')
  end.

(** [s.lstrip()] *)
Fixpoint lstrip (s : string) : string :=
  match s with
  | EmptyString => EmptyString
  | String c s' => if is_space c then lstrip s' else s
  end.

(** [s.rstrip()] *)
Fixpoint rstrip (s : string) : string :=
  match s with
  | EmptyString => EmptyString
  | String c s' =>
      match rstrip s' with
      | EmptyString => if is_space c then EmptyString else String c EmptyString
      | t => String c t
      end
  end.

(** [s.strip()] *)
Definition strip (s : string) : string := rstrip (lstrip s).

(** [s.title()]: a cased character is upper-cased when the character before
    it is not cased, and lower-cased otherwise. *)
Fixpoint title_from (prev_cased : bool) (s : string) : string :=
  match s with
  | EmptyString => EmptyString
  | String c s' =>
      String (if prev_cased then lower_char c else upper_char c)
             (title_from (is_cased c) s')
  end.

Definition title (s : string) : string := title_from false s.

(** [s.startswith(p)] *)
Definition startswith (s p : string) : bool := String.prefix p s.

(** [sep.join(l)] *)
Fixpoint join (sep : string) (l : list string) : string :=
  match l with
  | [] => ""
  | [s] => s
  | s :: l' => s ++ sep ++ join sep l'
  end.

(** Truth value of a string: non-empty. *)
Definition truthy (s : string) : bool :=
  match s with
  | EmptyString => false
  | String _ _ => true
  end.

Definition backslash : ascii := ascii_of_nat 92.
Definition double_quote : ascii := ascii_of_nat 34.

(** [c in s] *)
Fixpoint has_char (c : ascii) (s : string) : bool :=
  match s with
  | EmptyString => false
  | String a s' => if Ascii.eqb a c then true else has_char c s'
  end.

Definition hex_digit (n : nat) : ascii :=
  ascii_of_nat (if Nat.ltb n 10 then 48 + n else 87 + n).

(** One character of [repr(s)]: the quote and the backslash are escaped,
    TAB, LF and CR have their letters, the other control characters are
    written in hexadecimal. *)
Definition repr_char (quote c : ascii) : string :=
  let n := nat_of_ascii c in
  if (Ascii.eqb c quote || Ascii.eqb c backslash)%bool
  then String backslash (String c "")
  else if Nat.eqb n 9 then String backslash "t"
  else if Nat.eqb n 10 then String backslash "n"
  else if Nat.eqb n 13 then String backslash "r"
  else if (Nat.ltb n 32 || Nat.eqb n 127)%bool
  then String backslash
         (String "x" (String (hex_digit (Nat.div n 16))
                             (String (hex_digit (Nat.modulo n 16)) "")))
  else String c "".

Fixpoint repr_chars (quote : ascii) (s : string) : string :=
  match s with
  | EmptyString => EmptyString
  | String c s' => repr_char quote c ++ repr_chars quote s'
  end.

(** [repr(s)]: between single quotes, or between double quotes when the
    text holds a single quote and no double quote. *)
Definition repr (s : string) : string :=
  let quote :=
    if (has_char "'" s && negb (has_char double_quote s))%bool
    then double_quote else "'"%char in
  String quote (repr_chars quote s ++ String quote "").

(** Decimal digits of a natural number, most significant first. *)
Fixpoint digits_fuel (fuel : nat) (n : N) (acc : string) : string :=
  match fuel with
  | O => acc
  | S fuel' =>
      let acc' := String (ascii_of_N (48 + N.modulo n 10)) acc in
      if N.ltb n 10 then acc' else digits_fuel fuel' (N.div n 10) acc'
  end.

(** [str(n)] for an integer. *)
Definition of_Z (n : Z) : string :=
  let a := Z.abs_N n in
  let d := digits_fuel (S (N.to_nat (N.log2 a))) a "" in
  if Z.ltb n 0 then String "-" d else d.

End PyStr.

(** ** Python floats (IEEE binary64) *)

Module PyFloat.

Definition prec : Z := 53.
Definition emax : Z := 1024.

(** An integer as an exact, not yet rounded, binary number. *)
Definition exact_of_Z (n : Z) : spec_float :=
  match n with
  | Z0 => S754_zero false
  | Zpos p => S754_finite false p 0
  | Zneg p => S754_finite true p 0
  end.

(** [float(n)], the implicit conversion of an [int] operand: round to
    nearest even, [OverflowError] beyond the largest double. *)
Definition of_int (n : Z) : res spec_float :=
  match binary_normalize prec emax n 0 false with
  | S754_infinity _ => Err (OverflowError "int too large to convert to float")
  | f => Ok f
  end.

(** [a / b] on two [int]s: the correctly rounded quotient. *)
Definition int_truediv (a b : Z) : res spec_float :=
  if Z.eqb b 0 then Err (Exn "ZeroDivisionError" "division by zero")
  else
    match SFdiv prec emax (exact_of_Z a) (exact_of_Z b) with
    | S754_infinity _ =>
        Err (OverflowError "integer division result too large for a float")
    | f => Ok f
    end.

(** [f * n] with [f] a [float] and [n] an [int]. *)
Definition mul_int (f : spec_float) (n : Z) : res spec_float :=
  res_bind (of_int n) (fun g => Ok (SFmul prec emax f g)).

(** [int(f)]: truncation toward zero. *)
Definition to_int (f : spec_float) : res Z :=
  match f with
  | S754_zero _ => Ok 0
  | S754_finite s m e =>
      let a := match e with
               | Z0 => Zpos m
               | Zpos k => Z.shiftl (Zpos m) (Zpos k)
               | Zneg k => Z.shiftr (Zpos m) (Zpos k)
               end in
      Ok (if s then Z.opp a else a)
  | S754_infinity _ =>
      Err (OverflowError "cannot convert float infinity to integer")
  | S754_nan => Err (ValueError "cannot convert float NaN to integer")
  end.

End PyFloat.

(** ** Coordinate normalisation and URL scheme *)

(** Recommended screen dimensions for Computer Use. *)
Definition SCREEN_WIDTH : Z := 1440.
Definition SCREEN_HEIGHT : Z := 900.

(** [int(x / 1000 * screen_width)] *)
Definition denormalize_x (x screen_width : Z) : res Z :=
  res_bind (PyFloat.int_truediv x 1000) (fun q =>
  res_bind (PyFloat.mul_int q screen_width) PyFloat.to_int).

(** [int(y / 1000 * screen_height)] *)
Definition denormalize_y (y screen_height : Z) : res Z :=
  res_bind (PyFloat.int_truediv y 1000) (fun q =>
  res_bind (PyFloat.mul_int q screen_height) PyFloat.to_int).

Definition ensure_url_scheme (url : string) : string :=
  if (PyStr.startswith url "http://" || PyStr.startswith url "https://")%bool
  then url
  else if PyStr.truthy url then "https://" ++ url else url.


(** ** Argument values and dictionaries *)

(** The values a function-call argument can take, those of JSON: null,
    booleans, numbers ([int] or [float]), strings, arrays and objects. *)
Inductive value : Type :=
| VNone
| VBool (b : bool)
| VInt (n : Z)
| VFloat (f : spec_float)
| VStr (s : string)
| VList (l : list value)
| VDict (d : gmap string value).

(** A Python [dict] with string keys. *)
Abbreviation dict := (gmap string value).

(** [d.update(e)]: the entries of [e] win. *)
Definition dict_update (d e : dict) : dict := e ∪ d.

(** Truth value of a dictionary: non-empty. *)
Definition dict_truthy (d : dict) : bool :=
  match map_to_list d with
  | [] => false
  | _ :: _ => true
  end.

Module PyVal.

(** [type(v).__name__] *)
Definition type_name (v : value) : string :=
  match v with
  | VNone => "NoneType"
  | VBool _ => "bool"
  | VInt _ => "int"
  | VFloat _ => "float"
  | VStr _ => "str"
  | VList _ => "list"
  | VDict _ => "dict"
  end.

(** [bool(v)] *)
Definition truthy (v : value) : bool :=
  match v with
  | VNone => false
  | VBool b => b
  | VInt n => negb (Z.eqb n 0)
  | VFloat f => match f with
                | S754_zero _ => false
                | _ => true
                end
  | VStr s => PyStr.truthy s
  | VList l => match l with
               | [] => false
               | _ :: _ => true
               end
  | VDict d => dict_truthy d
  end.

(** [str(v)].  The text of a float is the shortest decimal that reads
    back as it, and the text of a dictionary depends on its insertion
    order, which a finite map does not keep: [value_repr] stands for the
    [repr] of a float, a list or a dictionary. *)
Definition str (value_repr : value -> string) (v : value) : string :=
  match v with
  | VNone => "None"
  | VBool true => "True"
  | VBool false => "False"
  | VInt n => PyStr.of_Z n
  | VStr s => s
  | VFloat _ | VList _ | VDict _ => value_repr v
  end.

Definition is_digit (c : ascii) : bool :=
  let n := nat_of_ascii c in (Nat.leb 48 n && Nat.leb n 57)%bool.

(** White space for [int]: that of C's [isspace], TAB..CR and space. *)
Definition is_int_space (c : ascii) : bool :=
  let n := nat_of_ascii c in
  ((Nat.leb 9 n && Nat.leb n 13) || Nat.eqb n 32)%bool.

Fixpoint skip_int_spaces (s : string) : string :=
  match s with
  | EmptyString => EmptyString
  | String c s' => if is_int_space c then skip_int_spaces s' else s
  end.

(** What [int] finds at the start of a text: a run of digits with
    underscores in it, its value, the number of its digits and the text
    after it; or an underscore out of place. *)
Inductive digit_run : Type :=
| BadUnderscore
| Run (n : Z) (digits : Z) (rest : string).

Fixpoint scan_run (s : string) (acc digits : Z) (after_underscore : bool)
  : digit_run :=
  match s with
  | EmptyString => if after_underscore then BadUnderscore else Run acc digits s
  | String c s' =>
      if is_digit c
      then scan_run s' (10 * acc + (Z.of_nat (nat_of_ascii c) - 48))
                    (digits + 1) false
      else if Ascii.eqb c "_"
           then if after_underscore then BadUnderscore
                else scan_run s' acc digits true
           else if after_underscore then BadUnderscore else Run acc digits s
  end.

(** [sys.get_int_max_str_digits()] *)
Definition MAX_STR_DIGITS : Z := 4300.

(** [int(s)] for a string of ASCII text, base 10: white space, a sign, a
    run of digits with single underscores between them, white space.  The
    text of an invalid literal is shown up to 200 characters of its
    [repr]. *)
Definition int_of_string (s : string) : res Z :=
  let invalid :=
    Err (ValueError ("invalid literal for int() with base 10: "
                       ++ String.substring 0 200 (PyStr.repr s))) in
  let t := skip_int_spaces s in
  let '(negative, t) :=
    match t with
    | String "-" t' => (true, t')
    | String "+" t' => (false, t')
    | _ => (false, t)
    end in
  match t with
  | String "_" _ => invalid
  | _ =>
      match scan_run t 0 0 false with
      | BadUnderscore => invalid
      | Run n digits rest =>
          if Z.ltb MAX_STR_DIGITS digits
          then Err (ValueError
                      ("Exceeds the limit (4300 digits) for integer string conversion: value has "
                         ++ PyStr.of_Z digits
                         ++ " digits; use sys.set_int_max_str_digits() to increase the limit"))
          else if (Z.eqb digits 0 || PyStr.truthy (skip_int_spaces rest))%bool
               then invalid
               else Ok (if negative then Z.opp n else n)
      end
  end.

(** [int(v)] *)
Definition int (v : value) : res Z :=
  match v with
  | VInt n => Ok n
  | VBool b => Ok (if b then 1 else 0)
  | VFloat f => PyFloat.to_int f
  | VStr s => int_of_string s
  | VNone | VList _ | VDict _ =>
      Err (TypeError
             ("int() argument must be a string, a bytes-like object or a real number, not '"
                ++ type_name v ++ "'"))
  end.

(** [v.lower()] *)
Definition lower (v : value) : res string :=
  match v with
  | VStr s => Ok (PyStr.lower s)
  | _ => Err (AttributeError
                ("'" ++ type_name v ++ "' object has no attribute 'lower'"))
  end.

End PyVal.

(** [d[k]] *)
Definition dict_getitem (d : dict) (k : string) : res value :=
  match d !! k with
  | Some v => Ok v
  | None => Err (KeyError k)
  end.

(** [d.get(k, default)] *)
Definition dict_get (d : dict) (k : string) (default : value) : value :=
  match d !! k with
  | Some v => v
  | None => default
  end.

(** ** The model API's data *)

Record FunctionCall := {
  fc_name : string;
  fc_args : option dict
}.

Record FunctionResponseBlob := {
  blob_mime_type : string;
  blob_data : list Byte.byte
}.

Record FunctionResponsePart := { frp_inline_data : FunctionResponseBlob }.

Record FunctionResponse := {
  fr_name : string;
  fr_response : dict;
  fr_parts : list FunctionResponsePart
}.

Record Part := {
  part_text : option string;
  part_function_call : option FunctionCall;
  part_function_response : option FunctionResponse
}.

Record Content := {
  content_role : string;
  content_parts : list Part
}.

Record Candidate := { candidate_content : Content }.

(** ** The outside world *)

(** One call that leaves the program. *)
Inductive event : Type :=
| Goto (url wait_until : string)
| MouseClick (x y : Z)
| KeyboardPress (key : string)
| KeyboardType (text : string) (delay : Z)
| MouseWheel (dx dy : Z)
| WaitForLoadState (state : string) (timeout : Z)
| Sleep (milliseconds : Z)
| Screenshot (type : string)
| Input (prompt : string)
| GenerateContent (model : string) (contents : list Content).

(** What the browser, and the remote model, answer.  Each oracle sees the
    calls made so far. *)
Record environment := {
  (** does this browser call raise, and what *)
  browser_raises : list event -> event -> option exn;
  (** [page.url] *)
  page_url : list event -> string;
  (** the bytes [page.screenshot] returns *)
  page_screenshot : list event -> list Byte.byte;
  (** [client.models.generate_content(...)]: the candidates, or an error *)
  model_reply : list event -> list Content -> res (list Candidate);
  (** [repr] of a float, a list or a dictionary *)
  value_repr : value -> string
}.

(** The state a run threads: the calls made so far and the lines still to be
    read from standard input. *)
Record world := World {
  trace : list event;
  stdin : list string
}.

Definition record (e : event) (w : world) : world :=
  World (trace w ++ [e]) (stdin w).

(** A computation returns a value or raises, in a new world. *)
Inductive outcome (A : Type) : Type :=
| Returns (a : A) (w : world)
| Raises (e : exn) (w : world).
Arguments Returns {A} a w.
Arguments Raises {A} e w.

Definition M (A : Type) : Type := world -> outcome A.

Definition ret {A : Type} (a : A) : M A := fun w => Returns a w.

Definition raise {A : Type} (e : exn) : M A := fun w => Raises e w.

Definition bind {A B : Type} (m : M A) (k : A -> M B) : M B :=
  fun w =>
    match m w with
    | Returns a w' => k a w'
    | Raises e w' => Raises e w'
    end.

(** [try: body  except Exception as e: handler e] *)
Definition try_except {A : Type} (body : M A) (handler : exn -> M A) : M A :=
  fun w =>
    match body w with
    | Returns a w' => Returns a w'
    | Raises e w' => handler e w'
    end.

(** A pure step that may raise. *)
Definition lift {A : Type} (r : res A) : M A :=
  match r with
  | Ok a => ret a
  | Err e => raise e
  end.

Declare Scope monad_scope.
Delimit Scope monad_scope with monad.
Notation "x <- m ;; k" := (bind m (fun x => k))
  (at level 100, m at next level, right associativity) : monad_scope.
Notation "m ;; k" := (bind m (fun _ => k))
  (at level 100, right associativity) : monad_scope.

Definition world_of {A : Type} (o : outcome A) : world :=
  match o with
  | Returns _ w => w
  | Raises _ w => w
  end.
(** ** The safety prompt *)

Definition PROMPT : string := "Proceed? [Y]es/[N]o: ".

(** [s in ("y", "n", "yes", "no")] *)
Definition is_answer (s : string) : bool :=
  (String.eqb s "y" || String.eqb s "n" || String.eqb s "yes" || String.eqb s "no")%bool.

(** [s in ("n", "no")] *)
Definition is_refusal (s : string) : bool :=
  (String.eqb s "n" || String.eqb s "no")%bool.

(** The [while] loop of [get_safety_confirmation]: [input] is called until
    the stripped line, lower-cased, is an answer.  [input] raises [EOFError]
    when standard input is exhausted. *)
Fixpoint read_decision (lines : list string) (tr : list event) : outcome string :=
  match lines with
  | [] => Raises EOFError (World (tr ++ [Input PROMPT]) [])
  | line :: rest =>
      let decision := PyStr.strip line in
      if is_answer (PyStr.lower decision)
      then Returns decision (World (tr ++ [Input PROMPT]) rest)
      else read_decision rest (tr ++ [Input PROMPT])
  end.

(** The explanation of [safety_decision] is only printed. *)
Definition get_safety_confirmation (safety_decision : dict) : M string :=
  fun w =>
    match read_decision (stdin w) (trace w) with
    | Returns decision w' =>
        if is_refusal (PyStr.lower decision)
        then Returns "TERMINATE" w'
        else Returns "CONTINUE" w'
    | Raises e w' => Raises e w'
    end.

(** How [run_agent_loop] is left. *)
Inductive loop_exit : Type :=
| NoFunctionCalls (text_response : string)  (* [break] on a turn without calls *)
| Terminated                                (* [break] on [terminated] *)
| TurnLimit.                                (* the [for] loop ran out *)

(** An entry of [results]:
    [(function_name, action_result, extra_fields_for_function_response)]. *)
Definition result_entry : Type := string * dict * dict.

Definition MODEL : string := "gemini-2.5-computer-use-preview-10-2025".

Definition turn_limit : nat := 10.

Section Program.

Variable E : environment.

Local Open Scope monad_scope.
Local Open Scope list_scope.

(** A call to the browser: recorded, and it may raise. *)
Definition browser_call (e : event) : M unit :=
  fun w =>
    match browser_raises E (trace w) e with
    | Some ex => Raises ex (record e w)
    | None => Returns tt (record e w)
    end.

(** [time.sleep(0.8)] *)
Definition sleep (milliseconds : Z) : M unit :=
  fun w => Returns tt (record (Sleep milliseconds) w).

(** [page.screenshot(type="png")] *)
Definition screenshot : M (list Byte.byte) :=
  browser_call (Screenshot "png") ;;
  fun w => Returns (page_screenshot E (trace w)) w.

(** [page.url] *)
Definition current_page_url : M string :=
  fun w => Returns (page_url E (trace w)) w.

(** [client.models.generate_content(model=..., contents=..., config=...)] *)
Definition generate_content (contents : list Content) : M (list Candidate) :=
  fun w =>
    match model_reply E (trace w) contents with
    | Ok candidates => Returns candidates (record (GenerateContent MODEL contents) w)
    | Err e => Raises e (record (GenerateContent MODEL contents) w)
    end.

(** Give time for UI to settle after actions. *)
Definition settle : M unit :=
  try_except (browser_call (WaitForLoadState "networkidle" 5000))
             (fun _ => ret tt) ;;
  sleep 800.

(** The [if]/[elif] chain on [fname] inside the [try]. *)
Definition perform (fname : string) (args : dict)
           (screen_width screen_height : Z) : M unit :=
  if String.eqb fname "open_web_browser" then
    ret tt
  else if String.eqb fname "navigate" then
    let url := ensure_url_scheme
                 (PyVal.str (value_repr E) (dict_get args "url" (VStr ""))) in
    if negb (PyStr.truthy url)
    then raise (ValueError "Missing 'url' argument for navigate")
    else browser_call (Goto url "domcontentloaded")
  else if String.eqb fname "click_at" then
    x <- lift (res_bind (dict_getitem args "x") PyVal.int) ;;
    actual_x <- lift (denormalize_x x screen_width) ;;
    y <- lift (res_bind (dict_getitem args "y") PyVal.int) ;;
    actual_y <- lift (denormalize_y y screen_height) ;;
    browser_call (MouseClick actual_x actual_y)
  else if String.eqb fname "type_text_at" then
    x <- lift (res_bind (dict_getitem args "x") PyVal.int) ;;
    actual_x <- lift (denormalize_x x screen_width) ;;
    y <- lift (res_bind (dict_getitem args "y") PyVal.int) ;;
    actual_y <- lift (denormalize_y y screen_height) ;;
    let text := PyVal.str (value_repr E) (dict_get args "text" (VStr "")) in
    let press_enter := PyVal.truthy (dict_get args "press_enter" (VBool true)) in
    let clear_before_typing :=
      PyVal.truthy (dict_get args "clear_before_typing" (VBool true)) in
    browser_call (MouseClick actual_x actual_y) ;;
    (if clear_before_typing
     then browser_call (KeyboardPress "Meta+A") ;;
          browser_call (KeyboardPress "Backspace")
     else ret tt) ;;
    (if PyStr.truthy text
     then browser_call (KeyboardType text 15)
     else ret tt) ;;
    (if press_enter
     then browser_call (KeyboardPress "Enter")
     else ret tt)
  else if String.eqb fname "key_combination" then
    let keys := PyStr.strip
                  (PyVal.str (value_repr E) (dict_get args "keys" (VStr ""))) in
    if negb (PyStr.truthy keys)
    then raise (ValueError "Missing 'keys' argument for key_combination")
    else
      let normalized :=
        if negb (String.eqb (PyStr.lower keys) "enter")
        then PyStr.title keys else "Enter" in
      browser_call (KeyboardPress normalized)
  else if String.eqb fname "scroll_document" then
    let d := dict_get args "direction" VNone in
    direction <- lift (PyVal.lower (if PyVal.truthy d then d else VStr "down")) ;;
    if negb (String.eqb direction "up" || String.eqb direction "down"
             || String.eqb direction "left" || String.eqb direction "right")
    then raise (ValueError "direction must be up, down, left, or right")
    else
      magnitude <- lift (PyVal.int (dict_get args "magnitude" (VInt 800))) ;;
      let '(dx, dy) :=
        if String.eqb direction "down" then (0, magnitude)
        else if String.eqb direction "up" then (0, - magnitude)
        else if String.eqb direction "right" then (magnitude, 0)
        else if String.eqb direction "left" then (- magnitude, 0)
        else (0, 0) in
      browser_call (MouseWheel dx dy)
  else
    (* Warning: Unimplemented or custom function *)
    ret tt.

(** The [try]/[except] of one call: the action, then the settle step; any
    exception becomes the [error] entry of the result. *)
Definition execute_action (fname : string) (args : dict)
           (screen_width screen_height : Z) : M dict :=
  try_except
    (perform fname args screen_width screen_height ;;
     settle ;;
     ret (∅ : dict))
    (fun e => ret ({["error" := VStr (exn_msg e)]} : dict)).

(** Safety decision handling: whether the loop is to be left, and the
    [extra_fr_fields] of the call. *)
Definition safety_check (args : dict) : M (bool * dict) :=
  match args !! "safety_decision" with
  | Some (VDict safety_decision) =>
      decision <- get_safety_confirmation safety_decision ;;
      if String.eqb decision "TERMINATE"
      then ret (true, ({["safety_acknowledgement" := VStr "false"]} : dict))
      else ret (false, ({["safety_acknowledgement" := VStr "true"]} : dict))
  | _ => ret (false, (∅ : dict))
  end.

(** [dict(function_call.args or {})] *)
Definition call_args (function_call : FunctionCall) : dict :=
  match fc_args function_call with
  | Some d => d
  | None => ∅
  end.

(** The [for function_call in function_calls] loop, [results] being the
    list built so far. *)
Fixpoint run_function_calls (function_calls : list FunctionCall)
         (results : list result_entry) (screen_width screen_height : Z)
  : M (list result_entry * bool) :=
  match function_calls with
  | [] => ret (results, false)
  | function_call :: rest =>
      let fname := fc_name function_call in
      let args := call_args function_call in
      checked <- safety_check args ;;
      let '(stop, extra_fr_fields) := checked in
      if (stop : bool) then
        ret (results ++
               [(fname, ({["terminated_by_user" := VBool true]} : dict),
                 extra_fr_fields)],
             true)
      else
        action_result <- execute_action fname args screen_width screen_height ;;
        run_function_calls rest
          (results ++ [(fname, action_result, extra_fr_fields)])
          screen_width screen_height
  end.

(** The function calls of a candidate, in the order of its parts. *)
Definition function_calls_of (candidate : Candidate) : list FunctionCall :=
  omap part_function_call (content_parts (candidate_content candidate)).

Definition execute_function_calls (candidate : Candidate)
           (screen_width screen_height : Z) : M (list result_entry * bool) :=
  run_function_calls (function_calls_of candidate) [] screen_width screen_height.

(** The response bundle of one entry of [results]. *)
Definition function_response (screenshot_bytes : list Byte.byte)
           (current_url : string) (entry : result_entry) : FunctionResponse :=
  let '(name, result, extra_fields) := entry in
  let response_data : dict := {["url" := VStr current_url]} in
  let response_data :=
    if dict_truthy result then dict_update response_data result
    else response_data in
  let response_data :=
    if dict_truthy extra_fields then dict_update response_data extra_fields
    else response_data in
  {| fr_name := name;
     fr_response := response_data;
     fr_parts := [ {| frp_inline_data :=
                        {| blob_mime_type := "image/png";
                           blob_data := screenshot_bytes |} |} ] |}.

Definition get_function_responses (results : list result_entry)
  : M (list FunctionResponse) :=
  screenshot_bytes <- screenshot ;;
  current_url <- current_page_url ;;
  ret (map (function_response screenshot_bytes current_url) results).

(** [getattr(p, "function_call", None)] is truthy *)
Definition has_function_call (p : Part) : bool :=
  match part_function_call p with
  | Some _ => true
  | None => false
  end.

(** [[p.text for p in parts if getattr(p, "text", None)]] *)
Definition texts_of (parts : list Part) : list string :=
  omap (fun p => match part_text p with
                 | Some t => if PyStr.truthy t then Some t else None
                 | None => None
                 end) parts.

(** [Part(function_response=fr)] *)
Definition response_part (fr : FunctionResponse) : Part :=
  {| part_text := None; part_function_call := None;
     part_function_response := Some fr |}.

(** [response.candidates[0]] *)
Definition first_candidate (candidates : list Candidate) : res Candidate :=
  match candidates with
  | candidate :: _ => Ok candidate
  | [] => Err (IndexError "list index out of range")
  end.

(** The body of the [for] loop after the model call: [Some exit] is a
    [break], [None] goes on to the next iteration.  The list [contents] as
    the turn leaves it is returned as well. *)
Definition after_reply (contents : list Content) (candidates : list Candidate)
  : M (option loop_exit * list Content) :=
  candidate <- lift (first_candidate candidates) ;;
  let contents := contents ++ [candidate_content candidate] in
  let parts := content_parts (candidate_content candidate) in
  if negb (existsb has_function_call parts) then
    ret (Some (NoFunctionCalls (PyStr.join " " (texts_of parts))), contents)
  else
    executed <- execute_function_calls candidate SCREEN_WIDTH SCREEN_HEIGHT ;;
    let '(results, terminated) := executed in
    function_responses <- get_function_responses results ;;
    let contents :=
      contents ++ [ {| content_role := "user";
                       content_parts := map response_part function_responses |} ] in
    if (terminated : bool) then ret (Some Terminated, contents)
    else ret (None, contents).

(** The body of the [for] loop: one turn. *)
Definition agent_turn (contents : list Content)
  : M (option loop_exit * list Content) :=
  candidates <- generate_content contents ;;
  after_reply contents candidates.

(** The [for i in range(turn_limit)] loop with [remaining] iterations to
    go. *)
Fixpoint agent_turns (remaining : nat) (contents : list Content)
  : M (loop_exit * list Content) :=
  match remaining with
  | O => ret (TurnLimit, contents)
  | S remaining' =>
      turn <- agent_turn contents ;;
      match turn with
      | (Some exit, contents) => ret (exit, contents)
      | (None, contents) => agent_turns remaining' contents
      end
  end.

(** The loop of [run_agent_loop].  The statements that bind [contents]
    (and [config]) before the loop are left out of the source, so the list
    the loop starts from is an argument here. *)
Definition agent_loop (contents : list Content) : M (loop_exit * list Content) :=
  agent_turns turn_limit contents.

(** Modelled from the spec: the statements of [run_agent_loop] before its
    loop, which the source leaves out.  A goal session starts from empty
    history plus the goal as the first user message. *)
Definition initial_contents (user_goal : string) : list Content :=
  [ {| content_role := "user";
       content_parts := [ {| part_text := Some user_goal;
                             part_function_call := None;
                             part_function_response := None |} ] |} ].

Definition run_agent_loop (user_goal : string) : M (loop_exit * list Content) :=
  agent_loop (initial_contents user_goal).

End Program.

(** [k] consecutive turns, none of which leaves the loop. *)
Inductive turns_continue (E : environment)
  : nat -> list Content -> world -> list Content -> world -> Prop :=
| turns_continue_O contents w : turns_continue E O contents w contents w
| turns_continue_S k contents w contents1 w1 contents2 w2 :
    agent_turn E contents w = Returns (None, contents1) w1 ->
    turns_continue E k contents1 w1 contents2 w2 ->
    turns_continue E (S k) contents w contents2 w2.

(** The browser calls of a list, in order, up to the first that raises. *)
Fixpoint browser_calls (E : environment) (events : list event) : M unit :=
  match events with
  | [] => ret tt
  | e :: events' => bind (browser_call E e) (fun _ => browser_calls E events')
  end.

(** The settle step, as it shows in the trace. *)
Definition SETTLE : list event := [WaitForLoadState "networkidle" 5000; Sleep 800].

Definition is_generate (e : event) : bool :=
  match e with
  | GenerateContent _ _ => true
  | _ => false
  end.

(** Number of model invocations in a trace. *)
Definition model_invocations (tr : list event) : nat :=
  length (List.filter is_generate tr).

Definition entry_name (entry : result_entry) : string := fst (fst entry).
Definition entry_result (entry : result_entry) : dict := snd (fst entry).
Definition entry_extra (entry : result_entry) : dict := snd entry.

(** The entry recorded for a call the operator refused. *)
Definition rejection_entry (fname : string) : result_entry :=
  (fname, {["terminated_by_user" := VBool true]},
   {["safety_acknowledgement" := VStr "false"]}).

(** An entry as the dispatcher builds them: neither dictionary has a [url]
    key. *)
Definition executed_entry (entry : result_entry) : Prop :=
  entry_result entry !! "url" = None /\ entry_extra entry !! "url" = None.

(** [r] is an integer nearest to the rational [num / den], [den > 0]. *)
Definition nearest_integer (num den r : Z) : Prop :=
  2 * Z.abs (r * den - num) <= den.

(** ** Sample environments and inputs *)

Definition png_bytes : list Byte.byte :=
  [Byte.x89; Byte.x50; Byte.x4e; Byte.x47].

Definition call (fname : string) (args : list (string * value)) : Part :=
  {| part_text := None;
     part_function_call := Some {| fc_name := fname; fc_args := Some (list_to_map args) |};
     part_function_response := None |}.

Definition says (t : string) : Part :=
  {| part_text := Some t; part_function_call := None;
     part_function_response := None |}.

Definition model_turn (parts : list Part) : Candidate :=
  {| candidate_content := {| content_role := "model"; content_parts := parts |} |}.

(** A browser that never fails and a model that always asks for [reply]. *)
Definition steady_env (reply : list Part) : environment :=
  {| browser_raises := fun _ _ => None;
     page_url := fun _ => "https://www.google.com/";
     page_screenshot := fun _ => png_bytes;
     model_reply := fun _ _ => Ok [model_turn reply];
     value_repr := fun _ => "{}" |}.

(** A browser on which every mouse click fails. *)
Definition no_click_env (reply : list Part) : environment :=
  {| browser_raises := fun _ e =>
       match e with
       | MouseClick _ _ => Some (Exn "Error" "Target page has been closed")
       | _ => None
       end;
     page_url := fun _ => "https://www.google.com/";
     page_screenshot := fun _ => png_bytes;
     model_reply := fun _ _ => Ok [model_turn reply];
     value_repr := fun _ => "{}" |}.

Definition sensitive : value := VDict {["explanation" := VStr "Submits a payment"]}.

Definition w0 (lines : list string) : world := World [] lines.

(** ** Definitions used in the statements *)

Local Open Scope list_scope.

(** A mantissa with nothing shifted out of it yet. *)
Definition exact_record (mx : Z) : shr_record :=
  {| shr_m := mx; shr_r := false; shr_s := false |}.

(** The double [x / 1000], [x = n + 1], is the quotient rounded to 53 bits:
    its mantissa has 53 digits and is within one half of
    [x * 2^s / 1000], [-s] being its exponent. *)
Definition quotient_ok (n : nat) : bool :=
  let x := Z.of_nat (S n) in
  match PyFloat.int_truediv x 1000 with
  | Ok (S754_finite false mq eq) =>
      (Z.leb (-62) eq && Z.leb eq (-52)
       && Z.eqb (Zpos (digits2_pos mq)) 53
       && Z.leb (Z.abs (1000 * Zpos mq - x * 2 ^ (- eq))) 500)%bool
  | _ => false
  end.

Definition pixel_x_expected (x : Z) : Z :=
  x * 1440 / 1000
  - (if (Z.eqb x 175 || Z.eqb x 350 || Z.eqb x 575 || Z.eqb x 700)%bool then 1 else 0).

Definition pixel_y_expected (y : Z) : Z := y * 900 / 1000.

Definition res_is (r : res Z) (expected : Z) : bool :=
  match r with
  | Ok n => Z.eqb n expected
  | Err _ => false
  end.

Definition pixel_check (n : nat) : bool :=
  let x := Z.of_nat n in
  (res_is (denormalize_x x SCREEN_WIDTH) (pixel_x_expected x)
   && res_is (denormalize_y x SCREEN_HEIGHT) (pixel_y_expected x))%bool.

Definition type_text_events (actual_x actual_y : Z) (clear enter : bool)
  : list event :=
  MouseClick actual_x actual_y
  :: (if clear then [KeyboardPress "Meta+A"; KeyboardPress "Backspace"] else [])
  ++ (if enter then [KeyboardPress "Enter"] else []).

(** Every event [m] adds to the trace satisfies [P]. *)
Definition emits {A : Type} (P : event -> Prop) (m : M A) : Prop :=
  forall w : world,
  exists events : list event,
    trace (world_of (m w)) = trace w ++ events /\ Forall P events.

Definition not_generate (e : event) : Prop := is_generate e = false.

(** ** Sample inputs *)

Definition two_calls : Candidate :=
  model_turn [call "navigate" [("url", VStr "example.com");
                               ("safety_decision", sensitive)];
              call "click_at" [("x", VInt 500); ("y", VInt 500)]].

Definition click_then_open : list FunctionCall :=
  [ {| fc_name := "click_at";
       fc_args := Some (list_to_map [("x", VInt 500); ("y", VInt 500)]) |};
    {| fc_name := "open_web_browser"; fc_args := None |} ].

Definition empty_text_args : dict :=
  list_to_map [("x", VInt 500); ("y", VInt 500); ("text", VStr "")].

Definition open_browser_env : environment :=
  steady_env [call "open_web_browser" []].

Definition click_call : FunctionCall :=
  {| fc_name := "click_at";
     fc_args := Some (list_to_map [("x", VInt 500); ("y", VInt 500)]) |}.

Definition pay_call : FunctionCall :=
  {| fc_name := "navigate";
     fc_args := Some (list_to_map [("url", VStr "example.com/pay");
                                   ("safety_decision", sensitive)]) |}.

Definition open_call : FunctionCall :=
  {| fc_name := "open_web_browser"; fc_args := None |}.

Definition part_of_call (fc : FunctionCall) : Part :=
  {| part_text := None; part_function_call := Some fc;
     part_function_response := None |}.

Definition pay_env : environment :=
  steady_env [part_of_call click_call; part_of_call pay_call; part_of_call open_call].

(** The function response [fr] has been sent to the model: some call to
    the model carried a history with [fr] among its parts. *)
Definition reported_to_model (tr : list event) (fr : FunctionResponse) : Prop :=
  exists (model : string) (contents : list Content) (content : Content),
    In (GenerateContent model contents) tr /\
    In content contents /\
    In (response_part fr) (content_parts content).

Definition TARGET_CLOSED : exn :=
  Exn "TargetClosedError" "Target page, context or browser has been closed".

(** A page that has been closed: every call to it raises. *)
Definition closed_page_env : environment :=
  {| browser_raises := fun _ _ => Some TARGET_CLOSED;
     page_url := fun _ => "about:blank";
     page_screenshot := fun _ => png_bytes;
     model_reply := fun _ _ => Ok [model_turn [part_of_call click_call]];
     value_repr := fun _ => "{}" |}.

(** A page of which no screenshot can be taken. *)
Definition no_screenshot_env (reply : list Part) : environment :=
  {| browser_raises := fun _ e =>
       match e with
       | Screenshot _ => Some TARGET_CLOSED
       | _ => None
       end;
     page_url := fun _ => "https://www.google.com/";
     page_screenshot := fun _ => png_bytes;
     model_reply := fun _ _ => Ok [model_turn reply];
     value_repr := fun _ => "{}" |}.

Definition pay_parts : list Part :=
  [part_of_call click_call; part_of_call pay_call; part_of_call open_call].

Definition click_and_open : list Part :=
  [part_of_call click_call; part_of_call open_call].

(** * The rest of the program *)

(** ** Startup: the [.env] file and the API key *)

Module PyChars.

(** The double quote character. *)
Definition dquote : ascii := ascii_of_nat 34.

(** The character [NUL]. *)
Definition nul : ascii := ascii_of_nat 0.

(** [c in s] *)
Fixpoint contains (c : ascii) (s : string) : bool :=
  match s with
  | EmptyString => false
  | String a s' => if Ascii.eqb a c then true else contains c s'
  end.

(** [s.lstrip(c)] for a single character [c] *)
Fixpoint lstrip_char (c : ascii) (s : string) : string :=
  match s with
  | EmptyString => EmptyString
  | String a s' => if Ascii.eqb a c then lstrip_char c s' else s
  end.

(** [s.rstrip(c)] for a single character [c] *)
Fixpoint rstrip_char (c : ascii) (s : string) : string :=
  match s with
  | EmptyString => EmptyString
  | String a s' =>
      match rstrip_char c s' with
      | EmptyString => if Ascii.eqb a c then EmptyString else String a EmptyString
      | t => String a t
      end
  end.

(** [s.strip(c)] for a single character [c] *)
Definition strip_char (c : ascii) (s : string) : string :=
  rstrip_char c (lstrip_char c s).

(** [s.split(c, 1)] for [s] in which [c] occurs: the text before the first
    [c] and the text after it. *)
Fixpoint split_first (c : ascii) (s : string) : string * string :=
  match s with
  | EmptyString => (EmptyString, EmptyString)
  | String a s' =>
      if Ascii.eqb a c then (EmptyString, s')
      else let '(before, after) := split_first c s' in (String a before, after)
  end.

End PyChars.

(** [os.environ] *)
Abbreviation environment_variables := (gmap string string).

(** [not os.getenv(key)]: the variable is unset or empty. *)
Definition unset_or_empty (environ : environment_variables) (key : string) : bool :=
  match environ !! key with
  | Some v => negb (PyStr.truthy v)
  | None => true
  end.

(** The key and the value a line of the file gives, [None] for a line the
    loop skips by [continue]: blank, a comment, or without [=]. *)
Definition parse_line (raw_line : string) : option (string * string) :=
  let line := PyStr.strip raw_line in
  if (negb (PyStr.truthy line) || PyStr.startswith line "#"
      || negb (PyChars.contains "=" line))%bool
  then None
  else
    let '(key, value) := PyChars.split_first "=" line in
    let key := PyStr.strip key in
    let value :=
      PyChars.strip_char "'" (PyChars.strip_char PyChars.dquote (PyStr.strip value)) in
    Some (key, value).

(** [os.environ[key] = value] raises [ValueError] (embedded null byte) when
    the key or the value holds a [NUL]. *)
Definition putenv_raises (key value : string) : bool :=
  (PyChars.contains PyChars.nul key || PyChars.contains PyChars.nul value)%bool.

(** The [for raw_line in env_file] loop.  An exception leaves the loop for
    the [except] clause, which passes: the lines after it are not read. *)
Fixpoint load_lines (lines : list string) (environ : environment_variables)
  : environment_variables :=
  match lines with
  | [] => environ
  | raw_line :: rest =>
      match parse_line raw_line with
      | None => load_lines rest environ
      | Some (key, value) =>
          if (PyStr.truthy key && unset_or_empty environ key)%bool then
            if putenv_raises key value then environ
            else load_lines rest (<[key := value]> environ)
          else load_lines rest environ
      end
  end.

(** [load_env_from_dotenv]: the file is [None] when the path does not
    exist, and otherwise the lines that are read from it before the end of
    the file or before opening or reading it raises (which the [except]
    clause swallows). *)
Definition load_env_from_dotenv (file : option (list string))
           (environ : environment_variables) : environment_variables :=
  match file with
  | None => environ
  | Some lines => load_lines lines environ
  end.

(** [os.getenv("GOOGLE_API_KEY") or os.getenv("GENAI_API_KEY")] *)
Definition api_key_of (environ : environment_variables) : option string :=
  match environ !! "GOOGLE_API_KEY" with
  | Some k => if PyStr.truthy k then Some k else environ !! "GENAI_API_KEY"
  | None => environ !! "GENAI_API_KEY"
  end.

(** How [main] gets past its first statements. *)
Inductive startup : Type :=
| MissingApiKey                 (* the message, then [sys.exit(1)] *)
| ClientFor (api_key : string). (* [genai.Client(api_key=api_key)] *)

(** The first statements of [main]. *)
Definition main_startup (file : option (list string))
           (environ : environment_variables) : startup :=
  match api_key_of (load_env_from_dotenv file environ) with
  | Some k => if PyStr.truthy k then ClientFor k else MissingApiKey
  | None => MissingApiKey
  end.

(** ** The explanation shown at the safety prompt *)

Definition DEFAULT_EXPLANATION : string :=
  "The model requested a potentially sensitive action.".

(** [safety_decision.get("explanation") or safety_decision.get("reason") or
    "The model requested ..."] *)
Definition safety_explanation (safety_decision : dict) : value :=
  let explanation := dict_get safety_decision "explanation" VNone in
  if PyVal.truthy explanation then explanation
  else
    let reason := dict_get safety_decision "reason" VNone in
    if PyVal.truthy reason then reason else VStr DEFAULT_EXPLANATION.

(** ** Definitions used in the further statements *)

(** An event of the page: neither a prompt nor a model call. *)
Definition page_event (e : event) : Prop :=
  match e with
  | Input _ | GenerateContent _ _ => False
  | _ => True
  end.

(** [m] leaves standard input alone and adds only page events to the
    trace. *)
Definition page_only {A : Type} (m : M A) : Prop :=
  forall w : world,
  exists events : list event,
    world_of (m w) = World (trace w ++ events) (stdin w) /\
    Forall page_event events.

(** No call of the candidate carries a safety decision that is a
    dictionary. *)
Definition ungated (function_call : FunctionCall) : Prop :=
  match call_args function_call !! "safety_decision" with
  | Some (VDict _) => False
  | _ => True
  end.

(** The wheel delta of a direction and a magnitude. *)
Definition is_direction (s : string) : bool :=
  (String.eqb s "up" || String.eqb s "down"
   || String.eqb s "left" || String.eqb s "right")%bool.

(** The text is ASCII: every character is below 128.  On such text the
    builtins of [PyStr] are those of Python; [str.strip] and [str.lower]
    know white space and letters beyond ASCII that [PyStr] leaves alone. *)
Definition is_ascii_char (c : ascii) : bool := Nat.ltb (nat_of_ascii c) 128.

Fixpoint is_ascii (s : string) : bool :=
  match s with
  | EmptyString => true
  | String c s' => (is_ascii_char c && is_ascii s')%bool
  end.

Definition ascii_text (s : string) : Prop := is_ascii s = true.

(** The line is not an answer to the safety prompt. *)
Definition not_answer (line : string) : Prop :=
  is_answer (PyStr.lower (PyStr.strip line)) = false.

(** The names of the functions the dispatcher knows. *)
Definition known_function (fname : string) : bool :=
  (String.eqb fname "open_web_browser" || String.eqb fname "navigate"
   || String.eqb fname "click_at" || String.eqb fname "type_text_at"
   || String.eqb fname "key_combination" || String.eqb fname "scroll_document")%bool.

(** The lines before the first assignment of [key]: none assigns [key] and
    none makes [os.environ] raise. *)
Definition harmless_before (key : string) (raw : string) : Prop :=
  forall key' value',
    parse_line raw = Some (key', value') ->
    key' <> key /\ putenv_raises key' value' = false.

(** The first and the last character of a string. *)
Definition first_char (s : string) : option ascii :=
  match s with
  | EmptyString => None
  | String a _ => Some a
  end.

Fixpoint last_char (s : string) : option ascii :=
  match s with
  | EmptyString => None
  | String a EmptyString => Some a
  | String _ s' => last_char s'
  end.

(** [s] is not empty and neither begins nor ends with a character of
    [bad]. *)
Definition bare (bad : ascii -> bool) (s : string) : Prop :=
  (exists a, first_char s = Some a /\ bad a = false) /\
  (exists b, last_char s = Some b /\ bad b = false).

Definition is_quote (c : ascii) : bool :=
  (Ascii.eqb c "'" || Ascii.eqb c PyChars.dquote)%bool.

(** A name as it stands in a line [NAME=value]: no [=] in it, no blank at
    either end, and not the start of a comment. *)
Definition plain_name (key : string) : Prop :=
  bare (fun c => (PyStr.is_space c || Ascii.eqb c "#")%bool) key /\
  PyChars.contains "=" key = false.

(** A value with no blank and no quote at either end. *)
Definition plain_value (value : string) : Prop :=
  bare (fun c => (PyStr.is_space c || is_quote c)%bool) value.

(** ** Further sample inputs *)

Definition sample_environ : environment_variables :=
  {["GOOGLE_API_KEY" := "from-environment"]}.

Definition sample_dotenv : list string :=
  [ "# keys" ; "" ; "GOOGLE_API_KEY=from-file" ; " GENAI_API_KEY = 'other' " ].

(** A model that cannot be reached. *)
Definition offline_env : environment :=
  {| browser_raises := fun _ _ => None;
     page_url := fun _ => "about:blank";
     page_screenshot := fun _ => png_bytes;
     model_reply := fun _ _ => Err (Exn "ServerError" "503 UNAVAILABLE");
     value_repr := fun _ => "{}" |}.

(** A model that answers in words. *)
Definition answer_env : environment :=
  steady_env [says "The page is open."; says ""; says "Anything else?"].

(** The input events of [type_text_at] for a text that is not empty. *)
Definition typing_events (actual_x actual_y : Z) (clear : bool)
           (text : string) (enter : bool) : list event :=
  MouseClick actual_x actual_y
  :: (if clear then [KeyboardPress "Meta+A"; KeyboardPress "Backspace"] else [])
  ++ [KeyboardType text 15]
  ++ (if enter then [KeyboardPress "Enter"] else []).

Definition hello_args : dict :=
  list_to_map [("x", VInt 500); ("y", VInt 500); ("text", VStr "hello")].

(** * Properties *)

(** ** The builtins and the normaliser at sample inputs *)

Example ex_lower : PyStr.lower "Yes" = "yes". Proof. reflexivity. Qed.
Example ex_strip : PyStr.strip "  ctrl+a " = "ctrl+a". Proof. reflexivity. Qed.
Example ex_title : PyStr.title "ctrl+a" = "Ctrl+A". Proof. reflexivity. Qed.
Example ex_str : PyStr.of_Z (-1440) = "-1440". Proof. reflexivity. Qed.
Example ex_str0 : PyStr.of_Z 0 = "0". Proof. reflexivity. Qed.
Example ex_dx_2 : denormalize_x 2 1440 = Ok 2. Proof. vm_compute. reflexivity. Qed.
Example ex_dx_175 : denormalize_x 175 1440 = Ok 251. Proof. vm_compute. reflexivity. Qed.
Example ex_dx_570 : denormalize_x 570 100 = Ok 56. Proof. vm_compute. reflexivity. Qed.
Example ex_dx_neg : denormalize_x (-2) 1440 = Ok (-2). Proof. vm_compute. reflexivity. Qed.
Example ex_dy_1000 : denormalize_y 1000 900 = Ok 900. Proof. vm_compute. reflexivity. Qed.
Example ex_int : PyVal.int_of_string " -1_000 " = Ok (-1000).
Proof. reflexivity. Qed.
Example ex_int_fs :
  PyVal.int_of_string (String "5" (String (ascii_of_nat 28) ""))
  = Err (ValueError "invalid literal for int() with base 10: '5\x1c'").
Proof. reflexivity. Qed.
Example ex_int_quote :
  PyVal.int_of_string "a'b"
  = Err (ValueError ("invalid literal for int() with base 10: "
                       ++ String PyStr.double_quote
                            ("a'b" ++ String PyStr.double_quote ""))).
Proof. reflexivity. Qed.
Example ex_int_underscores :
  PyVal.int_of_string "1__0"
  = Err (ValueError "invalid literal for int() with base 10: '1__0'").
Proof. reflexivity. Qed.
Example ex_int_float :
  res_bind (PyFloat.int_truediv 5007 10) (fun f => PyVal.int (VFloat f)) = Ok 500.
Proof. reflexivity. Qed.
Example ex_int_sign :
  PyVal.int_of_string "- 5"
  = Err (ValueError "invalid literal for int() with base 10: '- 5'").
Proof. reflexivity. Qed.
Example ex_url : ensure_url_scheme "example.com" = "https://example.com".
Proof. reflexivity. Qed.

(** A turn of text only ends the session with that text, and nothing is
    executed. *)
Example ex_final_answer :
  run_agent_loop (steady_env [says "Done."; says "Bye"]) "go" (w0 [])
  = Returns (NoFunctionCalls "Done. Bye",
             initial_contents "go"
             ++ [candidate_content (model_turn [says "Done."; says "Bye"])])
            (World [GenerateContent MODEL (initial_contents "go")] []).
Proof. reflexivity. Qed.

(** ** Coordinate normalisation *)

Lemma res_is_true (r : res Z) (expected : Z) :
  res_is r expected = true -> r = Ok expected.
Proof.
  destruct r as [n|e]; simpl; intros H; [|discriminate].
  apply Z.eqb_eq in H. now subst.
Qed.

Lemma pixel_check_all : forallb pixel_check (seq 0 1001) = true.
Proof. vm_compute. reflexivity. Qed.

(** At the screen dimensions of the program the results are these: the floor
    of [x * dimension / 1000], except at width 1440 for [x] in 175, 350, 575
    and 700, where the double product lies just under the exact integer and
    the result is one less. *)
Lemma denormalize_at_screen (x : Z) :
  0 <= x <= 1000 ->
  denormalize_x x SCREEN_WIDTH = Ok (pixel_x_expected x) /\
  denormalize_y x SCREEN_HEIGHT = Ok (pixel_y_expected x).
Proof.
  intros Hx.
  pose proof pixel_check_all as Hall.
  rewrite forallb_forall in Hall.
  specialize (Hall (Z.to_nat x)).
  assert (Hin : In (Z.to_nat x) (seq 0 1001)) by (apply in_seq; lia).
  specialize (Hall Hin). unfold pixel_check in Hall.
  rewrite Z2Nat.id in Hall by lia.
  apply andb_prop in Hall as [H1 H2].
  split; now apply res_is_true.
Qed.

(** *** Doubles: digits, shifts and rounding *)

Local Open Scope Z_scope.

Lemma digits2_pos_size (p : positive) : digits2_pos p = Pos.size p.
Proof. induction p; simpl; congruence. Qed.

Lemma digits2_pos_bounds (p : positive) :
  2 ^ (Zpos (digits2_pos p) - 1) <= Zpos p < 2 ^ Zpos (digits2_pos p).
Proof.
  induction p as [p IH|p IH|]; cbn [digits2_pos].
  - rewrite Pos2Z.inj_succ.
    replace (Z.succ (Zpos (digits2_pos p)) - 1) with (Z.succ (Zpos (digits2_pos p) - 1)) by lia.
    rewrite !Z.pow_succ_r by lia. lia.
  - rewrite Pos2Z.inj_succ.
    replace (Z.succ (Zpos (digits2_pos p)) - 1) with (Z.succ (Zpos (digits2_pos p) - 1)) by lia.
    rewrite !Z.pow_succ_r by lia. lia.
  - simpl. lia.
Qed.

(** digits are determined by the bounds *)
Lemma digits2_pos_unique (p : positive) (d : Z) :
  2 ^ (d - 1) <= Zpos p < 2 ^ d -> 0 < d -> Zpos (digits2_pos p) = d.
Proof.
  intros [Hlo Hhi] Hd.
  destruct (digits2_pos_bounds p) as [Hlo' Hhi'].
  set (d' := Zpos (digits2_pos p)) in *.
  assert (0 < d') by (unfold d'; lia).
  destruct (Z.lt_trichotomy d' d) as [Hlt|[Heq|Hgt]]; [|exact Heq|].
  - assert (2 ^ d' <= 2 ^ (d - 1)) by (apply Z.pow_le_mono_r; lia). lia.
  - assert (2 ^ d <= 2 ^ (d' - 1)) by (apply Z.pow_le_mono_r; lia). lia.
Qed.

Lemma shr_1_m (mrs : shr_record) :
  0 <= shr_m mrs -> shr_m (shr_1 mrs) = shr_m mrs / 2.
Proof.
  destruct mrs as [m r s]. simpl. intros Hm.
  destruct m as [|p|p]; [reflexivity| |lia].
  destruct p as [p|p|]; simpl shr_m.
  - rewrite Pos2Z.inj_xI. apply Z.div_unique with (r := 1); lia.
  - rewrite Pos2Z.inj_xO. apply Z.div_unique with (r := 0); lia.
  - reflexivity.
Qed.

Lemma iter_pos_shr_1_m (p : positive) :
  forall mrs, 0 <= shr_m mrs ->
    shr_m (SpecFloat.iter_pos shr_1 p mrs) = shr_m mrs / 2 ^ Zpos p.
Proof.
  induction p as [p IH|p IH|]; intros mrs Hm; cbn [SpecFloat.iter_pos].
  - assert (H1 : 0 <= shr_m (shr_1 mrs)) by (rewrite shr_1_m by lia; apply Z.div_pos; lia).
    assert (H2 : 0 <= shr_m (SpecFloat.iter_pos shr_1 p (shr_1 mrs)))
      by (rewrite IH by lia; apply Z.div_pos; lia).
    rewrite IH by lia. rewrite IH by lia. rewrite shr_1_m by lia.
    rewrite !Z.div_div by lia.
    f_equal. change 2 with (2 ^ 1) at 1.
    rewrite <- !Z.pow_add_r by lia. f_equal. lia.
  - assert (H2 : 0 <= shr_m (SpecFloat.iter_pos shr_1 p mrs))
      by (rewrite IH by lia; apply Z.div_pos; lia).
    rewrite IH by lia. rewrite IH by lia.
    rewrite !Z.div_div by lia.
    f_equal. rewrite <- !Z.pow_add_r by lia. f_equal. lia.
  - rewrite shr_1_m by lia. reflexivity.
Qed.

Lemma shr_fexp_exact (mx e : Z) :
  let n := Z.max (Zdigits2 mx + e - 53) (-1074) - e in
  shr_fexp 53 1024 mx e loc_Exact
  = if (0 <? n)%Z
    then (SpecFloat.iter_pos shr_1 (Z.to_pos n) (exact_record mx), e + n)
    else (exact_record mx, e).
Proof.
  intros n. unfold shr_fexp, shr, fexp, emin.
  change (3 - 1024 - 53) with (-1074). fold n.
  change (shr_record_of_loc mx loc_Exact) with (exact_record mx).
  destruct n; reflexivity.
Qed.

Lemma round_nearest_even_range (mx : Z) (lx : location) :
  mx <= round_nearest_even mx lx <= mx + 1.
Proof.
  unfold round_nearest_even.
  destruct lx as [|[]]; try destruct (Z.even mx); lia.
Qed.

Lemma Zdigits2_pos_unique (mx d : Z) :
  2 ^ (d - 1) <= mx < 2 ^ d -> 0 < d -> Zdigits2 mx = d.
Proof.
  intros H Hd.
  assert (0 < 2 ^ (d - 1)) by (apply Z.pow_pos_nonneg; lia).
  destruct mx as [|p|p]; try lia.
  simpl. now apply digits2_pos_unique.
Qed.

(** Rounding a positive mantissa of at least 53 digits, in the normal range. *)
Lemma binary_round_aux_normal (m : positive) (e : Z) :
  let d := Zpos (digits2_pos m) in
  let n := d - 53 in
  53 <= d -> -1074 <= d + e - 53 -> d + e <= 1023 ->
  exists (m'' : positive) (e'' m' : Z),
    binary_round_aux 53 1024 false (Zpos m) e loc_Exact = S754_finite false m'' e'' /\
    Zpos m / 2 ^ n <= m' <= Zpos m / 2 ^ n + 1 /\
    e + n <= e'' <= e + n + 1 /\
    Zpos m'' * 2 ^ (e'' - (e + n)) = m'.
Proof.
  intros d n Hd Hlo Hhi.
  destruct (digits2_pos_bounds m) as [Hm1 Hm2]. fold d in Hm1, Hm2.
  unfold binary_round_aux.
  rewrite shr_fexp_exact. cbn [Zdigits2]. fold d.
  replace (Z.max (d + e - 53) (-1074) - e) with n by (unfold n; lia).
  set (first := if (0 <? n)%Z
                then (SpecFloat.iter_pos shr_1 (Z.to_pos n) (exact_record (Zpos m)),
                      e + n)
                else (exact_record (Zpos m), e)).
  assert (Hfirst : shr_m (fst first) = Zpos m / 2 ^ n /\ snd first = e + n).
  { unfold first. destruct (Z.ltb_spec 0 n) as [Hn|Hn]; simpl fst; simpl snd.
    - rewrite iter_pos_shr_1_m by (simpl; lia).
      rewrite Z2Pos.id by lia. split; reflexivity.
    - assert (n = 0) by (unfold n in *; lia).
      replace n with 0 by lia. simpl. rewrite Z.div_1_r. split; [reflexivity|lia]. }
  destruct first as [mrs' e']. simpl in Hfirst. destruct Hfirst as [Hm' He']. subst e'.
  set (m1 := Zpos m / 2 ^ n) in *.
  assert (Hm1b : 2 ^ 52 <= m1 < 2 ^ 53).
  { unfold m1.
    assert (Hp : 0 < 2 ^ n) by (apply Z.pow_pos_nonneg; unfold n; lia).
    assert (Hd53 : 2 ^ (d - 1) = 2 ^ 52 * 2 ^ n).
    { rewrite <- Z.pow_add_r by (unfold n; lia). f_equal. unfold n. lia. }
    assert (Hd54 : 2 ^ d = 2 ^ 53 * 2 ^ n).
    { rewrite <- Z.pow_add_r by (unfold n; lia). f_equal. unfold n. lia. }
    split.
    - apply Z.div_le_lower_bound; lia.
    - apply Z.div_lt_upper_bound; lia. }
  set (m' := round_nearest_even (shr_m mrs') (loc_of_shr_record mrs')).
  assert (Hr : m1 <= m' <= m1 + 1).
  { unfold m'. rewrite Hm'. apply round_nearest_even_range. }
  rewrite shr_fexp_exact.
  destruct (Z.eq_dec m' (2 ^ 53)) as [Hc|Hc].
  - (* carry *)
    rewrite Hc.
    assert (Hdig : Zdigits2 (2 ^ 53) = 54) by reflexivity.
    rewrite Hdig.
    replace (Z.max (54 + (e + n) - 53) (-1074) - (e + n)) with 1 by (unfold n; lia).
    change (0 <? 1)%Z with true. cbv iota. simpl Z.to_pos.
    cbn [SpecFloat.iter_pos].
    change (shr_m (shr_1 (exact_record (2 ^ 53)))) with (Zpos (Z.to_pos (2 ^ 52))).
    assert (Hle : (e + n + 1 <=? 1024 - 53) = true) by (apply Z.leb_le; unfold n; lia).
    rewrite Hle.
    exists (Z.to_pos (2 ^ 52)), (e + n + 1), m'. repeat split; try lia.
    replace (e + n + 1 - (e + n)) with 1 by lia. rewrite Hc. reflexivity.
  - assert (Hdig : Zdigits2 m' = 53).
    { apply Zdigits2_pos_unique; [|lia]. change (53 - 1) with 52. lia. }
    rewrite Hdig.
    replace (Z.max (53 + (e + n) - 53) (-1074) - (e + n)) with 0 by (unfold n; lia).
    change (0 <? 0)%Z with false. cbv iota. cbn [shr_m exact_record].
    assert (Hpos : 0 < m') by lia.
    destruct m' as [|pm|pm] eqn:Em; try lia.
    assert (Hle : (e + n <=? 1024 - 53) = true) by (apply Z.leb_le; unfold n; lia).
    rewrite Hle.
    exists pm, (e + n), (Zpos pm). repeat split; try lia.
    replace (e + n - (e + n)) with 0 by lia. simpl. lia.
Qed.

Lemma iter_xO (p : positive) (k : positive) :
  Zpos (Pos.iter xO p k) = Zpos p * 2 ^ Zpos k.
Proof.
  change (Pos.iter xO p k) with (shift_pos k p).
  rewrite shift_pos_correct. rewrite Zpower_pos_nat, Zpower_nat_Z.
  rewrite positive_nat_Z. lia.
Qed.

(** A mantissa of exactly 53 digits is left as it is. *)
Lemma binary_round_aux_exact (m : positive) (e : Z) :
  Zpos (digits2_pos m) = 53 -> -1074 <= e <= 971 ->
  binary_round_aux 53 1024 false (Zpos m) e loc_Exact = S754_finite false m e.
Proof.
  intros Hd He. unfold binary_round_aux.
  rewrite shr_fexp_exact. cbn [Zdigits2]. rewrite Hd.
  replace (Z.max (53 + e - 53) (-1074) - e) with 0 by lia.
  change (0 <? 0)%Z with false. cbv iota.
  change (round_nearest_even (shr_m (exact_record (Z.pos m)))
            (loc_of_shr_record (exact_record (Z.pos m)))) with (Zpos m).
  rewrite shr_fexp_exact. cbn [Zdigits2]. rewrite Hd.
  replace (Z.max (53 + e - 53) (-1074) - e) with 0 by lia.
  change (0 <? 0)%Z with false. cbv iota. cbn [shr_m exact_record].
  assert (Hle : (e <=? 1024 - 53) = true) by (apply Z.leb_le; lia).
  now rewrite Hle.
Qed.

(** [float(W)] for [0 < W < 2^53] is [W], with a mantissa of 53 digits. *)
Lemma binary_normalize_int (w : positive) :
  let d := Zpos (digits2_pos w) in
  d <= 53 ->
  exists mw : positive,
    binary_normalize 53 1024 (Zpos w) 0 false = S754_finite false mw (d - 53) /\
    Zpos mw = Zpos w * 2 ^ (53 - d) /\
    Zpos (digits2_pos mw) = 53.
Proof.
  intros d Hd. unfold binary_normalize, binary_round, shl_align, fexp, emin.
  change (3 - 1024 - 53) with (-1074).
  rewrite Z.add_0_r. fold d.
  assert (Hdpos : 0 < d) by (unfold d; lia).
  replace (Z.max (d - 53) (-1074)) with (d - 53) by lia.
  rewrite Z.sub_0_r.
  destruct (digits2_pos_bounds w) as [Hlo Hhi]. fold d in Hlo, Hhi.
  destruct (d - 53) as [|k|k] eqn:Ek; try lia.
  - assert (d = 53) by lia.
    exists w. rewrite binary_round_aux_exact by (unfold d in *; lia).
    repeat split; [|unfold d in *; lia].
    replace (53 - d) with 0 by lia. lia.
  - exists (Pos.iter xO w k).
    assert (Hv : Zpos (Pos.iter xO w k) = Zpos w * 2 ^ (53 - d)).
    { rewrite iter_xO. f_equal. f_equal. lia. }
    assert (Hdig : Zpos (digits2_pos (Pos.iter xO w k)) = 53).
    { apply digits2_pos_unique; [|lia]. rewrite Hv.
      assert (H52 : 2 ^ (53 - 1) = 2 ^ (d - 1) * 2 ^ (53 - d)).
      { rewrite <- Z.pow_add_r by lia. f_equal. lia. }
      assert (H53 : 2 ^ 53 = 2 ^ d * 2 ^ (53 - d)).
      { rewrite <- Z.pow_add_r by lia. f_equal. lia. }
      assert (0 < 2 ^ (53 - d)) by (apply Z.pow_pos_nonneg; lia).
      rewrite H52, H53. nia. }
    rewrite binary_round_aux_exact by (try exact Hdig; lia).
    repeat split; assumption.
Qed.

(** *** The quotient by 1000 and the product *)

Lemma quotient_table : forallb quotient_ok (seq 0 1000) = true.
Proof. vm_compute. reflexivity. Qed.

Lemma quotient_spec (x : Z) :
  1 <= x <= 1000 ->
  exists (mq : positive) (s : Z),
    PyFloat.int_truediv x 1000 = Ok (S754_finite false mq (- s)) /\
    52 <= s <= 62 /\
    Zpos (digits2_pos mq) = 53 /\
    Z.abs (1000 * Zpos mq - x * 2 ^ s) <= 500.
Proof.
  intros Hx.
  pose proof quotient_table as Hall.
  rewrite forallb_forall in Hall.
  specialize (Hall (Z.to_nat (x - 1))).
  assert (Hin : In (Z.to_nat (x - 1)) (seq 0 1000)) by (apply in_seq; lia).
  specialize (Hall Hin). unfold quotient_ok in Hall.
  replace (Z.of_nat (S (Z.to_nat (x - 1)))) with x in Hall by lia.
  destruct (PyFloat.int_truediv x 1000) as [[| | |[] mq eq]|]; try discriminate.
  apply andb_prop in Hall as [Hall H4].
  apply andb_prop in Hall as [Hall H3].
  apply andb_prop in Hall as [H1 H2].
  apply Z.leb_le in H1, H2, H4. apply Z.eqb_eq in H3.
  exists mq, (- eq). rewrite Z.opp_involutive.
  repeat split; try lia; assumption.
Qed.

Lemma to_int_negative_exponent (m : positive) (e : Z) :
  e < 0 -> PyFloat.to_int (S754_finite false m e) = Ok (Zpos m / 2 ^ (- e)).
Proof.
  intros He. destruct e as [|k|k]; try lia.
  unfold PyFloat.to_int. rewrite Z.shiftr_div_pow2 by lia. reflexivity.
Qed.

Lemma product_digits (a b : positive) :
  Zpos (digits2_pos a) = 53 -> Zpos (digits2_pos b) = 53 ->
  105 <= Zpos (digits2_pos (a * b)) <= 106.
Proof.
  intros Ha Hb.
  pose proof (digits2_pos_bounds a) as Ba. rewrite Ha in Ba.
  pose proof (digits2_pos_bounds b) as Bb. rewrite Hb in Bb.
  pose proof (digits2_pos_bounds (a * b)) as Bab.
  rewrite Pos2Z.inj_mul in Bab.
  set (d := Zpos (digits2_pos (a * b))) in *.
  assert (Hd : 0 < d) by (unfold d; lia).
  change (53 - 1) with 52 in *.
  assert (Hlo : 2 ^ 104 <= Zpos a * Zpos b).
  { change (2 ^ 104) with (2 ^ 52 * 2 ^ 52). apply Z.mul_le_mono_nonneg; lia. }
  assert (Hhi : Zpos a * Zpos b < 2 ^ 106).
  { change (2 ^ 106) with (2 ^ 53 * 2 ^ 53). apply Z.mul_lt_mono_nonneg; lia. }
  split.
  - destruct (Z.le_gt_cases 105 d) as [H|H]; [exact H|].
    assert (2 ^ d <= 2 ^ 104) by (apply Z.pow_le_mono_r; lia). lia.
  - destruct (Z.le_gt_cases d 106) as [H|H]; [exact H|].
    assert (2 ^ 106 <= 2 ^ (d - 1)) by (apply Z.pow_le_mono_r; lia). lia.
Qed.

(** The normaliser against the exact product, for any dimension below
    [2^40]. *)
Lemma denormalize_x_floor (x W : Z) :
  0 <= x <= 1000 -> 0 < W < 2 ^ 40 ->
  exists r : Z,
    denormalize_x x W = Ok r /\
    x * W / 1000 - 1 <= r <= x * W / 1000 /\
    (x * W mod 1000 <> 0 -> r = x * W / 1000).
Proof.
  intros Hx HW.
  destruct W as [|w|w]; try lia.
  pose proof (digits2_pos_bounds w) as Bw.
  set (dW := Zpos (digits2_pos w)) in *.
  assert (HdW : 0 < dW <= 40).
  { split; [unfold dW; lia|].
    destruct (Z.le_gt_cases dW 40) as [H|H]; [exact H|].
    assert (2 ^ 40 <= 2 ^ (dW - 1)) by (apply Z.pow_le_mono_r; lia). lia. }
  destruct (binary_normalize_int w) as (mW & HfW & HmW & HdmW); [fold dW; lia|].
  fold dW in HfW, HmW.
  assert (Hof : PyFloat.of_int (Zpos w) = Ok (S754_finite false mW (dW - 53))).
  { unfold PyFloat.of_int, PyFloat.prec, PyFloat.emax. now rewrite HfW. }
  destruct (Z.eq_dec x 0) as [->|Hx0].
  - exists 0. unfold denormalize_x.
    change (PyFloat.int_truediv 0 1000) with (Ok (S754_zero false)).
    unfold res_bind at 1. unfold PyFloat.mul_int. rewrite Hof.
    assert (H0 : 0 * Zpos w / 1000 = 0) by reflexivity.
    rewrite H0. split; [reflexivity|]. split; [lia|reflexivity].
  - destruct (quotient_spec x) as (mq & s & Hq & Hs & Hdq & Htab); [lia|].
    unfold denormalize_x. rewrite Hq. unfold res_bind at 1.
    unfold PyFloat.mul_int. rewrite Hof. unfold res_bind at 2.
    unfold res_bind. unfold SFmul, PyFloat.prec, PyFloat.emax.
    change (xorb false false) with false.
    pose proof (product_digits mq mW Hdq HdmW) as Hd.
    destruct (binary_round_aux_normal (mq * mW) (- s + (dW - 53)))
      as (m'' & e'' & m' & Hround & Hm' & He'' & Hval); try lia.
    rewrite Hround.
    set (d := Zpos (digits2_pos (mq * mW))) in *.
    set (n := d - 53) in *.
    set (e := - s + (dW - 53)) in *.
    assert (He : e + n + 1 < 0) by (unfold e, n; lia).
    rewrite to_int_negative_exponent by lia.
    eexists. split; [reflexivity|].
    (* the arithmetic *)
    set (k := e'' - (e + n)) in *.
    assert (Hk : 0 <= k <= 1) by (unfold k; lia).
    set (T' := 2 ^ (- e'')).
    set (pN := 2 ^ n) in *.
    set (pA := 2 ^ (53 - dW)) in *.
    set (pS := 2 ^ s) in *.
    assert (HT' : 0 < T') by (apply Z.pow_pos_nonneg; lia).
    assert (HN : 0 < pN) by (apply Z.pow_pos_nonneg; unfold n; lia).
    assert (HA : 0 < pA) by (apply Z.pow_pos_nonneg; lia).
    assert (HS : 2 ^ 52 <= pS) by (apply Z.pow_le_mono_r; lia).
    assert (HTN : T' * 2 ^ k * pN = pS * pA).
    { unfold T', pN, pS, pA. rewrite <- !Z.pow_add_r by (unfold k, n in *; lia).
      f_equal. unfold k, e, n. lia. }
    assert (HNle : pN <= 2 * (pA * Zpos w)).
    { rewrite Z.mul_comm with (n := pA). rewrite <- HmW.
      pose proof (digits2_pos_bounds mW) as BmW. rewrite HdmW in BmW.
      change (53 - 1) with 52 in BmW.
      assert (pN <= 2 ^ 53) by (apply Z.pow_le_mono_r; unfold n; lia).
      change (2 ^ 53) with (2 * 2 ^ 52) in *. lia. }
    rewrite Pos2Z.inj_mul in Hm'. rewrite HmW in Hm'.
    set (m := Zpos mq * (Zpos w * pA)) in *.
    assert (Hdiv : pN * (m / pN) <= m < pN * (m / pN + 1)).
    { pose proof (Z.mul_div_le m pN HN).
      pose proof (Z.mul_succ_div_gt m pN HN). lia. }
    set (m1 := m / pN) in *.
    set (pK := x * Zpos w / 1000).
    pose proof (Z.div_mod (x * Zpos w) 1000 ltac:(lia)) as HK. fold pK in HK.
    pose proof (Z.mod_pos_bound (x * Zpos w) 1000 ltac:(lia)) as Hrho.
    set (rho := x * Zpos w mod 1000) in *.
    assert (Hw40 : 2500 * Zpos w < pS).
    { change (2 ^ 52) with (4096 * 2 ^ 40) in HS. lia. }
    assert (Htab' : x * pS - 500 <= 1000 * Zpos mq <= x * pS + 500) by lia.
    set (pB := Zpos w * pA) in *.
    set (SA := pS * pA) in *.
    assert (HB : 0 < pB) by (unfold pB; lia).
    assert (HSA : 0 < SA) by (unfold SA; apply Z.mul_pos_pos; lia).
    assert (HBSA : 2500 * pB < SA).
    { unfold pB, SA. rewrite Z.mul_assoc. apply Z.mul_lt_mono_pos_r; lia. }
    assert (HNB : pN <= 2 * pB) by (unfold pB; lia).
    assert (Hm1N : m1 * pN <= m < m1 * pN + pN) by lia.
    assert (Hm'pN : m1 * pN <= m' * pN <= m1 * pN + pN).
    { split.
      - apply Z.mul_le_mono_nonneg_r; lia.
      - replace (m1 * pN + pN) with ((m1 + 1) * pN) by ring.
        apply Z.mul_le_mono_nonneg_r; lia. }
    assert (Hm : (x * pS - 500) * pB <= 1000 * m <= (x * pS + 500) * pB).
    { replace (1000 * m) with (1000 * Zpos mq * pB) by (unfold m; ring).
      split; apply Z.mul_le_mono_nonneg_r; lia. }
    set (pP := x * pS * pB) in *.
    assert (HP1 : (x * pS - 500) * pB = pP - 500 * pB) by (unfold pP; ring).
    assert (HP2 : (x * pS + 500) * pB = pP + 500 * pB) by (unfold pP; ring).
    assert (Hboth : pP - 2500 * pB <= 1000 * (m' * pN) <= pP + 2500 * pB) by lia.
    assert (HKP : 1000 * pK * SA = pP - rho * SA).
    { unfold pP, SA, pB. replace (1000 * pK) with (x * Zpos w - rho) by lia. ring. }
    assert (Hrho1 : 0 <= rho * SA <= 999 * SA).
    { split; [apply Z.mul_nonneg_nonneg; lia|].
      apply Z.mul_le_mono_nonneg_r; lia. }
    (* r against thresholds *)
    assert (H2kN : 0 < 2 ^ k * pN)
      by (apply Z.mul_pos_pos; [apply Z.pow_pos_nonneg; lia|lia]).
    assert (Hscale : forall c, c * T' * (2 ^ k * pN) = c * SA).
    { intros c. rewrite <- HTN. ring. }
    assert (Hscale' : Zpos m'' * (2 ^ k * pN) = m' * pN).
    { rewrite <- Hval. ring. }
    assert (Hthr : forall c, 1000 * c * SA <= 1000 * (m' * pN) -> c <= Zpos m'' / T').
    { intros c Hc. apply Z.div_le_lower_bound; [lia|].
      apply Z.mul_le_mono_pos_r with (p := 2 ^ k * pN); [exact H2kN|].
      rewrite Z.mul_comm with (n := T'). rewrite Hscale, Hscale'. lia. }
    assert (Hthr' : forall c, 1000 * (m' * pN) < 1000 * c * SA -> Zpos m'' / T' < c).
    { intros c Hc. apply Z.div_lt_upper_bound; [lia|].
      apply Z.mul_lt_mono_pos_r with (p := 2 ^ k * pN); [exact H2kN|].
      rewrite Z.mul_comm with (n := T'). rewrite Hscale, Hscale'. lia. }
    assert (Hle : Zpos m'' / T' < pK + 1).
    { apply Hthr'.
      replace (1000 * (pK + 1) * SA) with (1000 * pK * SA + 1000 * SA) by ring.
      lia. }
    assert (Hge : pK - 1 <= Zpos m'' / T').
    { apply Hthr.
      replace (1000 * (pK - 1) * SA) with (1000 * pK * SA - 1000 * SA) by ring.
      lia. }
    split; [lia|].
    intros Hne.
    assert (HrhoSA : 1 * SA <= rho * SA)
      by (apply Z.mul_le_mono_nonneg_r; lia).
    assert (pK <= Zpos m'' / T') by (apply Hthr; lia).
    lia.
Qed.

Local Open Scope string_scope.
Local Open Scope list_scope.

(** C5, as the code has it.  For every coordinate [0 <= x <= 1000] and every
    dimension below [2^40], the normaliser returns
    [int(x / 1000 * dimension)] evaluated on doubles: the product truncated
    toward zero and not rounded to nearest.  The result is the floor of
    [x * dimension / 1000] when [x * dimension] is not a multiple of 1000;
    when it is, the result is that integer or, where the double product
    falls just under it, one less. *)
Theorem denormalize_truncates (x dimension : Z) :
  0 <= x <= 1000 -> 0 < dimension < 2 ^ 40 ->
  exists r : Z,
    denormalize_x x dimension = Ok r /\
    denormalize_y x dimension = Ok r /\
    x * dimension / 1000 - 1 <= r <= x * dimension / 1000 /\
    (x * dimension mod 1000 <> 0 -> r = x * dimension / 1000).
Proof.
  intros Hx Hd.
  destruct (denormalize_x_floor x dimension Hx Hd) as (r & Hr & Hbounds & Hfloor).
  exists r. split; [exact Hr|]. split.
  - unfold denormalize_y. exact Hr.
  - split; assumption.
Qed.

Lemma denormalize_truncates_witness :
  exists r : Z,
    denormalize_x 175 1440 = Ok r /\
    denormalize_y 175 1440 = Ok r /\
    175 * 1440 / 1000 - 1 <= r <= 175 * 1440 / 1000 /\
    (175 * 1440 mod 1000 <> 0 -> r = 175 * 1440 / 1000).
Proof.
  apply (denormalize_truncates 175 1440).
  - lia.
  - split; reflexivity.
Defined.

(** C5, as the claim has it, fails: at [x = 2] and width 1440 the product is
    2.88, whose nearest integer is 3, and the normaliser returns 2. *)
Lemma denormalize_is_not_rounding :
  denormalize_x 2 1440 = Ok 2 /\ ~ nearest_integer (2 * 1440) 1000 2.
Proof.
  split; [vm_compute; reflexivity|].
  unfold nearest_integer. lia.
Qed.

(** ** URL scheme *)

Lemma ensure_url_scheme_empty : ensure_url_scheme "" = "".
Proof. reflexivity. Qed.

Lemma ensure_url_scheme_kept (url : string) :
  PyStr.startswith url "http://" = true \/ PyStr.startswith url "https://" = true ->
  ensure_url_scheme url = url.
Proof.
  unfold ensure_url_scheme. intros [H|H]; rewrite H; [reflexivity|].
  now rewrite orb_true_r.
Qed.

Lemma ensure_url_scheme_added (url : string) :
  url <> "" ->
  PyStr.startswith url "http://" = false ->
  PyStr.startswith url "https://" = false ->
  ensure_url_scheme url = ("https://" ++ url)%string.
Proof.
  unfold ensure_url_scheme. intros Hne H1 H2. rewrite H1, H2. simpl.
  destruct url; [congruence|reflexivity].
Qed.

Section Actions.

Variable E : environment.

Local Open Scope list_scope.

Lemma record_record (a b : event) (w : world) :
  record b (record a w) = World (trace w ++ [a; b]) (stdin w).
Proof. unfold record. simpl. now rewrite <- app_assoc. Qed.

Lemma perform_navigate (args : dict) (sw sh : Z) :
  perform E "navigate" args sw sh =
  let url := ensure_url_scheme
               (PyVal.str (value_repr E) (dict_get args "url" (VStr ""))) in
  if negb (PyStr.truthy url)
  then raise (ValueError "Missing 'url' argument for navigate")
  else browser_call E (Goto url "domcontentloaded").
Proof. reflexivity. Qed.

(** An empty [url] fails before the browser is touched. *)
Lemma navigate_empty_url (args : dict) (sw sh : Z) (w : world) :
  PyVal.str (value_repr E) (dict_get args "url" (VStr "")) = ""%string ->
  execute_action E "navigate" args sw sh w =
  Returns {["error" := VStr "Missing 'url' argument for navigate"]} w.
Proof.
  intros H. unfold execute_action, try_except, bind.
  rewrite perform_navigate. simpl. rewrite H. reflexivity.
Qed.

(** A non-empty [url] is opened as [ensure_url_scheme] returns it. *)
Lemma navigate_goto (args : dict) (sw sh : Z) (w : world) :
  let url := PyVal.str (value_repr E) (dict_get args "url" (VStr "")) in
  url <> ""%string ->
  perform E "navigate" args sw sh w =
  browser_call E (Goto (ensure_url_scheme url) "domcontentloaded") w.
Proof.
  intros url Hne. rewrite perform_navigate. fold url. simpl.
  assert (Ht : PyStr.truthy (ensure_url_scheme url) = true).
  { unfold ensure_url_scheme.
    destruct (PyStr.startswith url "http://" || PyStr.startswith url "https://");
      destruct url; try congruence; reflexivity. }
  now rewrite Ht.
Qed.

(** The settle step never raises: a failed wait is swallowed, and the pause
    follows. *)
Lemma settle_returns (w : world) :
  settle E w = Returns tt (World (trace w ++ SETTLE) (stdin w)).
Proof.
  unfold settle, try_except, bind, browser_call, sleep, ret.
  destruct (browser_raises E (trace w) (WaitForLoadState "networkidle" 5000));
    now rewrite record_record.
Qed.

Lemma execute_action_returned (fname : string) (args : dict) (sw sh : Z)
      (w w1 : world) :
  perform E fname args sw sh w = Returns tt w1 ->
  execute_action E fname args sw sh w
  = Returns ∅ (World (trace w1 ++ SETTLE) (stdin w1)).
Proof.
  intros Hp. unfold execute_action, try_except, bind.
  now rewrite Hp, settle_returns.
Qed.

Lemma execute_action_raised (fname : string) (args : dict) (sw sh : Z)
      (w w1 : world) (e : exn) :
  perform E fname args sw sh w = Raises e w1 ->
  execute_action E fname args sw sh w
  = Returns {["error" := VStr (exn_msg e)]} w1.
Proof.
  intros Hp. unfold execute_action, try_except, bind.
  now rewrite Hp.
Qed.

(** The action of one call never raises. *)
Lemma execute_action_returns (fname : string) (args : dict) (sw sh : Z)
      (w : world) :
  exists action_result w',
    execute_action E fname args sw sh w = Returns action_result w' /\
    stdin w' = stdin (world_of (perform E fname args sw sh w)) /\
    (action_result = ∅ \/
     exists e, action_result = {["error" := VStr (exn_msg e)]}).
Proof.
  destruct (perform E fname args sw sh w) as [[] w1|e w1] eqn:Hp; simpl.
  - exists ∅, (World (trace w1 ++ SETTLE) (stdin w1)).
    split; [now apply execute_action_returned|auto].
  - exists {["error" := VStr (exn_msg e)]}, w1.
    split; [now apply execute_action_raised|eauto].
Qed.

(** C8, as the code has it.  The settle step follows every action whose
    input events succeed: the wait for network idle (an exception of which
    is swallowed) and then the pause, before the result is produced.  When
    the action raises, the [except] clause is entered at once: the result
    is the error and the settle step is not run. *)
Theorem settle_follows_success (fname : string) (args : dict) (sw sh : Z)
        (w : world) :
  match perform E fname args sw sh w with
  | Returns _ w1 =>
      settle E w1 = Returns tt (World (trace w1 ++ SETTLE) (stdin w1)) /\
      execute_action E fname args sw sh w =
      Returns ∅ (World (trace w1 ++ SETTLE) (stdin w1))
  | Raises e w1 =>
      execute_action E fname args sw sh w =
      Returns {["error" := VStr (exn_msg e)]} w1
  end.
Proof.
  destruct (perform E fname args sw sh w) as [[] w1|e w1] eqn:Hp.
  - split.
    + apply settle_returns.
    + now apply execute_action_returned.
  - now apply execute_action_raised.
Qed.

End Actions.

(** C8, as the claim has it, fails: a [navigate] without [url] raises before
    the settle step, and its result is produced with no call made at all. *)
Lemma failed_action_is_not_settled :
  execute_action (steady_env []) "navigate" ∅ 1440 900 (w0 []) =
  Returns {["error" := VStr "Missing 'url' argument for navigate"]} (w0 []) /\
  ~ (exists before : list event,
        trace (world_of (execute_action (steady_env []) "navigate" ∅ 1440 900 (w0 [])))
        = before ++ SETTLE).
Proof.
  assert (H : execute_action (steady_env []) "navigate" ∅ 1440 900 (w0 []) =
              Returns {["error" := VStr "Missing 'url' argument for navigate"]} (w0 []))
    by (apply navigate_empty_url; reflexivity).
  split; [exact H|].
  rewrite H. simpl. intros [before Hb].
  destruct before; discriminate.
Qed.

(** C6 at [url = "ftp://example.com"]: a scheme other than [http] and [https]
    is not seen, and the address is opened with [https://] in front. *)
Theorem navigate_prefixes_other_scheme :
  ensure_url_scheme "ftp://example.com" = "https://ftp://example.com" /\
  execute_action (steady_env []) "navigate" {["url" := VStr "ftp://example.com"]}
                 1440 900 (w0 []) =
  Returns ∅ (World (Goto "https://ftp://example.com" "domcontentloaded" :: SETTLE) []).
Proof. split; reflexivity. Qed.

(** ** The dispatcher *)

Lemma read_decision_raises (lines : list string) :
  forall (tr : list event) (e : exn) (w' : world),
    read_decision lines tr = Raises e w' -> e = EOFError /\ stdin w' = [].
Proof.
  induction lines as [|line rest IH]; intros tr e w' H; simpl in H.
  - inversion H; subst. split; reflexivity.
  - destruct (is_answer (PyStr.lower (PyStr.strip line))); [discriminate|].
    eapply IH; eassumption.
Qed.

(** The prompts add only [Input] events, one per line read. *)
Lemma read_decision_trace (lines : list string) :
  forall (tr : list event),
  exists k : nat,
    trace (world_of (read_decision lines tr)) = tr ++ repeat (Input PROMPT) (S k).
Proof.
  induction lines as [|line rest IH]; intros tr; simpl.
  - exists O. reflexivity.
  - destruct (is_answer (PyStr.lower (PyStr.strip line))).
    + exists O. reflexivity.
    + destruct (IH (tr ++ [Input PROMPT])) as [k Hk].
      exists (S k). rewrite Hk, <- app_assoc. reflexivity.
Qed.

Lemma get_safety_confirmation_cases (safety_decision : dict) (w : world) :
  match get_safety_confirmation safety_decision w with
  | Returns decision _ => decision = "TERMINATE"%string \/ decision = "CONTINUE"%string
  | Raises e w' => e = EOFError /\ stdin w' = []
  end.
Proof.
  unfold get_safety_confirmation.
  destruct (read_decision (stdin w) (trace w)) as [decision w'|e w'] eqn:Hr.
  - destruct (is_refusal (PyStr.lower decision)); auto.
  - eapply read_decision_raises; eassumption.
Qed.

Lemma get_safety_confirmation_trace (safety_decision : dict) (w : world) :
  exists k : nat,
    trace (world_of (get_safety_confirmation safety_decision w))
    = trace w ++ repeat (Input PROMPT) (S k).
Proof.
  unfold get_safety_confirmation.
  destruct (read_decision_trace (stdin w) (trace w)) as [k Hk].
  exists k.
  destruct (read_decision (stdin w) (trace w)) as [decision w'|e w'];
    [destruct (is_refusal (PyStr.lower decision))|]; exact Hk.
Qed.

Section Dispatcher.

Variable E : environment.

(** What the safety decision handling can come to. *)
Lemma safety_check_cases (args : dict) (w : world) :
  match safety_check args w with
  | Returns (stop, extra) _ =>
      (stop = true /\ extra = {["safety_acknowledgement" := VStr "false"]}) \/
      (stop = false /\
       (extra = ∅ \/ extra = {["safety_acknowledgement" := VStr "true"]}))
  | Raises e w' => e = EOFError /\ stdin w' = []
  end.
Proof.
  unfold safety_check.
  destruct (args !! "safety_decision") as [[| | | | | |sd]|]; simpl; auto.
  unfold bind.
  pose proof (get_safety_confirmation_cases sd w) as H.
  destruct (get_safety_confirmation sd w) as [decision w'|e w']; [|exact H].
  destruct H as [-> | ->]; simpl; auto.
Qed.

(** One iteration of the [for] loop over the calls. *)
Lemma run_function_calls_cons (fc : FunctionCall) (rest : list FunctionCall)
      (results : list result_entry) (sw sh : Z) (w : world) :
  run_function_calls E (fc :: rest) results sw sh w =
  match safety_check (call_args fc) w with
  | Returns (true, extra) w1 =>
      Returns (results ++ [(fc_name fc, {["terminated_by_user" := VBool true]}, extra)],
               true) w1
  | Returns (false, extra) w1 =>
      match execute_action E (fc_name fc) (call_args fc) sw sh w1 with
      | Returns action_result w2 =>
          run_function_calls E rest
            (results ++ [(fc_name fc, action_result, extra)]) sw sh w2
      | Raises e w2 => Raises e w2
      end
  | Raises e w1 => Raises e w1
  end.
Proof.
  simpl. unfold bind at 1.
  destruct (safety_check (call_args fc) w) as [[[] extra] w1|e w1];
    reflexivity.
Qed.

Lemma run_function_calls_shape (sw sh : Z) (fcs : list FunctionCall) :
  forall (acc : list result_entry) (w : world),
    match run_function_calls E fcs acc sw sh w with
    | Returns (results, terminated) _ =>
        exists new : list result_entry,
          results = acc ++ new /\
          map entry_name new = firstn (length new) (map fc_name fcs) /\
          (length new <= length fcs)%nat /\
          (terminated = false -> length new = length fcs) /\
          (terminated = true ->
           exists before fname, new = before ++ [rejection_entry fname])
    | Raises e w' => e = EOFError /\ stdin w' = []
    end.
Proof.
  induction fcs as [|fc rest IH]; intros acc w.
  - simpl. exists []. rewrite app_nil_r. repeat split; auto. discriminate.
  - rewrite run_function_calls_cons.
    pose proof (safety_check_cases (call_args fc) w) as Hs.
    destruct (safety_check (call_args fc) w) as [[[] extra] w1|e w1];
      [| |exact Hs].
    + destruct Hs as [[_ ->]|[Hf _]]; [|discriminate].
      exists [rejection_entry (fc_name fc)]. simpl.
      repeat split; auto; try lia; try discriminate.
      intros _. exists [], (fc_name fc). reflexivity.
    + destruct (execute_action_returns E (fc_name fc) (call_args fc) sw sh w1)
        as (action_result & w2 & -> & _ & _).
      specialize (IH (acc ++ [(fc_name fc, action_result, extra)]) w2).
      destruct (run_function_calls E rest
                  (acc ++ [(fc_name fc, action_result, extra)]) sw sh w2)
        as [[results terminated] w3|e w3]; [|exact IH].
      destruct IH as (new & -> & Hnames & Hle & Hlen & Hrej).
      exists ((fc_name fc, action_result, extra) :: new).
      rewrite <- app_assoc. simpl.
      repeat split.
      * now rewrite Hnames.
      * lia.
      * intros Ht. now rewrite Hlen.
      * intros Ht. destruct (Hrej Ht) as (before & fname & ->).
        exists ((fc_name fc, action_result, extra) :: before), fname.
        reflexivity.
Qed.

(** C1, as the code has it.  The results of a batch follow the calls of the
    turn, one for one and in order, as far as the batch goes: all of them
    when no call is refused; when the operator refuses a call, the batch
    stops there and the results end with the entry of the refused call, the
    calls after it having no result.  The only exception that leaves the
    dispatcher is the end of input at the safety prompt. *)
Theorem results_follow_calls (candidate : Candidate) (sw sh : Z) (w : world) :
  match execute_function_calls E candidate sw sh w with
  | Returns (results, terminated) _ =>
      map entry_name results
      = firstn (length results) (map fc_name (function_calls_of candidate)) /\
      (length results <= length (function_calls_of candidate))%nat /\
      (terminated = false ->
       length results = length (function_calls_of candidate)) /\
      (terminated = true ->
       exists before fname, results = before ++ [rejection_entry fname])
  | Raises e w' => e = EOFError /\ stdin w' = []
  end.
Proof.
  unfold execute_function_calls.
  pose proof (run_function_calls_shape sw sh (function_calls_of candidate) [] w)
    as H.
  destruct (run_function_calls E (function_calls_of candidate) [] sw sh w)
    as [[results terminated] w'|e w']; [|exact H].
  destruct H as (new & -> & H). exact H.
Qed.

End Dispatcher.

(** C1, as the claim has it, fails: with the first of two calls refused the
    batch has one result for two requests. *)
Lemma refused_batch_is_short :
  execute_function_calls (steady_env []) two_calls 1440 900 (w0 ["n"]) =
  Returns ([rejection_entry "navigate"], true) (World [Input PROMPT] []) /\
  length [rejection_entry "navigate"] <> length (function_calls_of two_calls).
Proof. split; [reflexivity|simpl; lia]. Qed.

(** ** Failures of one action, and typing an empty text *)

Section OneAction.

Variable E : environment.

(** When a call has passed the safety gate and its action raises, the
    result of the call is the error carrying the text of the exception, the
    batch goes on with the calls that remain, from the world in which the
    exception was raised, and no exception of an action leaves the batch
    (end of input at the safety prompt is the only one that can). *)
Lemma failed_action_in_batch (fc : FunctionCall) (rest : list FunctionCall)
        (results : list result_entry) (sw sh : Z) (w w1 w2 : world)
        (extra : dict) (e : exn) :
  safety_check (call_args fc) w = Returns (false, extra) w1 ->
  perform E (fc_name fc) (call_args fc) sw sh w1 = Raises e w2 ->
  execute_action E (fc_name fc) (call_args fc) sw sh w1
  = Returns {["error" := VStr (exn_msg e)]} w2 /\
  run_function_calls E (fc :: rest) results sw sh w
  = run_function_calls E rest
      (results ++ [(fc_name fc, {["error" := VStr (exn_msg e)]}, extra)])
      sw sh w2 /\
  (forall e' w', run_function_calls E (fc :: rest) results sw sh w = Raises e' w' ->
                 e' = EOFError).
Proof.
  intros Hs Hp.
  assert (Ha : execute_action E (fc_name fc) (call_args fc) sw sh w1
               = Returns {["error" := VStr (exn_msg e)]} w2).
  { now apply execute_action_raised. }
  split; [exact Ha|]. split.
  - rewrite run_function_calls_cons, Hs, Ha. reflexivity.
  - intros e' w' Hr.
    pose proof (run_function_calls_shape E sw sh (fc :: rest) results w) as H.
    rewrite Hr in H. apply H.
Qed.

Lemma perform_type_text_at (args : dict) (sw sh : Z) :
  perform E "type_text_at" args sw sh =
  bind (lift (res_bind (dict_getitem args "x") PyVal.int)) (fun x =>
  bind (lift (denormalize_x x sw)) (fun actual_x =>
  bind (lift (res_bind (dict_getitem args "y") PyVal.int)) (fun y =>
  bind (lift (denormalize_y y sh)) (fun actual_y =>
  let text := PyVal.str (value_repr E) (dict_get args "text" (VStr "")) in
  let press_enter := PyVal.truthy (dict_get args "press_enter" (VBool true)) in
  let clear_before_typing :=
    PyVal.truthy (dict_get args "clear_before_typing" (VBool true)) in
  bind (browser_call E (MouseClick actual_x actual_y)) (fun _ =>
  bind (if clear_before_typing
        then bind (browser_call E (KeyboardPress "Meta+A"))
                  (fun _ => browser_call E (KeyboardPress "Backspace"))
        else ret tt) (fun _ =>
  bind (if PyStr.truthy text
        then browser_call E (KeyboardType text 15)
        else ret tt) (fun _ =>
  if press_enter then browser_call E (KeyboardPress "Enter") else ret tt))))))).
Proof. reflexivity. Qed.

(** The calls of a list all go through when the browser raises on none. *)
Lemma browser_calls_all (events : list event) :
  (forall tr ev, In ev events -> browser_raises E tr ev = None) ->
  forall w, browser_calls E events w
            = Returns tt (World (trace w ++ events) (stdin w)).
Proof.
  induction events as [|ev events IH]; intros Hok w; simpl.
  - unfold ret. rewrite app_nil_r. now destruct w.
  - unfold bind, browser_call. rewrite Hok by (left; reflexivity).
    rewrite IH by (intros; apply Hok; now right).
    simpl. now rewrite <- app_assoc.
Qed.

(** C10.  With the empty string for [text], [type_text_at] clicks at the
    pixel, then selects all and deletes when [clear_before_typing] holds,
    then presses Enter when [press_enter] holds, each step being reached
    when the ones before it did not raise; no typing event is among them. *)
Theorem type_text_at_empty_text (args : dict) (sw sh x y actual_x actual_y : Z)
        (w : world) :
  res_bind (dict_getitem args "x") PyVal.int = Ok x ->
  denormalize_x x sw = Ok actual_x ->
  res_bind (dict_getitem args "y") PyVal.int = Ok y ->
  denormalize_y y sh = Ok actual_y ->
  args !! "text" = Some (VStr "") ->
  let clear := PyVal.truthy (dict_get args "clear_before_typing" (VBool true)) in
  let enter := PyVal.truthy (dict_get args "press_enter" (VBool true)) in
  let events := type_text_events actual_x actual_y clear enter in
  perform E "type_text_at" args sw sh w = browser_calls E events w /\
  (forall text delay, ~ In (KeyboardType text delay) events) /\
  ((forall tr ev, In ev events -> browser_raises E tr ev = None) ->
   perform E "type_text_at" args sw sh w
   = Returns tt (World (trace w ++ events) (stdin w))).
Proof.
  intros Hx Hax Hy Hay Htext clear enter events.
  assert (Heq : perform E "type_text_at" args sw sh w = browser_calls E events w).
  { rewrite perform_type_text_at.
    unfold bind at 1. rewrite Hx. simpl.
    unfold bind at 1. rewrite Hax. simpl.
    unfold bind at 1. rewrite Hy. simpl.
    unfold bind at 1. rewrite Hay. simpl.
    assert (Ht : dict_get args "text" (VStr "") = VStr "")
      by (unfold dict_get; now rewrite Htext).
    rewrite Ht. simpl.
    fold clear. fold enter. subst events. unfold type_text_events.
    destruct clear, enter; simpl; unfold bind, browser_call, ret; simpl;
      repeat match goal with
             | |- context [browser_raises E ?tr ?ev] =>
                 destruct (browser_raises E tr ev); simpl
             end;
      reflexivity. }
  split; [exact Heq|]. split.
  - intros text delay Hin. subst events. unfold type_text_events in Hin.
    destruct clear, enter; simpl in Hin;
      repeat (destruct Hin as [Hin|Hin]; [discriminate|]); exact Hin.
  - intros Hok. rewrite Heq. now apply browser_calls_all.
Qed.

End OneAction.

Lemma type_text_at_empty_text_witness :
  perform (steady_env []) "type_text_at" empty_text_args 1440 900 (w0 [])
  = Returns tt (World [MouseClick 720 450; KeyboardPress "Meta+A";
                       KeyboardPress "Backspace"; KeyboardPress "Enter"] []).
Proof.
  assert (Hx : res_bind (dict_getitem empty_text_args "x") PyVal.int = Ok 500)
    by reflexivity.
  assert (Hy : res_bind (dict_getitem empty_text_args "y") PyVal.int = Ok 500)
    by reflexivity.
  assert (Hax : denormalize_x 500 1440 = Ok 720) by reflexivity.
  assert (Hay : denormalize_y 500 900 = Ok 450) by reflexivity.
  assert (Htext : empty_text_args !! "text" = Some (VStr "")) by reflexivity.
  destruct (type_text_at_empty_text (steady_env []) empty_text_args
              1440 900 500 500 720 450 (w0 [])
              Hx Hax Hy Hay Htext) as (_ & _ & Hall).
  rewrite Hall; [reflexivity|].
  intros tr ev _. reflexivity.
Defined.

(** ** The response builder *)

Section Responses.

Variable E : environment.

Lemma function_response_url (shot : list Byte.byte) (url : string)
      (entry : result_entry) :
  executed_entry entry ->
  fr_response (function_response shot url entry) !! "url" = Some (VStr url).
Proof.
  destruct entry as [[name result] extra]. intros [Hr He].
  unfold entry_result, entry_extra in Hr, He. simpl in Hr, He.
  unfold function_response, dict_update. simpl.
  destruct (dict_truthy result), (dict_truthy extra);
    repeat (rewrite lookup_union_r by assumption);
    apply lookup_singleton_eq.
Qed.

Lemma function_response_name (shot : list Byte.byte) (url : string)
      (entry : result_entry) :
  fr_name (function_response shot url entry) = entry_name entry.
Proof. now destruct entry as [[name result] extra]. Qed.

Lemma function_response_parts (shot : list Byte.byte) (url : string)
      (entry : result_entry) :
  fr_parts (function_response shot url entry)
  = [ {| frp_inline_data := {| blob_mime_type := "image/png";
                               blob_data := shot |} |} ].
Proof. now destruct entry as [[name result] extra]. Qed.

(** The acknowledgement of a refused call reaches its response bundle. *)
Lemma function_response_rejection (shot : list Byte.byte) (url fname : string) :
  let fr := function_response shot url (rejection_entry fname) in
  fr_name fr = fname /\
  fr_response fr !! "safety_acknowledgement" = Some (VStr "false") /\
  fr_response fr !! "terminated_by_user" = Some (VBool true).
Proof. repeat split; reflexivity. Qed.

Lemma get_function_responses_ok (results : list result_entry) (w : world) :
  browser_raises E (trace w) (Screenshot "png") = None ->
  get_function_responses E results w
  = Returns (map (function_response
                    (page_screenshot E (trace w ++ [Screenshot "png"]))
                    (page_url E (trace w ++ [Screenshot "png"])))
                 results)
            (record (Screenshot "png") w).
Proof.
  intros Hok.
  unfold get_function_responses, screenshot, current_page_url, bind, browser_call.
  rewrite Hok. reflexivity.
Qed.

(** C7.  For the entries of an executed batch (whose dictionaries, as the
    dispatcher builds them, have no [url] key), and a capture that
    succeeds, the builder takes one screenshot and returns one bundle per
    entry, in the order of the entries and under their names, each with the
    page address read after the capture and each with the bytes of that one
    screenshot. *)
Theorem responses_share_snapshot (results : list result_entry) (w : world) :
  Forall executed_entry results ->
  browser_raises E (trace w) (Screenshot "png") = None ->
  let w' := record (Screenshot "png") w in
  let shot := page_screenshot E (trace w') in
  let url := page_url E (trace w') in
  exists frs : list FunctionResponse,
    get_function_responses E results w = Returns frs w' /\
    length frs = length results /\
    map fr_name frs = map entry_name results /\
    Forall (fun fr =>
              fr_response fr !! "url" = Some (VStr url) /\
              fr_parts fr
              = [ {| frp_inline_data := {| blob_mime_type := "image/png";
                                           blob_data := shot |} |} ]) frs.
Proof.
  intros Hex Hok w' shot url.
  exists (map (function_response shot url) results).
  split; [now apply get_function_responses_ok|].
  split; [now rewrite length_map|].
  split.
  - rewrite map_map. apply map_ext. intros entry.
    apply function_response_name.
  - apply Forall_map. eapply Forall_impl; [exact Hex|].
    intros entry Hentry. simpl. split.
    + now apply function_response_url.
    + apply function_response_parts.
Qed.

(** The entries the dispatcher builds are executed entries. *)
Lemma run_function_calls_executed (sw sh : Z) (fcs : list FunctionCall) :
  forall (acc results : list result_entry) (terminated : bool) (w w' : world),
    Forall executed_entry acc ->
    run_function_calls E fcs acc sw sh w = Returns (results, terminated) w' ->
    Forall executed_entry results.
Proof.
  induction fcs as [|fc rest IH]; intros acc results terminated w w' Hacc Hrun.
  - simpl in Hrun. inversion Hrun; subst. exact Hacc.
  - rewrite run_function_calls_cons in Hrun.
    pose proof (safety_check_cases (call_args fc) w) as Hs.
    destruct (safety_check (call_args fc) w) as [[[] extra] w1|e w1];
      [| |discriminate].
    + inversion Hrun; subst.
      destruct Hs as [[_ ->]|[Hf _]]; [|discriminate].
      apply Forall_app. split; [exact Hacc|].
      constructor; [|constructor]. split; reflexivity.
    + destruct (execute_action_returns E (fc_name fc) (call_args fc) sw sh w1)
        as (action_result & w2 & Ha & _ & Hres).
      rewrite Ha in Hrun.
      eapply IH; [|exact Hrun].
      apply Forall_app. split; [exact Hacc|].
      constructor; [|constructor].
      destruct Hs as [[Hf _]|[_ Hextra]]; [discriminate|].
      split; unfold entry_result, entry_extra; simpl.
      * destruct Hres as [->|[e ->]]; reflexivity.
      * destruct Hextra as [->| ->]; reflexivity.
Qed.

End Responses.

Lemma responses_share_snapshot_witness :
  exists frs : list FunctionResponse,
    get_function_responses (steady_env [])
      [("click_at", ∅, ∅); rejection_entry "navigate"] (w0 [])
    = Returns frs (World [Screenshot "png"] []) /\
    length frs = 2%nat /\
    map fr_name frs = ["click_at"; "navigate"]%string /\
    Forall (fun fr =>
              fr_response fr !! "url" = Some (VStr "https://www.google.com/") /\
              fr_parts fr
              = [ {| frp_inline_data := {| blob_mime_type := "image/png";
                                           blob_data := png_bytes |} |} ]) frs.
Proof.
  apply (responses_share_snapshot (steady_env [])
           [("click_at", ∅, ∅); rejection_entry "navigate"] (w0 [])).
  - repeat constructor.
  - reflexivity.
Defined.

(** ** What a computation adds to the trace *)

Section Emits.

Context {A B : Type} (P : event -> Prop).

Lemma emits_ret (a : A) : emits P (ret a).
Proof. intros w. exists []. simpl. now rewrite app_nil_r. Qed.

Lemma emits_raise (e : exn) : emits P (@raise A e).
Proof. intros w. exists []. simpl. now rewrite app_nil_r. Qed.

Lemma emits_lift (r : res A) : emits P (lift r).
Proof. destruct r; [apply emits_ret|apply emits_raise]. Qed.

Lemma emits_bind (m : M A) (k : A -> M B) :
  emits P m -> (forall a, emits P (k a)) -> emits P (bind m k).
Proof.
  intros Hm Hk w. unfold bind.
  destruct (Hm w) as (ev1 & H1 & HP1).
  destruct (m w) as [a w1|e w1]; simpl in H1.
  - destruct (Hk a w1) as (ev2 & H2 & HP2).
    exists (ev1 ++ ev2). rewrite H2, H1, <- app_assoc.
    split; [reflexivity|]. apply Forall_app. now split.
  - exists ev1. now split.
Qed.

Lemma emits_try_except (m : M A) (handler : exn -> M A) :
  emits P m -> (forall e, emits P (handler e)) -> emits P (try_except m handler).
Proof.
  intros Hm Hh w. unfold try_except.
  destruct (Hm w) as (ev1 & H1 & HP1).
  destruct (m w) as [a w1|e w1]; simpl in H1.
  - exists ev1. now split.
  - destruct (Hh e w1) as (ev2 & H2 & HP2).
    exists (ev1 ++ ev2). rewrite H2, H1, <- app_assoc.
    split; [reflexivity|]. apply Forall_app. now split.
Qed.

End Emits.

Lemma emits_weaken {A : Type} (P Q : event -> Prop) (m : M A) :
  (forall e, P e -> Q e) -> emits P m -> emits Q m.
Proof.
  intros HPQ Hm w. destruct (Hm w) as (events & H & HP).
  exists events. split; [exact H|].
  eapply Forall_impl; [exact HP|exact HPQ].
Qed.

Lemma model_invocations_app (tr1 tr2 : list event) :
  model_invocations (tr1 ++ tr2)
  = (model_invocations tr1 + model_invocations tr2)%nat.
Proof. unfold model_invocations. now rewrite List.filter_app, length_app. Qed.

Lemma model_invocations_none (events : list event) :
  Forall not_generate events -> model_invocations events = O.
Proof.
  unfold model_invocations.
  induction 1 as [|e events He _ IH]; simpl; [reflexivity|].
  unfold not_generate in He. now rewrite He.
Qed.

Lemma emits_no_invocation {A : Type} (m : M A) (w : world) :
  emits not_generate m ->
  model_invocations (trace (world_of (m w))) = model_invocations (trace w).
Proof.
  intros Hm. destruct (Hm w) as (events & -> & HP).
  rewrite model_invocations_app, (model_invocations_none events HP). lia.
Qed.

Ltac emits_step :=
  match goal with
  | |- emits _ (bind _ _) => apply emits_bind; [|intros ?]
  | |- emits _ (try_except _ _) => apply emits_try_except; [|intros ?]
  | |- emits _ (ret _) => apply emits_ret
  | |- emits _ (raise _) => apply emits_raise
  | |- emits _ (lift _) => apply emits_lift
  | |- emits _ (if ?b then _ else _) => destruct b
  | |- emits _ (match ?x with _ => _ end) => destruct x
  end.

Section BatchEmits.

Variable E : environment.

(** The events of a batch: anything but a model invocation. *)
Lemma emits_browser_call (e : event) :
  not_generate e -> emits not_generate (browser_call E e).
Proof.
  intros He w. exists [e]. unfold browser_call.
  destruct (browser_raises E (trace w) e); simpl; split; auto.
Qed.

Lemma emits_sleep (ms : Z) : emits not_generate (sleep ms).
Proof. intros w. exists [Sleep ms]. simpl. split; auto. now constructor. Qed.

Lemma emits_settle : emits not_generate (settle E).
Proof.
  unfold settle. repeat emits_step;
    first [apply emits_browser_call; reflexivity | apply emits_sleep].
Qed.

Lemma emits_perform (fname : string) (args : dict) (sw sh : Z) :
  emits not_generate (perform E fname args sw sh).
Proof.
  unfold perform. cbv zeta.
  repeat first [apply emits_browser_call; reflexivity | emits_step].
Qed.

Lemma emits_execute_action (fname : string) (args : dict) (sw sh : Z) :
  emits not_generate (execute_action E fname args sw sh).
Proof.
  unfold execute_action.
  repeat first [apply emits_perform | apply emits_settle | emits_step].
Qed.

Lemma emits_get_safety_confirmation (sd : dict) :
  emits not_generate (get_safety_confirmation sd).
Proof.
  intros w. destruct (get_safety_confirmation_trace sd w) as [k Hk].
  exists (repeat (Input PROMPT) (S k)). split; [exact Hk|].
  apply List.Forall_forall. intros e He.
  apply repeat_spec in He. now subst.
Qed.

Lemma emits_safety_check (args : dict) : emits not_generate (safety_check args).
Proof.
  unfold safety_check.
  repeat first [apply emits_get_safety_confirmation | emits_step].
Qed.

Lemma emits_run_function_calls (sw sh : Z) (fcs : list FunctionCall) :
  forall acc, emits not_generate (run_function_calls E fcs acc sw sh).
Proof.
  induction fcs as [|fc rest IH]; intros acc; simpl.
  - apply emits_ret.
  - repeat first [apply emits_safety_check | apply emits_execute_action
                  | apply IH | emits_step].
Qed.

Lemma emits_get_function_responses (results : list result_entry) :
  emits not_generate (get_function_responses E results).
Proof.
  unfold get_function_responses, screenshot.
  repeat first [apply emits_browser_call; reflexivity | emits_step].
  - intros w. exists []. simpl. now rewrite app_nil_r.
  - intros w. exists []. simpl. now rewrite app_nil_r.
Qed.

End BatchEmits.

(** ** The turn loop *)

Section Loop.

Variable E : environment.

Lemma agent_turn_unfold (contents : list Content) :
  agent_turn E contents
  = bind (generate_content E contents) (after_reply E contents).
Proof. reflexivity. Qed.

Lemma emits_after_reply (contents : list Content) (candidates : list Candidate) :
  emits not_generate (after_reply E contents candidates).
Proof.
  unfold after_reply, execute_function_calls. cbv zeta.
  repeat first [apply emits_run_function_calls
                | apply emits_get_function_responses | emits_step].
Qed.

(** A reply with function calls: the batch, then the responses. *)
Lemma after_reply_calls (contents : list Content) (candidate : Candidate)
      (others : list Candidate) (w : world) :
  existsb has_function_call (content_parts (candidate_content candidate)) = true ->
  after_reply E contents (candidate :: others) w =
  match execute_function_calls E candidate SCREEN_WIDTH SCREEN_HEIGHT w with
  | Returns (results, terminated) w1 =>
      match get_function_responses E results w1 with
      | Returns function_responses w2 =>
          Returns (if terminated then Some Terminated else None,
                   (contents ++ [candidate_content candidate]) ++
                     [ {| content_role := "user";
                          content_parts := map response_part function_responses |} ])
                  w2
      | Raises e w2 => Raises e w2
      end
  | Raises e w1 => Raises e w1
  end.
Proof.
  intros Hcalls. unfold after_reply, bind, lift. simpl. rewrite Hcalls. simpl.
  destruct (execute_function_calls E candidate SCREEN_WIDTH SCREEN_HEIGHT w)
    as [[results terminated] w1|e w1]; [|reflexivity].
  destruct (get_function_responses E results w1) as [frs w2|e w2];
    [|reflexivity].
  now destruct terminated.
Qed.

(** The world right after the model call of a turn. *)
Lemma generate_content_world (contents : list Content) (w : world) :
  world_of (generate_content E contents w)
  = record (GenerateContent MODEL contents) w.
Proof.
  unfold generate_content.
  now destruct (model_reply E (trace w) contents).
Qed.

(** A turn starts with the model call on the history it was given. *)
Lemma agent_turn_trace (contents : list Content) (w : world) :
  exists later : list event,
    trace (world_of (agent_turn E contents w))
    = trace w ++ GenerateContent MODEL contents :: later /\
    Forall not_generate later.
Proof.
  rewrite agent_turn_unfold. unfold bind.
  pose proof (generate_content_world contents w) as Hw.
  destruct (generate_content E contents w) as [candidates w1|e w1];
    simpl in Hw; subst w1.
  - destruct (emits_after_reply contents candidates
                (record (GenerateContent MODEL contents) w))
      as (later & Hl & HP).
    exists later. rewrite Hl. simpl. rewrite <- app_assoc. now split.
  - exists []. simpl. now split.
Qed.

(** Every turn invokes the model once. *)
Lemma agent_turn_invocations (contents : list Content) (w : world) :
  model_invocations (trace (world_of (agent_turn E contents w)))
  = S (model_invocations (trace w)).
Proof.
  destruct (agent_turn_trace contents w) as (later & -> & HP).
  rewrite model_invocations_app.
  change (GenerateContent MODEL contents :: later)
    with ([GenerateContent MODEL contents] ++ later).
  rewrite model_invocations_app, (model_invocations_none later HP).
  change (model_invocations [GenerateContent MODEL contents]) with 1%nat.
  lia.
Qed.

Lemma agent_turns_S (remaining : nat) (contents : list Content) (w : world) :
  agent_turns E (S remaining) contents w =
  match agent_turn E contents w with
  | Returns (Some exit, contents') w' => Returns (exit, contents') w'
  | Returns (None, contents') w' => agent_turns E remaining contents' w'
  | Raises e w' => Raises e w'
  end.
Proof.
  simpl. unfold bind.
  destruct (agent_turn E contents w) as [[[exit|] contents'] w'|e w'];
    reflexivity.
Qed.

(** The model is invoked at most once per iteration of the loop. *)
Lemma agent_turns_invocations (remaining : nat) :
  forall (contents : list Content) (w : world),
    (model_invocations (trace (world_of (agent_turns E remaining contents w)))
     <= model_invocations (trace w) + remaining)%nat.
Proof.
  induction remaining as [|remaining IH]; intros contents w.
  - simpl. lia.
  - rewrite agent_turns_S.
    pose proof (agent_turn_invocations contents w) as Ht.
    destruct (agent_turn E contents w) as [[[exit|] contents'] w'|e w'];
      simpl in *; try lia.
    specialize (IH contents' w'). lia.
Qed.

Lemma turns_continue_agent_turns (k : nat) (contents : list Content) (w : world)
      (contents' : list Content) (w' : world) :
  turns_continue E k contents w contents' w' ->
  forall remaining,
    agent_turns E (k + remaining) contents w = agent_turns E remaining contents' w'.
Proof.
  induction 1 as [|k c w c1 w1 c2 w2 Hturn _ IH]; intros remaining.
  - reflexivity.
  - simpl Nat.add. rewrite agent_turns_S, Hturn. apply IH.
Qed.

Lemma turns_continue_invocations (k : nat) (contents : list Content) (w : world)
      (contents' : list Content) (w' : world) :
  turns_continue E k contents w contents' w' ->
  model_invocations (trace w') = (model_invocations (trace w) + k)%nat.
Proof.
  induction 1 as [|k c w c1 w1 c2 w2 Hturn _ IH].
  - lia.
  - pose proof (agent_turn_invocations c w) as Ht.
    rewrite Hturn in Ht. simpl in Ht. lia.
Qed.

(** C3.  When ten turns have gone by, none of them a final answer or a
    termination, the loop is left at the turn limit, in the very world the
    tenth turn ended in: the model has been invoked ten times and is not
    invoked again.  Whatever the turns do, a session never invokes the
    model more than ten times. *)
Theorem turn_limit_ends_session (contents : list Content) (w : world)
        (contents' : list Content) (w' : world) :
  turns_continue E turn_limit contents w contents' w' ->
  agent_loop E contents w = Returns (TurnLimit, contents') w' /\
  model_invocations (trace w') = (model_invocations (trace w) + 10)%nat /\
  (forall contents1 w1,
      (model_invocations (trace (world_of (agent_loop E contents1 w1)))
       <= model_invocations (trace w1) + 10)%nat).
Proof.
  intros Hturns. split; [|split].
  - unfold agent_loop.
    pose proof (turns_continue_agent_turns _ _ _ _ _ Hturns O) as H.
    rewrite Nat.add_0_r in H. rewrite H. reflexivity.
  - apply (turns_continue_invocations _ _ _ _ _ Hturns).
  - intros contents1 w1. apply agent_turns_invocations.
Qed.

(** C4.  A goal session starts from a history of exactly one entry, the
    user message with the text of the goal, and the first thing the session
    does is to invoke the model on that history. *)
Theorem session_starts_with_goal (user_goal : string) (w : world) :
  initial_contents user_goal
  = [ {| content_role := "user";
         content_parts := [ {| part_text := Some user_goal;
                               part_function_call := None;
                               part_function_response := None |} ] |} ] /\
  length (initial_contents user_goal) = 1%nat /\
  exists later : list event,
    trace (world_of (run_agent_loop E user_goal w))
    = trace w ++ GenerateContent MODEL (initial_contents user_goal) :: later.
Proof.
  split; [reflexivity|]. split; [reflexivity|].
  unfold run_agent_loop, agent_loop, turn_limit.
  rewrite agent_turns_S.
  destruct (agent_turn_trace (initial_contents user_goal) w) as (later & Hl & _).
  destruct (agent_turn E (initial_contents user_goal) w)
    as [[[exit|] contents'] w'|e w']; simpl in Hl;
    [exists later; exact Hl| |exists later; exact Hl].
  assert (Hgrow : emits (fun _ => True) (agent_turns E 9 contents')).
  { clear. generalize contents'. generalize 9%nat.
    induction n as [|n IH]; intros c; simpl; [apply emits_ret|].
    apply emits_bind.
    - intros w. destruct (agent_turn_trace c w) as (later & Hl & _).
      eexists. split; [exact Hl|]. apply List.Forall_forall. auto.
    - intros [[exit|] c1]; [apply emits_ret|apply IH]. }
  destruct (Hgrow w') as (more & Hm & _).
  exists (later ++ more). rewrite Hm, Hl, <- app_assoc. reflexivity.
Qed.

End Loop.

(** ** A refused call *)

Section Rejection.

Variable E : environment.

Lemma no_function_call_parts (parts : list Part) :
  existsb has_function_call parts = false ->
  omap part_function_call parts = [].
Proof.
  induction parts as [|p parts IH]; simpl; [reflexivity|].
  unfold has_function_call at 1.
  destruct (part_function_call p); simpl; [discriminate|exact IH].
Qed.

Lemma has_function_calls (candidate : Candidate) (before after : list FunctionCall)
      (fc : FunctionCall) :
  function_calls_of candidate = before ++ fc :: after ->
  existsb has_function_call (content_parts (candidate_content candidate)) = true.
Proof.
  unfold function_calls_of. intros H.
  destruct (existsb has_function_call (content_parts (candidate_content candidate)))
    eqn:Hex; [reflexivity|].
  rewrite (no_function_call_parts _ Hex) in H.
  destruct before; discriminate.
Qed.

(** Calls that were all carried out leave the rest of the batch to run. *)
Lemma run_function_calls_app (sw sh : Z) (before rest : list FunctionCall) :
  forall (acc results : list result_entry) (w w1 : world),
    run_function_calls E before acc sw sh w = Returns (results, false) w1 ->
    run_function_calls E (before ++ rest) acc sw sh w
    = run_function_calls E rest results sw sh w1.
Proof.
  induction before as [|fc before IH]; intros acc results w w1 H.
  - simpl in H. inversion H; subst. reflexivity.
  - change ((fc :: before) ++ rest) with (fc :: (before ++ rest)).
    rewrite run_function_calls_cons in H |- *.
    destruct (safety_check (call_args fc) w) as [[[] extra] wa|e wa];
      [discriminate| |discriminate].
    destruct (execute_action E (fc_name fc) (call_args fc) sw sh wa)
      as [action_result wb|e wb]; [|discriminate].
    now apply IH.
Qed.

Lemma safety_check_refused (args sd : dict) (w1 w2 : world) :
  args !! "safety_decision" = Some (VDict sd) ->
  get_safety_confirmation sd w1 = Returns "TERMINATE"%string w2 ->
  safety_check args w1
  = Returns (true, {["safety_acknowledgement" := VStr "false"]}) w2.
Proof.
  intros Hsd Hc. unfold safety_check, bind. rewrite Hsd, Hc. reflexivity.
Qed.

(** The batch stops at the refused call. *)
Lemma run_function_calls_refused (sw sh : Z) (before after : list FunctionCall)
      (fc : FunctionCall) (sd : dict) (results : list result_entry)
      (w w1 w2 : world) :
  run_function_calls E before [] sw sh w = Returns (results, false) w1 ->
  call_args fc !! "safety_decision" = Some (VDict sd) ->
  get_safety_confirmation sd w1 = Returns "TERMINATE"%string w2 ->
  run_function_calls E (before ++ fc :: after) [] sw sh w
  = Returns (results ++ [rejection_entry (fc_name fc)], true) w2.
Proof.
  intros Hb Hsd Hc.
  rewrite (run_function_calls_app sw sh before (fc :: after) _ _ _ _ Hb).
  rewrite run_function_calls_cons, (safety_check_refused _ _ _ _ Hsd Hc).
  reflexivity.
Qed.

Lemma get_function_responses_raised (results : list result_entry) (w : world)
      (e : exn) :
  browser_raises E (trace w) (Screenshot "png") = Some e ->
  get_function_responses E results w = Raises e (record (Screenshot "png") w).
Proof.
  intros H. unfold get_function_responses, screenshot, bind, browser_call.
  now rewrite H.
Qed.

(** C2.  In a session that has gone through [k] turns, let the model ask
    for a batch whose calls before [fc] are all carried out, and let the
    operator refuse [fc] at the safety prompt.  Then the batch stops at
    [fc], with the rejection as its last result: from the prompt on nothing
    is done but the one screenshot of the response builder, so that neither
    [fc] nor any call after it is executed and the model is not called
    again; whatever the model has been sent by the end of the session, it
    had been sent before the operator was asked.  When the screenshot
    succeeds the loop is left by the [break] on [terminated], and the
    response of [fc], with acknowledgement ["false"], is the last of the
    responses appended to the history, which goes to no one; when the
    screenshot raises, the session ends with its exception. *)
Theorem rejection_ends_session (k : nat) (contents_start : list Content)
        (w_start : world) (contents : list Content) (w : world)
        (candidate : Candidate) (others : list Candidate)
        (before after : list FunctionCall) (fc : FunctionCall) (sd : dict)
        (results : list result_entry) (w1 w2 : world) :
  turns_continue E k contents_start w_start contents w ->
  (k < turn_limit)%nat ->
  model_reply E (trace w) contents = Ok (candidate :: others) ->
  function_calls_of candidate = before ++ fc :: after ->
  run_function_calls E before [] SCREEN_WIDTH SCREEN_HEIGHT
                     (record (GenerateContent MODEL contents) w)
  = Returns (results, false) w1 ->
  call_args fc !! "safety_decision" = Some (VDict sd) ->
  get_safety_confirmation sd w1 = Returns "TERMINATE"%string w2 ->
  let w3 := record (Screenshot "png") w2 in
  let response :=
    function_response (page_screenshot E (trace w3)) (page_url E (trace w3)) in
  let session := agent_loop E contents_start w_start in
  execute_function_calls E candidate SCREEN_WIDTH SCREEN_HEIGHT
                         (record (GenerateContent MODEL contents) w)
  = Returns (results ++ [rejection_entry (fc_name fc)], true) w2 /\
  (exists prompts : nat,
      trace (world_of session)
      = trace w1 ++ repeat (Input PROMPT) (S prompts) ++ [Screenshot "png"]) /\
  (forall fr : FunctionResponse,
      reported_to_model (trace (world_of session)) fr ->
      reported_to_model (trace w1) fr) /\
  (browser_raises E (trace w2) (Screenshot "png") = None ->
   session
   = Returns (Terminated,
              contents ++
                [candidate_content candidate;
                 {| content_role := "user";
                    content_parts :=
                      map response_part
                          (map response (results ++ [rejection_entry (fc_name fc)])) |}])
             w3 /\
   last (map response (results ++ [rejection_entry (fc_name fc)]))
   = Some (response (rejection_entry (fc_name fc))) /\
   fr_name (response (rejection_entry (fc_name fc))) = fc_name fc /\
   fr_response (response (rejection_entry (fc_name fc))) !! "safety_acknowledgement"
   = Some (VStr "false")) /\
  (forall e : exn,
      browser_raises E (trace w2) (Screenshot "png") = Some e ->
      session = Raises e w3).
Proof.
  intros Hturns Hk Hreply Hcalls Hbefore Hsd Hconfirm w3 response session.
  assert (Hbatch : execute_function_calls E candidate SCREEN_WIDTH SCREEN_HEIGHT
                     (record (GenerateContent MODEL contents) w)
                   = Returns (results ++ [rejection_entry (fc_name fc)], true) w2).
  { unfold execute_function_calls. rewrite Hcalls.
    exact (run_function_calls_refused _ _ _ _ _ _ _ _ _ _ Hbefore Hsd Hconfirm). }
  assert (Hturn : agent_turn E contents w
                  = match get_function_responses
                            E (results ++ [rejection_entry (fc_name fc)]) w2 with
                    | Returns function_responses w' =>
                        Returns (Some Terminated,
                                 (contents ++ [candidate_content candidate]) ++
                                   [ {| content_role := "user";
                                        content_parts :=
                                          map response_part function_responses |} ])
                                w'
                    | Raises e w' => Raises e w'
                    end).
  { rewrite agent_turn_unfold. unfold bind at 1, generate_content.
    rewrite Hreply.
    rewrite (after_reply_calls E contents candidate others _
               (has_function_calls candidate before after fc Hcalls)).
    now rewrite Hbatch. }
  assert (Hloop : session
                  = match agent_turn E contents w with
                    | Returns (Some exit, c) w' => Returns (exit, c) w'
                    | Returns (None, c) w' => agent_turns E (turn_limit - S k) c w'
                    | Raises e w' => Raises e w'
                    end).
  { unfold session, agent_loop.
    assert (Hsplit : turn_limit = (k + S (turn_limit - S k))%nat) by lia.
    rewrite Hsplit at 1.
    rewrite (turns_continue_agent_turns E _ _ _ _ _ Hturns).
    apply agent_turns_S. }
  assert (Hworld : world_of session = w3).
  { rewrite Hloop, Hturn.
    destruct (browser_raises E (trace w2) (Screenshot "png")) as [e|] eqn:Hshot.
    - now rewrite (get_function_responses_raised _ _ _ Hshot).
    - now rewrite (get_function_responses_ok E _ _ Hshot). }
  assert (Htrace : exists prompts : nat,
             trace w3
             = trace w1 ++ repeat (Input PROMPT) (S prompts) ++ [Screenshot "png"]).
  { destruct (get_safety_confirmation_trace sd w1) as [prompts Hp].
    rewrite Hconfirm in Hp. simpl in Hp.
    exists prompts. unfold w3, record. simpl trace.
    rewrite Hp, <- app_assoc. reflexivity. }
  split; [exact Hbatch|]. split; [rewrite Hworld; exact Htrace|].
  split; [|split].
  - rewrite Hworld. destruct Htrace as [prompts Ht]. rewrite Ht.
    intros fr (model & cs & c & Hin & Hc & Hp).
    exists model, cs, c. split; [|split; assumption].
    apply in_app_or in Hin as [Hin|Hin]; [exact Hin|].
    apply in_app_or in Hin as [Hin|Hin].
    + apply repeat_spec in Hin. discriminate.
    + destruct Hin as [Hin|[]]. discriminate.
  - intros Hshot. split; [|split; [|split]].
    + rewrite Hloop, Hturn, (get_function_responses_ok E _ _ Hshot).
      rewrite <- app_assoc. reflexivity.
    + rewrite map_app. simpl. apply last_snoc.
    + reflexivity.
    + reflexivity.
  - intros e Hshot.
    now rewrite Hloop, Hturn, (get_function_responses_raised _ _ _ Hshot).
Qed.

End Rejection.

(** ** A failed action and the loop *)

Section FailedAction.

Variable E : environment.

Lemma function_response_error (shot : list Byte.byte) (url name msg : string)
      (extra : dict) :
  extra !! "error" = None ->
  fr_response (function_response shot url (name, {["error" := VStr msg]}, extra))
    !! "error"
  = Some (VStr msg).
Proof.
  intros Hextra. unfold function_response. cbn [fr_response].
  assert (Ht : dict_truthy ({["error" := VStr msg]} : dict) = true).
  { unfold dict_truthy. now rewrite map_to_list_singleton. }
  rewrite Ht. unfold dict_update.
  assert (Hin : (({["error" := VStr msg]} : dict) ∪ {["url" := VStr url]}) !! "error"
                = Some (VStr msg)).
  { apply lookup_union_Some_l, lookup_singleton_eq. }
  destruct (dict_truthy extra); [|exact Hin].
  now rewrite lookup_union_r.
Qed.

(** C9.  Let the model ask for a batch whose calls before [fc] are all
    carried out, let [fc] pass the safety gate, and let its action raise,
    while its arguments are validated or at one of its input events.  The
    exception is caught: the result of [fc] is the error carrying the text
    of the exception, and the batch goes on with the calls that remain, from
    the world in which the exception was raised; no exception of an action
    leaves the batch (end of input at the safety prompt is the only one that
    can).  When the rest of the batch returns, the result of [fc] is in its
    place among the results and its response carries the error.  Then the
    loop goes on with the next turn, from a history that ends with the
    responses, when the batch was not terminated and the screenshot of the
    response builder succeeds; when that screenshot raises, its exception is
    not caught: it ends the turn and the loop. *)
Theorem failed_action_is_reported (contents : list Content) (w : world)
        (candidate : Candidate) (others : list Candidate)
        (before after : list FunctionCall) (fc : FunctionCall)
        (results0 : list result_entry) (extra : dict) (e : exn)
        (wa w1 w2 : world) :
  model_reply E (trace w) contents = Ok (candidate :: others) ->
  function_calls_of candidate = before ++ fc :: after ->
  run_function_calls E before [] SCREEN_WIDTH SCREEN_HEIGHT
                     (record (GenerateContent MODEL contents) w)
  = Returns (results0, false) wa ->
  safety_check (call_args fc) wa = Returns (false, extra) w1 ->
  perform E (fc_name fc) (call_args fc) SCREEN_WIDTH SCREEN_HEIGHT w1
  = Raises e w2 ->
  let failed : result_entry :=
    (fc_name fc, {["error" := VStr (exn_msg e)]}, extra) in
  let batch :=
    execute_function_calls E candidate SCREEN_WIDTH SCREEN_HEIGHT
                           (record (GenerateContent MODEL contents) w) in
  execute_action E (fc_name fc) (call_args fc) SCREEN_WIDTH SCREEN_HEIGHT w1
  = Returns {["error" := VStr (exn_msg e)]} w2 /\
  batch = run_function_calls E after (results0 ++ [failed])
                             SCREEN_WIDTH SCREEN_HEIGHT w2 /\
  (forall (e' : exn) (w' : world), batch = Raises e' w' -> e' = EOFError) /\
  (forall (results : list result_entry) (terminated : bool) (w3 : world),
      batch = Returns (results, terminated) w3 ->
      let w4 := record (Screenshot "png") w3 in
      let response :=
        function_response (page_screenshot E (trace w4)) (page_url E (trace w4)) in
      let contents' :=
        contents ++
          [candidate_content candidate;
           {| content_role := "user";
              content_parts := map response_part (map response results) |}] in
      results !! length results0 = Some failed /\
      map response results !! length results0 = Some (response failed) /\
      fr_name (response failed) = fc_name fc /\
      fr_response (response failed) !! "error" = Some (VStr (exn_msg e)) /\
      (browser_raises E (trace w3) (Screenshot "png") = None ->
       agent_turn E contents w
       = Returns (if terminated then Some Terminated else None, contents') w4 /\
       (terminated = false ->
        forall remaining : nat,
          agent_turns E (S remaining) contents w
          = agent_turns E remaining contents' w4)) /\
      (forall e' : exn,
          browser_raises E (trace w3) (Screenshot "png") = Some e' ->
          agent_turn E contents w = Raises e' w4 /\
          forall remaining : nat,
            agent_turns E (S remaining) contents w = Raises e' w4)).
Proof.
  intros Hreply Hcalls Hbefore Hgate Hraise failed batch.
  assert (Haction : execute_action E (fc_name fc) (call_args fc)
                      SCREEN_WIDTH SCREEN_HEIGHT w1
                    = Returns {["error" := VStr (exn_msg e)]} w2)
    by now apply execute_action_raised.
  assert (Hbatch : batch = run_function_calls E after (results0 ++ [failed])
                             SCREEN_WIDTH SCREEN_HEIGHT w2).
  { unfold batch, execute_function_calls. rewrite Hcalls.
    rewrite (run_function_calls_app E _ _ before (fc :: after) _ _ _ _ Hbefore).
    now rewrite run_function_calls_cons, Hgate, Haction. }
  assert (Hextra : extra !! "error" = None).
  { pose proof (safety_check_cases (call_args fc) wa) as Hc. rewrite Hgate in Hc.
    destruct Hc as [[Hstop _]|[_ [-> | ->]]];
      [discriminate|reflexivity|reflexivity]. }
  split; [exact Haction|]. split; [exact Hbatch|]. split.
  { intros e' w' Hr.
    pose proof (run_function_calls_shape E SCREEN_WIDTH SCREEN_HEIGHT
                  (function_calls_of candidate) []
                  (record (GenerateContent MODEL contents) w)) as H.
    unfold batch, execute_function_calls in Hr. rewrite Hr in H. apply H. }
  intros results terminated w3 Hrest w4 response contents'.
  assert (Hturn : agent_turn E contents w
                  = match get_function_responses E results w3 with
                    | Returns function_responses w' =>
                        Returns (if terminated then Some Terminated else None,
                                 (contents ++ [candidate_content candidate]) ++
                                   [ {| content_role := "user";
                                        content_parts :=
                                          map response_part function_responses |} ])
                                w'
                    | Raises e' w' => Raises e' w'
                    end).
  { rewrite agent_turn_unfold. unfold bind at 1, generate_content.
    rewrite Hreply.
    rewrite (after_reply_calls E contents candidate others _
               (has_function_calls candidate before after fc Hcalls)).
    fold batch. now rewrite Hrest. }
  assert (Hplace : results !! length results0 = Some failed).
  { pose proof (run_function_calls_shape E SCREEN_WIDTH SCREEN_HEIGHT after
                  (results0 ++ [failed]) w2) as H.
    rewrite <- Hbatch, Hrest in H. destruct H as (new & -> & _).
    rewrite <- app_assoc. now apply list_lookup_middle. }
  split; [exact Hplace|]. split.
  { rewrite list_lookup_fmap, Hplace. reflexivity. }
  split; [reflexivity|]. split.
  { now apply function_response_error. }
  split.
  - intros Hshot.
    assert (Hreturned : agent_turn E contents w
                        = Returns (if terminated then Some Terminated else None,
                                   contents') w4).
    { rewrite Hturn, (get_function_responses_ok E _ _ Hshot).
      unfold contents'. now rewrite <- app_assoc. }
    split; [exact Hreturned|].
    intros -> remaining. now rewrite agent_turns_S, Hreturned.
  - intros e' Hshot.
    assert (Hraised : agent_turn E contents w = Raises e' w4)
      by now rewrite Hturn, (get_function_responses_raised E _ _ _ Hshot).
    split; [exact Hraised|].
    intros remaining. now rewrite agent_turns_S, Hraised.
Qed.

End FailedAction.


(** ** The theorems at sample sessions *)

(** With [open_browser_env] a turn never leaves the loop. *)
Lemma open_browser_turn (contents : list Content) (w : world) :
  exists (contents' : list Content) (w' : world),
    agent_turn open_browser_env contents w = Returns (None, contents') w' /\
    length contents' = S (S (length contents)).
Proof.
  do 2 eexists. split; [vm_compute; reflexivity|].
  rewrite !length_app. simpl. lia.
Qed.

Lemma open_browser_turns (k : nat) :
  forall (contents : list Content) (w : world),
  exists (contents' : list Content) (w' : world),
    turns_continue open_browser_env k contents w contents' w' /\
    length contents' = (length contents + 2 * k)%nat.
Proof.
  induction k as [|k IH]; intros contents w.
  - exists contents, w. split; [constructor|lia].
  - destruct (open_browser_turn contents w) as (c1 & w1 & Hturn & Hlen1).
    destruct (IH c1 w1) as (c2 & w2 & Hturns & Hlen2).
    exists c2, w2. split; [econstructor; eassumption|lia].
Qed.

Lemma turn_limit_ends_session_witness :
  exists (contents' : list Content) (w' : world),
    agent_loop open_browser_env (initial_contents "go") (w0 [])
    = Returns (TurnLimit, contents') w' /\
    model_invocations (trace w') = 10%nat /\
    length contents' = 21%nat.
Proof.
  destruct (open_browser_turns turn_limit (initial_contents "go") (w0 []))
    as (contents' & w' & Hturns & Hlen).
  exists contents', w'.
  destruct (turn_limit_ends_session open_browser_env _ _ _ _ Hturns)
    as (Hexit & Hcount & _).
  repeat split; assumption.
Defined.

Lemma rejection_ends_session_witness :
  exists (contents' : list Content),
    agent_loop pay_env (initial_contents "pay") (w0 ["maybe"; " No "])
    = Returns (Terminated, contents')
              (World ([GenerateContent MODEL (initial_contents "pay");
                       MouseClick 720 450] ++ SETTLE ++
                      [Input PROMPT; Input PROMPT; Screenshot "png"]) []).
Proof.
  edestruct (rejection_ends_session pay_env 0
               (initial_contents "pay") (w0 ["maybe"; " No "])
               (initial_contents "pay") (w0 ["maybe"; " No "])
               (model_turn [part_of_call click_call; part_of_call pay_call;
                            part_of_call open_call])
               [] [click_call] [open_call] pay_call
               {["explanation" := VStr "Submits a payment"]})
    as (_ & _ & _ & Hexit & _).
  - apply turns_continue_O.
  - unfold turn_limit. lia.
  - reflexivity.
  - reflexivity.
  - reflexivity.
  - reflexivity.
  - reflexivity.
  - destruct Hexit as [Hexit _]; [reflexivity|].
    eexists. exact Hexit.
Defined.

(** The rejection is appended to the history of the session and goes no
    further: the one call to the model in this session came before the
    prompt and carried the goal alone.  And when no screenshot can be taken
    after the refusal, the session ends with the exception of the
    screenshot. *)
Lemma rejection_is_not_reported :
  let fr := function_response png_bytes "https://www.google.com/"
                              (rejection_entry "navigate") in
  (exists (contents' : list Content) (w' : world) (content : Content),
      agent_loop pay_env (initial_contents "pay") (w0 ["n"])
      = Returns (Terminated, contents') w' /\
      last contents' = Some content /\
      last (content_parts content) = Some (response_part fr) /\
      fr_response fr !! "safety_acknowledgement" = Some (VStr "false") /\
      ~ reported_to_model (trace w') fr) /\
  agent_loop (no_screenshot_env pay_parts) (initial_contents "pay") (w0 ["n"])
  = Raises TARGET_CLOSED
           (World ([GenerateContent MODEL (initial_contents "pay");
                    MouseClick 720 450] ++ SETTLE ++
                   [Input PROMPT; Screenshot "png"]) []).
Proof.
  intros fr. split; [|reflexivity].
  do 3 eexists.
  split; [vm_compute; reflexivity|].
  split; [reflexivity|]. split; [reflexivity|]. split; [reflexivity|].
  intros (model & cs & c & Hin & Hc & Hp).
  cbn [trace] in Hin.
  repeat (destruct Hin as [Hin|Hin]; [try discriminate Hin|]);
    [|destruct Hin].
  injection Hin as _ <-.
  destruct Hc as [<-|[]].
  destruct Hp as [Hp|[]]. discriminate Hp.
Qed.

Lemma failed_action_is_reported_witness :
  exists (contents' : list Content),
    agent_turn (no_click_env click_and_open) (initial_contents "go") (w0 [])
    = Returns (None, contents')
              (World ([GenerateContent MODEL (initial_contents "go");
                       MouseClick 720 450] ++ SETTLE ++ [Screenshot "png"]) []).
Proof.
  edestruct (failed_action_is_reported (no_click_env click_and_open)
               (initial_contents "go") (w0 [])
               (model_turn click_and_open) [] [] [open_call] click_call
               [] ∅ (Exn "Error" "Target page has been closed"))
    as (_ & _ & _ & Hrest).
  - reflexivity.
  - reflexivity.
  - reflexivity.
  - reflexivity.
  - reflexivity.
  - assert (Hbatch :
      execute_function_calls (no_click_env click_and_open)
        (model_turn click_and_open) SCREEN_WIDTH SCREEN_HEIGHT
        (record (GenerateContent MODEL (initial_contents "go")) (w0 []))
      = Returns ([("click_at",
                   {["error" := VStr "Target page has been closed"]}, ∅);
                  ("open_web_browser", ∅, ∅)], false)
                (World ([GenerateContent MODEL (initial_contents "go");
                         MouseClick 720 450] ++ SETTLE) []))
      by reflexivity.
    destruct (Hrest _ _ _ Hbatch) as (_ & _ & _ & _ & Hgoes & _).
    destruct Hgoes as [Hturn _]; [reflexivity|].
    eexists. exact Hturn.
Defined.

(** A click on a page that has been closed fails into its result, and the
    screenshot that follows ends the session. *)
Lemma failed_action_can_end_session :
  execute_function_calls closed_page_env (model_turn [part_of_call click_call])
                         SCREEN_WIDTH SCREEN_HEIGHT
                         (World [GenerateContent MODEL (initial_contents "go")] [])
  = Returns ([("click_at", {["error" := VStr (exn_msg TARGET_CLOSED)]}, ∅)], false)
            (World [GenerateContent MODEL (initial_contents "go");
                    MouseClick 720 450] []) /\
  agent_loop closed_page_env (initial_contents "go") (w0 [])
  = Raises TARGET_CLOSED
           (World [GenerateContent MODEL (initial_contents "go");
                   MouseClick 720 450; Screenshot "png"] []).
Proof. split; reflexivity. Qed.

(** * Further properties *)

(** ** The [.env] file and the API key *)

Example ex_parse_line :
  parse_line " GENAI_API_KEY = 'other' " = Some ("GENAI_API_KEY", "other").
Proof. reflexivity. Qed.

Example ex_load :
  load_env_from_dotenv (Some sample_dotenv) sample_environ
  = <["GENAI_API_KEY" := "other"]> sample_environ.
Proof. reflexivity. Qed.

Lemma truthy_nonempty (s : string) : PyStr.truthy s = true <-> s <> "".
Proof. destruct s; simpl; split; congruence. Qed.

Lemma unset_or_empty_set (environ : environment_variables) (key v : string) :
  environ !! key = Some v -> PyStr.truthy v = true ->
  unset_or_empty environ key = false.
Proof. intros H Hv. unfold unset_or_empty. now rewrite H, Hv. Qed.

Lemma load_lines_keeps (lines : list string) :
  forall (environ : environment_variables) (key v : string),
    environ !! key = Some v -> PyStr.truthy v = true ->
    load_lines lines environ !! key = Some v.
Proof.
  induction lines as [|raw rest IH]; intros environ key v Hk Hv; simpl.
  - exact Hk.
  - destruct (parse_line raw) as [[key' value']|]; [|now apply IH].
    destruct (PyStr.truthy key' && unset_or_empty environ key')%bool eqn:Hfire;
      [|now apply IH].
    destruct (putenv_raises key' value'); [exact Hk|].
    apply IH; [|exact Hv].
    apply andb_prop in Hfire as [_ Hunset].
    rewrite lookup_insert_ne; [exact Hk|].
    intros ->. rewrite (unset_or_empty_set environ key v Hk Hv) in Hunset.
    discriminate.
Qed.

(** X1.  A variable that is set, and not empty, when the file is loaded keeps
    its value whatever the file holds. *)
Theorem dotenv_keeps_existing (file : option (list string))
        (environ : environment_variables) (key v : string) :
  environ !! key = Some v -> v <> "" ->
  load_env_from_dotenv file environ !! key = Some v.
Proof.
  intros Hk Hv. destruct file as [lines|]; simpl; [|exact Hk].
  apply load_lines_keeps; [exact Hk|]. now apply truthy_nonempty.
Qed.

Lemma dotenv_keeps_existing_witness :
  load_env_from_dotenv (Some sample_dotenv) sample_environ !! "GOOGLE_API_KEY"
  = Some "from-environment".
Proof.
  apply (dotenv_keeps_existing (Some sample_dotenv) sample_environ
           "GOOGLE_API_KEY" "from-environment").
  - reflexivity.
  - discriminate.
Defined.

Lemma load_lines_changes (lines : list string) :
  forall (environ : environment_variables) (key : string),
    load_lines lines environ !! key = environ !! key \/
    exists raw value,
      In raw lines /\ parse_line raw = Some (key, value) /\
      unset_or_empty environ key = true /\
      load_lines lines environ !! key = Some value.
Proof.
  induction lines as [|raw rest IH]; intros environ key; simpl.
  - now left.
  - destruct (parse_line raw) as [[key' value']|] eqn:Hparse.
    + destruct (PyStr.truthy key' && unset_or_empty environ key')%bool eqn:Hfire.
      * destruct (putenv_raises key' value'); [now left|].
        apply andb_prop in Hfire as [_ Hunset].
        destruct (IH (<[key' := value']> environ) key)
          as [Hsame|(raw' & value & Hin & Hp & Hu & Hres)].
        -- destruct (decide (key' = key)) as [->|Hne].
           ++ right. exists raw, value'. rewrite Hsame, lookup_insert_eq. auto.
           ++ left. now rewrite Hsame, lookup_insert_ne.
        -- right. exists raw', value. repeat split; auto.
           destruct (decide (key' = key)) as [->|Hne]; [exact Hunset|].
           unfold unset_or_empty in Hu |- *.
           now rewrite lookup_insert_ne in Hu.
      * destruct (IH environ key) as [Hsame|(raw' & value & Hin & Hp & Hu & Hres)];
          [now left|].
        right. exists raw', value. auto.
    + destruct (IH environ key) as [Hsame|(raw' & value & Hin & Hp & Hu & Hres)];
        [now left|].
      right. exists raw', value. auto.
Qed.

(** X2.  Loading never removes a variable and never invents one: after it, a
    variable is as it was, or it was unset or empty and now holds the value
    that a line of the file gives it. *)
Theorem dotenv_changes_come_from_file (file : option (list string))
        (environ : environment_variables) (key : string) :
  load_env_from_dotenv file environ !! key = environ !! key \/
  exists lines raw value,
    file = Some lines /\ In raw lines /\
    parse_line raw = Some (key, value) /\
    unset_or_empty environ key = true /\
    load_env_from_dotenv file environ !! key = Some value.
Proof.
  destruct file as [lines|]; simpl; [|now left].
  destruct (load_lines_changes lines environ key)
    as [Hsame|(raw & value & Hin & Hp & Hu & Hres)]; [now left|].
  right. exists lines, raw, value. auto.
Qed.

Lemma load_lines_first (before : list string) :
  forall (environ : environment_variables) (key value raw : string)
         (after : list string),
    Forall (harmless_before key) before ->
    parse_line raw = Some (key, value) ->
    key <> "" -> value <> "" ->
    putenv_raises key value = false ->
    unset_or_empty environ key = true ->
    load_lines (before ++ raw :: after) environ !! key = Some value.
Proof.
  induction before as [|l before IH];
    intros environ key value raw after Hbefore Hparse Hkey Hvalue Hput Hunset.
  - simpl. rewrite Hparse.
    assert (Hk : PyStr.truthy key = true) by now apply truthy_nonempty.
    rewrite Hk, Hunset, Hput. simpl.
    apply load_lines_keeps; [apply lookup_insert_eq|now apply truthy_nonempty].
  - inversion Hbefore as [|? ? Hl Hrest]; subst.
    change ((l :: before) ++ raw :: after) with (l :: (before ++ raw :: after)).
    cbn [load_lines].
    destruct (parse_line l) as [[key' value']|] eqn:Hpl;
      [|now apply (IH environ key value raw after)].
    destruct (Hl key' value' Hpl) as [Hne Hput'].
    destruct (PyStr.truthy key' && unset_or_empty environ key')%bool;
      [|now apply (IH environ key value raw after)].
    rewrite Hput'.
    apply (IH (<[key' := value']> environ) key value raw after); auto.
    unfold unset_or_empty in Hunset |- *.
    now rewrite lookup_insert_ne.
Qed.

(** X3.  A variable that is unset or empty gets the value of its first
    assignment in the file, when that value is not empty and no line before
    it stopped the loading; later assignments do not change it. *)
Theorem dotenv_first_assignment (before after : list string)
        (environ : environment_variables) (key value raw : string) :
  Forall (harmless_before key) before ->
  parse_line raw = Some (key, value) ->
  key <> "" -> value <> "" ->
  putenv_raises key value = false ->
  unset_or_empty environ key = true ->
  load_env_from_dotenv (Some (before ++ raw :: after)) environ !! key = Some value.
Proof.
  intros Hbefore Hparse Hkey Hvalue Hput Hunset. simpl.
  now apply load_lines_first.
Qed.

Lemma dotenv_first_assignment_witness :
  load_env_from_dotenv
    (Some (["# keys"; "OTHER=1"] ++ "KEY = 'first'" :: ["KEY=second"])) ∅ !! "KEY"
  = Some "first".
Proof.
  apply (dotenv_first_assignment ["# keys"; "OTHER=1"] ["KEY=second"] ∅
           "KEY" "first" "KEY = 'first'").
  - constructor; [|constructor; [|constructor]];
      intros key' value' H; vm_compute in H;
      inversion H; subst; split; [discriminate|reflexivity].
  - reflexivity.
  - discriminate.
  - discriminate.
  - reflexivity.
  - reflexivity.
Defined.

Lemma api_key_of_google (environ : environment_variables) (k : string) :
  environ !! "GOOGLE_API_KEY" = Some k -> PyStr.truthy k = true ->
  api_key_of environ = Some k.
Proof. intros H Hk. unfold api_key_of. now rewrite H, Hk. Qed.

(** X4.  A [GOOGLE_API_KEY] of the process environment is the key of the
    client: the file does not override it, and [GENAI_API_KEY] is not
    looked at. *)
Theorem startup_prefers_environment (file : option (list string))
        (environ : environment_variables) (k : string) :
  environ !! "GOOGLE_API_KEY" = Some k -> k <> "" ->
  main_startup file environ = ClientFor k.
Proof.
  intros H Hk. unfold main_startup.
  assert (Ht : PyStr.truthy k = true) by now apply truthy_nonempty.
  rewrite (api_key_of_google _ k); [now rewrite Ht| |exact Ht].
  destruct file as [lines|]; simpl; [|exact H].
  now apply load_lines_keeps.
Qed.

Lemma startup_prefers_environment_witness :
  main_startup (Some sample_dotenv) sample_environ = ClientFor "from-environment".
Proof.
  apply (startup_prefers_environment (Some sample_dotenv) sample_environ
           "from-environment").
  - reflexivity.
  - discriminate.
Defined.

Lemma unset_or_empty_api_key (environ : environment_variables) :
  unset_or_empty environ "GOOGLE_API_KEY" = true ->
  unset_or_empty environ "GENAI_API_KEY" = true ->
  match api_key_of environ with
  | Some k => PyStr.truthy k = false
  | None => True
  end.
Proof.
  unfold unset_or_empty, api_key_of. intros H1 H2.
  destruct (environ !! "GOOGLE_API_KEY") as [k1|];
    destruct (environ !! "GENAI_API_KEY") as [k2|];
    try destruct (PyStr.truthy k1); try destruct (PyStr.truthy k2) eqn:E2;
    simpl in *; try discriminate; auto.
Qed.

(** X5.  With neither key in the environment (unset or empty) and no line of
    the file that assigns one of them, [main] stops for the missing key. *)
Theorem startup_without_key (file : option (list string))
        (environ : environment_variables) :
  unset_or_empty environ "GOOGLE_API_KEY" = true ->
  unset_or_empty environ "GENAI_API_KEY" = true ->
  (forall lines raw value,
      file = Some lines -> In raw lines ->
      parse_line raw <> Some ("GOOGLE_API_KEY", value) /\
      parse_line raw <> Some ("GENAI_API_KEY", value)) ->
  main_startup file environ = MissingApiKey.
Proof.
  intros H1 H2 Hfile. unfold main_startup.
  set (environ' := load_env_from_dotenv file environ).
  assert (Hsame : forall key, key = "GOOGLE_API_KEY" \/ key = "GENAI_API_KEY" ->
                              environ' !! key = environ !! key).
  { intros key Hkey. unfold environ'.
    destruct file as [lines|]; simpl; [|reflexivity].
    destruct (load_lines_changes lines environ key)
      as [Hs|(raw & value & Hin & Hp & _)]; [exact Hs|].
    destruct (Hfile lines raw value eq_refl Hin) as [Hg Hn].
    destruct Hkey as [-> | ->]; contradiction. }
  assert (H1' : unset_or_empty environ' "GOOGLE_API_KEY" = true).
  { unfold unset_or_empty. rewrite Hsame by auto. exact H1. }
  assert (H2' : unset_or_empty environ' "GENAI_API_KEY" = true).
  { unfold unset_or_empty. rewrite Hsame by auto. exact H2. }
  pose proof (unset_or_empty_api_key environ' H1' H2') as Hkey.
  destruct (api_key_of environ') as [k|]; [now rewrite Hkey|reflexivity].
Qed.

Lemma startup_without_key_witness :
  main_startup (Some ["# nothing here"; "OTHER=1"]) {["GOOGLE_API_KEY" := ""]}
  = MissingApiKey.
Proof.
  apply (startup_without_key (Some ["# nothing here"; "OTHER=1"])
           {["GOOGLE_API_KEY" := ""]}).
  - reflexivity.
  - reflexivity.
  - intros lines raw value Hf Hin. inversion Hf; subst.
    destruct Hin as [<-|[<-|[]]]; split; discriminate.
Defined.

(** *** Lines of the form [NAME=value] *)

Lemma string_app_empty (s : string) : (s ++ "")%string = s.
Proof.
  induction s as [|a s IH]; [reflexivity|].
  change (String a (s ++ "")%string = String a s). now rewrite IH.
Qed.

Lemma string_app_assoc (s t u : string) :
  ((s ++ t) ++ u)%string = (s ++ (t ++ u))%string.
Proof.
  induction s as [|a s IH]; [reflexivity|].
  change (String a ((s ++ t) ++ u)%string = String a (s ++ (t ++ u))%string).
  now rewrite IH.
Qed.

Lemma last_char_app (s t : string) :
  t <> "" -> last_char (s ++ t)%string = last_char t.
Proof.
  intros Ht. induction s as [|a s IH]; [reflexivity|].
  simpl. rewrite IH.
  destruct (s ++ t)%string eqn:E; [|reflexivity].
  destruct s; simpl in E; [exfalso; apply Ht; exact E|discriminate].
Qed.

Lemma lstrip_first (s : string) (a : ascii) :
  first_char s = Some a -> PyStr.is_space a = false -> PyStr.lstrip s = s.
Proof. destruct s; simpl; intros H Ha; inversion H; subst. now rewrite Ha. Qed.

Lemma rstrip_last (s : string) :
  forall b, last_char s = Some b -> PyStr.is_space b = false -> PyStr.rstrip s = s.
Proof.
  induction s as [|a s IH]; intros b Hl Hb; [discriminate|].
  simpl in Hl |- *. destruct s as [|a' s'].
  - inversion Hl; subst. simpl. now rewrite Hb.
  - rewrite (IH b Hl Hb). reflexivity.
Qed.

Lemma rstrip_newline (s : string) (c : ascii) :
  PyStr.is_space c = true ->
  PyStr.rstrip (s ++ String c "")%string = PyStr.rstrip s.
Proof.
  intros Hc. induction s as [|a s IH]; simpl.
  - now rewrite Hc.
  - now rewrite IH.
Qed.

Lemma lstrip_char_first (c : ascii) (s : string) (a : ascii) :
  first_char s = Some a -> Ascii.eqb a c = false -> PyChars.lstrip_char c s = s.
Proof. destruct s; simpl; intros H Ha; inversion H; subst. now rewrite Ha. Qed.

Lemma rstrip_char_last (c : ascii) (s : string) :
  forall b, last_char s = Some b -> Ascii.eqb b c = false ->
            PyChars.rstrip_char c s = s.
Proof.
  induction s as [|a s IH]; intros b Hl Hb; [discriminate|].
  simpl in Hl |- *. destruct s as [|a' s'].
  - inversion Hl; subst. simpl. now rewrite Hb.
  - rewrite (IH b Hl Hb). reflexivity.
Qed.

Lemma rstrip_char_snoc (c : ascii) (s : string) :
  PyChars.rstrip_char c (s ++ String c "")%string = PyChars.rstrip_char c s.
Proof.
  induction s as [|a s IH]; simpl.
  - now rewrite Ascii.eqb_refl.
  - now rewrite IH.
Qed.

Lemma contains_app (c : ascii) (s t : string) :
  PyChars.contains c (s ++ String c t)%string = true.
Proof.
  induction s as [|a s IH]; simpl.
  - now rewrite Ascii.eqb_refl.
  - destruct (Ascii.eqb a c); [reflexivity|exact IH].
Qed.

Lemma split_first_app (c : ascii) (s t : string) :
  PyChars.contains c s = false ->
  PyChars.split_first c (s ++ String c t)%string = (s, t).
Proof.
  induction s as [|a s IH]; simpl; intros Hs.
  - now rewrite Ascii.eqb_refl.
  - destruct (Ascii.eqb a c); [discriminate|]. now rewrite IH.
Qed.

(** Stripping a bare text leaves it as it is. *)
Lemma strip_bare (s : string) :
  bare PyStr.is_space s -> PyStr.strip s = s.
Proof.
  intros [(a & Ha & Hna) (b & Hb & Hnb)]. unfold PyStr.strip.
  rewrite (lstrip_first s a Ha Hna). now apply (rstrip_last s b).
Qed.

Lemma strip_char_bare (c : ascii) (s : string) :
  bare (fun a => Ascii.eqb a c) s -> PyChars.strip_char c s = s.
Proof.
  intros [(a & Ha & Hna) (b & Hb & Hnb)]. unfold PyChars.strip_char.
  rewrite (lstrip_char_first c s a Ha Hna). now apply (rstrip_char_last c s b).
Qed.

(** Stripping the quote [c] from [c value c]. *)
Lemma strip_char_quoted (c : ascii) (value : string) :
  bare (fun a => Ascii.eqb a c) value ->
  PyChars.strip_char c (String c (value ++ String c ""))%string = value.
Proof.
  intros [(a & Ha & Hna) (b & Hb & Hnb)]. unfold PyChars.strip_char.
  cbn [PyChars.lstrip_char]. rewrite Ascii.eqb_refl.
  assert (Hf : first_char (value ++ String c "")%string = Some a)
    by (destruct value; simpl in *; congruence).
  rewrite (lstrip_char_first c _ a Hf Hna), rstrip_char_snoc.
  now apply (rstrip_char_last c value b).
Qed.

Lemma bare_weaken (bad bad' : ascii -> bool) (s : string) :
  (forall a, bad a = false -> bad' a = false) -> bare bad s -> bare bad' s.
Proof.
  intros H [(a & Ha & Hna) (b & Hb & Hnb)].
  split; [exists a|exists b]; auto.
Qed.

(** The text of a line [NAME=text], with or without an end of line, is read
    as the name and the text, stripped of blanks. *)
Lemma parse_line_name (key text eol : string) :
  plain_name key ->
  bare PyStr.is_space text ->
  eol = "" \/ (exists c, eol = String c "" /\ PyStr.is_space c = true) ->
  parse_line (key ++ String "=" text ++ eol)%string
  = Some (key,
          PyChars.strip_char "'" (PyChars.strip_char PyChars.dquote text)).
Proof.
  intros [Hkey Hnoeq] Htext Heol.
  assert (Hkey' : bare PyStr.is_space key).
  { apply (bare_weaken _ _ key) with (2 := Hkey).
    intros a Ha. now apply orb_false_elim in Ha as [Ha _]. }
  destruct Hkey as [(a & Ha & Hna) _].
  destruct Htext as [Htf (b & Hb & Hnb)].
  assert (Hline : PyStr.strip (key ++ String "=" text ++ eol)%string
                  = (key ++ String "=" text)%string).
  { unfold PyStr.strip.
    assert (Hf : first_char (key ++ String "=" text ++ eol)%string = Some a)
      by (destruct key; simpl in *; congruence).
    apply orb_false_elim in Hna as [Hsp _].
    rewrite (lstrip_first _ a Hf Hsp).
    assert (Hlast : last_char (key ++ String "=" text)%string = Some b).
    { rewrite last_char_app by discriminate.
      destruct text; [discriminate|exact Hb]. }
    destruct Heol as [->|(c & -> & Hc)].
    - rewrite string_app_empty. now apply (rstrip_last _ b).
    - replace (key ++ String "=" text ++ String c "")%string
        with ((key ++ String "=" text) ++ String c "")%string.
      + rewrite rstrip_newline by exact Hc. now apply (rstrip_last _ b).
      + rewrite string_app_assoc. reflexivity. }
  unfold parse_line. rewrite Hline.
  assert (Htruthy : PyStr.truthy (key ++ String "=" text)%string = true)
    by (destruct key; reflexivity).
  assert (Hcomment : PyStr.startswith (key ++ String "=" text)%string "#" = false).
  { destruct key as [|a' key']; simpl in Ha; [discriminate|].
    inversion Ha; subst a'.
    apply orb_false_elim in Hna as [_ Hh].
    apply Ascii.eqb_neq in Hh.
    unfold PyStr.startswith.
    change (String a key' ++ String "=" text)%string
      with (String a (key' ++ String "=" text)%string).
    cbn [String.prefix].
    destruct (ascii_dec "#" a) as [He|_]; [now elim Hh|reflexivity]. }
  rewrite Htruthy, Hcomment, contains_app, split_first_app by exact Hnoeq.
  simpl. rewrite (strip_bare key Hkey').
  rewrite (strip_bare text) by (split; [exact Htf|exists b; auto]).
  reflexivity.
Qed.

Lemma bare_quoted (c : ascii) (value : string) :
  PyStr.is_space c = false ->
  bare PyStr.is_space (String c (value ++ String c ""))%string.
Proof.
  intros Hc. split; exists c; split; auto.
  change (String c (value ++ String c ""))%string
    with (String c value ++ String c "")%string.
  now rewrite last_char_app.
Qed.

(** X6.  A line [NAME=value] of ASCII text, the value bare or between
    single or double quotes, with or without its end of line, is read as
    that name and that value. *)
Theorem dotenv_line_is_read (key value eol : string) :
  ascii_text key -> ascii_text value ->
  plain_name key -> plain_value value ->
  eol = "" \/ (exists c, eol = String c "" /\ PyStr.is_space c = true) ->
  parse_line (key ++ String "=" value ++ eol)%string = Some (key, value) /\
  parse_line (key ++ String "=" (String "'" (value ++ String "'" "")) ++ eol)%string
  = Some (key, value) /\
  parse_line (key ++ String "=" (String PyChars.dquote
                                         (value ++ String PyChars.dquote "")) ++ eol)%string
  = Some (key, value).
Proof.
  intros _ _ Hkey Hvalue Heol.
  assert (Hsp : bare PyStr.is_space value).
  { apply (bare_weaken _ _ value) with (2 := Hvalue).
    intros a Ha. now apply orb_false_elim in Ha as [Ha _]. }
  assert (Hq : bare (fun a => Ascii.eqb a "'") value).
  { apply (bare_weaken _ _ value) with (2 := Hvalue).
    intros a Ha. apply orb_false_elim in Ha as [_ Ha].
    unfold is_quote in Ha. now apply orb_false_elim in Ha as [Ha _]. }
  assert (Hdq : bare (fun a => Ascii.eqb a PyChars.dquote) value).
  { apply (bare_weaken _ _ value) with (2 := Hvalue).
    intros a Ha. apply orb_false_elim in Ha as [_ Ha].
    unfold is_quote in Ha. now apply orb_false_elim in Ha as [_ Ha]. }
  split; [|split].
  - rewrite (parse_line_name key value eol Hkey Hsp Heol).
    now rewrite (strip_char_bare _ value Hdq), (strip_char_bare _ value Hq).
  - rewrite (parse_line_name key _ eol Hkey (bare_quoted "'" value eq_refl) Heol).
    rewrite (strip_char_bare PyChars.dquote
               (String "'" (value ++ String "'" ""))%string).
    + now rewrite strip_char_quoted.
    + split; exists "'"%char; split; auto.
      change (String "'" (value ++ String "'" ""))%string
        with (String "'" value ++ String "'" "")%string.
      now rewrite last_char_app.
  - rewrite (parse_line_name key _ eol Hkey
               (bare_quoted PyChars.dquote value eq_refl) Heol).
    rewrite strip_char_quoted by exact Hdq.
    now rewrite (strip_char_bare _ value Hq).
Qed.

Lemma dotenv_line_is_read_witness :
  parse_line "GOOGLE_API_KEY='abc 123'" = Some ("GOOGLE_API_KEY", "abc 123").
Proof.
  assert (Hkey : plain_name "GOOGLE_API_KEY").
  { split; [|reflexivity].
    split; [exists "G"%char|exists "Y"%char]; split; reflexivity. }
  assert (Hvalue : plain_value "abc 123").
  { split; [exists "a"%char|exists "3"%char]; split; reflexivity. }
  assert (Hk : ascii_text "GOOGLE_API_KEY") by reflexivity.
  assert (Hv : ascii_text "abc 123") by reflexivity.
  destruct (dotenv_line_is_read "GOOGLE_API_KEY" "abc 123" "" Hk Hv Hkey Hvalue
              (or_introl eq_refl)) as (_ & Hquoted & _).
  exact Hquoted.
Defined.

(** ** The URL scheme *)

(** X7.  Defaulting the scheme a second time changes nothing; the result is
    empty only for the empty address, and otherwise begins with [http://] or
    [https://]. *)
Theorem ensure_url_scheme_idempotent (url : string) :
  ensure_url_scheme (ensure_url_scheme url) = ensure_url_scheme url /\
  (ensure_url_scheme url = "" <-> url = "") /\
  (url <> "" ->
   PyStr.startswith (ensure_url_scheme url) "http://" = true \/
   PyStr.startswith (ensure_url_scheme url) "https://" = true).
Proof.
  unfold ensure_url_scheme.
  destruct (PyStr.startswith url "http://") eqn:H1;
    [|destruct (PyStr.startswith url "https://") eqn:H2]; simpl orb; cbv iota.
  - rewrite H1. simpl. repeat split; auto.
  - rewrite H1, H2. simpl. repeat split; auto.
  - destruct url as [|a url]; [repeat split; auto; congruence|].
    cbn [PyStr.truthy].
    assert (Hp : PyStr.startswith ("https://" ++ String a url)%string "https://" = true).
    { unfold PyStr.startswith.
      change ("https://" ++ String a url)%string
        with (String "h" (String "t" (String "t" (String "p" (String "s"
              (String ":" (String "/" (String "/" (String a url))))))))).
      cbn [String.prefix].
      repeat match goal with
             | |- context [ascii_dec ?x ?x] =>
                 destruct (ascii_dec x x) as [_|Hn]; [|now elim Hn]
             end.
      reflexivity. }
    rewrite Hp, orb_true_r.
    split; [reflexivity|]. split; [split; discriminate|auto].
Qed.

(** ** Coordinates: range and order *)

Local Open Scope Z_scope.

Lemma denormalize_x_zero (W : Z) :
  0 < W < 2 ^ 40 -> denormalize_x 0 W = Ok 0.
Proof.
  intros HW. destruct W as [|w|w]; try lia.
  pose proof (digits2_pos_bounds w) as Bw.
  assert (Hd : Zpos (digits2_pos w) <= 53).
  { destruct (Z.le_gt_cases (Zpos (digits2_pos w)) 53) as [H|H]; [exact H|].
    assert (2 ^ 53 <= 2 ^ (Zpos (digits2_pos w) - 1))
      by (apply Z.pow_le_mono_r; lia).
    assert (2 ^ 40 < 2 ^ 53) by reflexivity. lia. }
  destruct (binary_normalize_int w Hd) as (mW & HfW & _).
  unfold denormalize_x.
  change (PyFloat.int_truediv 0 1000) with (Ok (S754_zero false)).
  unfold res_bind at 1. unfold PyFloat.mul_int, PyFloat.of_int.
  unfold PyFloat.prec, PyFloat.emax. rewrite HfW. reflexivity.
Qed.

(** X8.  For coordinates [0 <= x1 <= x2 <= 1000] and a dimension below
    [2^40], the pixels are in the same order and lie between 0 and the
    dimension, the dimension included. *)
Theorem denormalize_monotone (x1 x2 dimension : Z) :
  0 <= x1 <= x2 -> x2 <= 1000 -> 0 < dimension < 2 ^ 40 ->
  exists r1 r2 : Z,
    denormalize_x x1 dimension = Ok r1 /\
    denormalize_x x2 dimension = Ok r2 /\
    denormalize_y x1 dimension = Ok r1 /\
    denormalize_y x2 dimension = Ok r2 /\
    0 <= r1 <= r2 /\ r2 <= dimension.
Proof.
  intros Hx1 Hx2 HW.
  destruct (denormalize_x_floor x1 dimension) as (r1 & H1 & B1 & F1); [lia|lia|].
  destruct (denormalize_x_floor x2 dimension) as (r2 & H2 & B2 & F2); [lia|lia|].
  exists r1, r2. repeat split; try assumption.
  - (* 0 <= r1 *)
    destruct (Z.eq_dec x1 0) as [->|Hne].
    + rewrite denormalize_x_zero in H1 by lia. inversion H1. lia.
    + assert (Hpos : 0 < x1 * dimension) by nia.
      destruct (Z.eq_dec (x1 * dimension mod 1000) 0) as [Hm|Hm].
      * assert (Hk : x1 * dimension = 1000 * (x1 * dimension / 1000))
          by (pose proof (Z.div_mod (x1 * dimension) 1000 ltac:(lia)); lia).
        lia.
      * rewrite (F1 Hm). apply Z.div_pos; lia.
  - (* r1 <= r2 *)
    assert (Hle : x1 * dimension / 1000 <= x2 * dimension / 1000).
    { apply Z.div_le_mono; [lia|]. apply Z.mul_le_mono_nonneg_r; lia. }
    destruct (Z.eq_dec (x2 * dimension mod 1000) 0) as [Hm|Hm];
      [|rewrite (F2 Hm); lia].
    destruct (Z.eq_dec (x1 * dimension / 1000) (x2 * dimension / 1000))
      as [Heq|Hneq]; [|lia].
    assert (Hk2 : x2 * dimension = 1000 * (x2 * dimension / 1000))
      by (pose proof (Z.div_mod (x2 * dimension) 1000 ltac:(lia)); lia).
    assert (Hk1 : 1000 * (x1 * dimension / 1000) <= x1 * dimension)
      by (apply Z.mul_div_le; lia).
    assert (Hsame : x1 = x2) by nia.
    subst x2. rewrite H1 in H2. inversion H2. lia.
  - (* r2 <= dimension *)
    assert (x2 * dimension / 1000 <= dimension).
    { apply Z.div_le_upper_bound; [lia|]. nia. }
    lia.
Qed.

Lemma denormalize_monotone_witness :
  exists r1 r2 : Z,
    denormalize_x 174 1440 = Ok r1 /\
    denormalize_x 175 1440 = Ok r2 /\
    denormalize_y 174 1440 = Ok r1 /\
    denormalize_y 175 1440 = Ok r2 /\
    0 <= r1 <= r2 /\ r2 <= 1440.
Proof.
  apply (denormalize_monotone 174 175 1440).
  - lia.
  - lia.
  - split; reflexivity.
Defined.

Local Open Scope string_scope.
Local Open Scope list_scope.

(** X9.  At the screen of the program, 1440 by 900, every normalised
    coordinate from 0 to 1000 gives a pixel on the screen: the floor of
    [y * 900 / 1000] down the screen, and across it the floor of
    [x * 1440 / 1000], but one less than that for [x] in 175, 350, 575 and
    700. *)
Theorem screen_pixels (x : Z) :
  0 <= x <= 1000 ->
  denormalize_y x SCREEN_HEIGHT = Ok (x * 900 / 1000) /\
  denormalize_x x SCREEN_WIDTH
  = Ok (if (Z.eqb x 175 || Z.eqb x 350 || Z.eqb x 575 || Z.eqb x 700)%bool
        then x * 1440 / 1000 - 1 else x * 1440 / 1000) /\
  (exists px py : Z,
      denormalize_x x SCREEN_WIDTH = Ok px /\ 0 <= px <= SCREEN_WIDTH /\
      denormalize_y x SCREEN_HEIGHT = Ok py /\ 0 <= py <= SCREEN_HEIGHT).
Proof.
  intros Hx. destruct (denormalize_at_screen x Hx) as [Hpx Hpy].
  unfold pixel_x_expected in Hpx. unfold pixel_y_expected in Hpy.
  split; [exact Hpy|]. split.
  - rewrite Hpx. f_equal.
    destruct (Z.eqb x 175 || Z.eqb x 350 || Z.eqb x 575 || Z.eqb x 700)%bool;
      lia.
  - eexists _, _. split; [exact Hpx|]. split; [|split; [exact Hpy|]].
    + unfold SCREEN_WIDTH.
      assert (0 <= x * 1440 / 1000 <= 1440)
        by (split; [apply Z.div_pos; lia
                   |apply Z.div_le_upper_bound; lia]).
      destruct (Z.eqb x 175 || Z.eqb x 350 || Z.eqb x 575 || Z.eqb x 700)%bool
               eqn:Hspecial; [|lia].
      assert (x = 175 \/ x = 350 \/ x = 575 \/ x = 700) as Hcases.
      { repeat (apply orb_true_iff in Hspecial as [Hspecial|Hspecial]);
          apply Z.eqb_eq in Hspecial; lia. }
      destruct Hcases as [->|[->|[->| ->]]]; vm_compute; split; discriminate.
    + unfold SCREEN_HEIGHT.
      split; [apply Z.div_pos; lia|apply Z.div_le_upper_bound; lia].
Qed.

Lemma screen_pixels_witness :
  denormalize_y 175 SCREEN_HEIGHT = Ok 157 /\
  denormalize_x 175 SCREEN_WIDTH = Ok 251.
Proof.
  assert (H : 0 <= 175 <= 1000) by lia.
  destruct (screen_pixels 175 H) as (Hy & Hpx & _).
  split; [exact Hy|exact Hpx].
Defined.

(** ** The safety prompt *)

Lemma repeat_snoc {A : Type} (x : A) (n : nat) :
  repeat x n ++ [x] = x :: repeat x n.
Proof. induction n as [|n IH]; simpl; [reflexivity|now rewrite IH]. Qed.

Lemma read_decision_skips (invalid : list string) :
  forall (rest : list string) (tr : list event),
    Forall not_answer invalid ->
    read_decision (invalid ++ rest) tr
    = read_decision rest (tr ++ repeat (Input PROMPT) (length invalid)).
Proof.
  induction invalid as [|line invalid IH]; intros rest tr Hinv.
  - simpl. now rewrite app_nil_r.
  - inversion Hinv as [|? ? Hline Hrest]; subst.
    change ((line :: invalid) ++ rest) with (line :: (invalid ++ rest)).
    cbn [read_decision]. unfold not_answer in Hline. rewrite Hline.
    rewrite IH by exact Hrest.
    rewrite <- app_assoc. reflexivity.
Qed.

(** X10.  For lines of ASCII text: lines that are no answer are asked
    again, one prompt each; the first line that is an answer (in any case,
    blanks around it dropped) decides: [n] or [no] terminates, [y] or [yes]
    continues, and the lines after it are left unread. *)
Theorem confirmation_after_invalid_answers (safety_decision : dict)
        (invalid : list string) (answer : string) (rest : list string)
        (tr : list event) :
  Forall ascii_text invalid -> ascii_text answer ->
  Forall not_answer invalid ->
  is_answer (PyStr.lower (PyStr.strip answer)) = true ->
  get_safety_confirmation safety_decision (World tr (invalid ++ answer :: rest))
  = Returns (if is_refusal (PyStr.lower (PyStr.strip answer))
             then "TERMINATE" else "CONTINUE")
            (World (tr ++ repeat (Input PROMPT) (S (length invalid))) rest).
Proof.
  intros _ _ Hinv Hans. unfold get_safety_confirmation. cbn [stdin trace].
  rewrite read_decision_skips by exact Hinv.
  cbn [read_decision]. rewrite Hans.
  rewrite <- app_assoc, repeat_snoc.
  now destruct (is_refusal (PyStr.lower (PyStr.strip answer))).
Qed.

Lemma confirmation_after_invalid_answers_witness :
  get_safety_confirmation ∅ (World [] (["maybe"; ""] ++ " NO " :: ["y"]))
  = Returns "TERMINATE" (World (repeat (Input PROMPT) 3) ["y"]).
Proof.
  apply (confirmation_after_invalid_answers ∅ ["maybe"; ""] " NO " ["y"] []).
  - repeat constructor.
  - reflexivity.
  - repeat constructor.
  - reflexivity.
Defined.

(** X11.  When standard input, lines of ASCII text, ends before an answer
    is given, the prompt raises [EOFError], after one prompt for each line
    and one more. *)
Theorem confirmation_without_answer (safety_decision : dict)
        (lines : list string) (tr : list event) :
  Forall ascii_text lines ->
  Forall not_answer lines ->
  get_safety_confirmation safety_decision (World tr lines)
  = Raises EOFError (World (tr ++ repeat (Input PROMPT) (S (length lines))) []).
Proof.
  intros _ Hinv. unfold get_safety_confirmation. cbn [stdin trace].
  rewrite <- (app_nil_r lines) at 1.
  rewrite read_decision_skips by exact Hinv.
  cbn [read_decision]. rewrite <- app_assoc, repeat_snoc. reflexivity.
Qed.

Lemma confirmation_without_answer_witness :
  get_safety_confirmation ∅ (World [] ["maybe"; "ok"])
  = Raises EOFError (World (repeat (Input PROMPT) 3) []).
Proof.
  apply (confirmation_without_answer ∅ ["maybe"; "ok"] []).
  - repeat constructor.
  - repeat constructor.
Defined.

(** X12.  The explanation shown to the operator is never an empty or
    otherwise falsy value: it is the [explanation] of the decision when that
    is truthy, else its [reason] when that is truthy, else the default
    notice. *)
Theorem explanation_is_never_empty (safety_decision : dict) :
  let explanation := dict_get safety_decision "explanation" VNone in
  let reason := dict_get safety_decision "reason" VNone in
  PyVal.truthy (safety_explanation safety_decision) = true /\
  (PyVal.truthy explanation = true ->
   safety_explanation safety_decision = explanation) /\
  (PyVal.truthy explanation = false -> PyVal.truthy reason = true ->
   safety_explanation safety_decision = reason) /\
  (PyVal.truthy explanation = false -> PyVal.truthy reason = false ->
   safety_explanation safety_decision = VStr DEFAULT_EXPLANATION).
Proof.
  intros explanation reason. unfold safety_explanation.
  fold explanation. fold reason.
  destruct (PyVal.truthy explanation) eqn:H1;
    [|destruct (PyVal.truthy reason) eqn:H2];
    repeat split; auto; discriminate.
Qed.

(** ** What an action does to the world *)

Section PageOnly.

Context {A B : Type}.

Lemma page_only_ret (a : A) : page_only (ret a).
Proof. intros [tr inp]. exists []. simpl. now rewrite app_nil_r. Qed.

Lemma page_only_raise (e : exn) : page_only (@raise A e).
Proof. intros [tr inp]. exists []. simpl. now rewrite app_nil_r. Qed.

Lemma page_only_lift (r : res A) : page_only (lift r).
Proof. destruct r; [apply page_only_ret|apply page_only_raise]. Qed.

Lemma page_only_bind (m : M A) (k : A -> M B) :
  page_only m -> (forall a, page_only (k a)) -> page_only (bind m k).
Proof.
  intros Hm Hk w. unfold bind.
  destruct (Hm w) as (ev1 & H1 & HP1).
  destruct (m w) as [a w1|e w1]; simpl in H1; subst w1.
  - destruct (Hk a (World (trace w ++ ev1) (stdin w))) as (ev2 & H2 & HP2).
    exists (ev1 ++ ev2). rewrite H2. simpl. rewrite <- app_assoc.
    split; [reflexivity|]. apply Forall_app. now split.
  - exists ev1. now split.
Qed.

Lemma page_only_try_except (m : M A) (handler : exn -> M A) :
  page_only m -> (forall e, page_only (handler e)) ->
  page_only (try_except m handler).
Proof.
  intros Hm Hh w. unfold try_except.
  destruct (Hm w) as (ev1 & H1 & HP1).
  destruct (m w) as [a w1|e w1]; simpl in H1; subst w1.
  - exists ev1. now split.
  - destruct (Hh e (World (trace w ++ ev1) (stdin w))) as (ev2 & H2 & HP2).
    exists (ev1 ++ ev2). rewrite H2. simpl. rewrite <- app_assoc.
    split; [reflexivity|]. apply Forall_app. now split.
Qed.

End PageOnly.

Ltac page_only_step :=
  match goal with
  | |- page_only (bind _ _) => apply page_only_bind; [|intros ?]
  | |- page_only (try_except _ _) => apply page_only_try_except; [|intros ?]
  | |- page_only (ret _) => apply page_only_ret
  | |- page_only (raise _) => apply page_only_raise
  | |- page_only (lift _) => apply page_only_lift
  | |- page_only (if ?b then _ else _) => destruct b
  | |- page_only (match ?x with _ => _ end) => destruct x
  end.

Section PageOnlyActions.

Variable E : environment.

Lemma page_only_browser_call (e : event) :
  page_event e -> page_only (browser_call E e).
Proof.
  intros He w. exists [e]. unfold browser_call, record.
  destruct (browser_raises E (trace w) e); simpl; split; auto.
Qed.

Lemma page_only_sleep (ms : Z) : page_only (sleep ms).
Proof.
  intros w. exists [Sleep ms]. simpl. split; [reflexivity|].
  constructor; [exact I|constructor].
Qed.

Lemma page_only_settle : page_only (settle E).
Proof.
  unfold settle. repeat page_only_step;
    first [apply page_only_browser_call; exact I | apply page_only_sleep].
Qed.

Lemma page_only_perform (fname : string) (args : dict) (sw sh : Z) :
  page_only (perform E fname args sw sh).
Proof.
  unfold perform. cbv zeta.
  repeat first [apply page_only_browser_call; exact I | page_only_step].
Qed.

Lemma page_only_execute_action (fname : string) (args : dict) (sw sh : Z) :
  page_only (execute_action E fname args sw sh).
Proof.
  unfold execute_action.
  repeat first [apply page_only_perform | apply page_only_settle
                | page_only_step].
Qed.

(** The action of a call returns, having touched only the page. *)
Lemma execute_action_page_only (fname : string) (args : dict) (sw sh : Z)
      (w : world) :
  exists (action_result : dict) (events : list event),
    execute_action E fname args sw sh w
    = Returns action_result (World (trace w ++ events) (stdin w)) /\
    Forall page_event events /\
    (action_result = ∅ \/
     exists e, action_result = {["error" := VStr (exn_msg e)]}).
Proof.
  destruct (execute_action_returns E fname args sw sh w)
    as (action_result & w' & Hret & _ & Hres).
  destruct (page_only_execute_action fname args sw sh w) as (events & Hw & HP).
  rewrite Hret in Hw. simpl in Hw. subst w'.
  exists action_result, events. auto.
Qed.

Lemma safety_check_ungated (fc : FunctionCall) (w : world) :
  ungated fc -> safety_check (call_args fc) w = Returns (false, ∅) w.
Proof.
  unfold ungated, safety_check. intros H.
  destruct (call_args fc !! "safety_decision") as [[| | | | | |sd]|];
    try reflexivity. contradiction.
Qed.

Lemma run_function_calls_ungated (sw sh : Z) (fcs : list FunctionCall) :
  forall (acc : list result_entry) (w : world),
    Forall ungated fcs ->
    exists (results : list result_entry) (events : list event),
      run_function_calls E fcs acc sw sh w
      = Returns (acc ++ results, false) (World (trace w ++ events) (stdin w)) /\
      map entry_name results = map fc_name fcs /\
      Forall (fun entry => entry_extra entry = ∅) results /\
      Forall page_event events.
Proof.
  induction fcs as [|fc rest IH]; intros acc w Hall.
  - exists [], []. simpl. rewrite !app_nil_r. destruct w. repeat split; constructor.
  - inversion Hall as [|? ? Hfc Hrest]; subst.
    rewrite run_function_calls_cons, (safety_check_ungated fc w Hfc).
    destruct (execute_action_page_only (fc_name fc) (call_args fc) sw sh w)
      as (action_result & ev1 & Ha & HP1 & _).
    rewrite Ha.
    destruct (IH (acc ++ [(fc_name fc, action_result, ∅)])
                 (World (trace w ++ ev1) (stdin w)) Hrest)
      as (results & ev2 & Hrun & Hnames & Hextra & HP2).
    exists ((fc_name fc, action_result, ∅) :: results), (ev1 ++ ev2).
    rewrite Hrun. simpl. rewrite <- !app_assoc. simpl.
    repeat split.
    + now rewrite Hnames.
    + constructor; [reflexivity|exact Hextra].
    + apply Forall_app. now split.
Qed.

(** X13.  A batch in which no call carries a safety decision that is a
    dictionary never asks the operator and never raises: every call is
    carried out (or fails into its result), the results carry the names of
    the calls in order and no acknowledgement, the batch is not terminated,
    standard input is left as it was and only page events are added to the
    trace. *)
Theorem ungated_batch_never_prompts (candidate : Candidate) (sw sh : Z)
        (w : world) :
  Forall ungated (function_calls_of candidate) ->
  exists (results : list result_entry) (events : list event),
    execute_function_calls E candidate sw sh w
    = Returns (results, false) (World (trace w ++ events) (stdin w)) /\
    map entry_name results = map fc_name (function_calls_of candidate) /\
    Forall (fun entry => entry_extra entry = ∅) results /\
    Forall page_event events.
Proof.
  intros Hall. unfold execute_function_calls.
  destruct (run_function_calls_ungated sw sh (function_calls_of candidate) [] w Hall)
    as (results & events & Hrun & H).
  exists results, events. split; [exact Hrun|exact H].
Qed.

(** X14.  When the operator approves a call that carries a safety decision,
    the call is carried out as any other call, from the world the prompt
    left, and its result carries the acknowledgement ["true"]; the batch goes
    on with the calls that remain. *)
Theorem approved_call_is_executed (fc : FunctionCall) (rest : list FunctionCall)
        (results : list result_entry) (sw sh : Z) (sd : dict) (w w1 : world) :
  call_args fc !! "safety_decision" = Some (VDict sd) ->
  get_safety_confirmation sd w = Returns "CONTINUE" w1 ->
  exists (action_result : dict) (w2 : world),
    execute_action E (fc_name fc) (call_args fc) sw sh w1
    = Returns action_result w2 /\
    run_function_calls E (fc :: rest) results sw sh w
    = run_function_calls E rest
        (results ++ [(fc_name fc, action_result,
                      {["safety_acknowledgement" := VStr "true"]})])
        sw sh w2.
Proof.
  intros Hsd Hc.
  destruct (execute_action_returns E (fc_name fc) (call_args fc) sw sh w1)
    as (action_result & w2 & Ha & _).
  exists action_result, w2. split; [exact Ha|].
  rewrite run_function_calls_cons.
  unfold safety_check, bind. rewrite Hsd, Hc. simpl. rewrite Ha. reflexivity.
Qed.

End PageOnlyActions.

Lemma ungated_batch_never_prompts_witness :
  exists (results : list result_entry) (events : list event),
    execute_function_calls (no_click_env [])
      (model_turn [part_of_call click_call; part_of_call open_call]) 1440 900
      (w0 ["y"])
    = Returns (results, false) (World ([] ++ events) ["y"]) /\
    map entry_name results = ["click_at"; "open_web_browser"] /\
    Forall (fun entry => entry_extra entry = ∅) results /\
    Forall page_event events.
Proof.
  apply (ungated_batch_never_prompts (no_click_env [])
           (model_turn [part_of_call click_call; part_of_call open_call])
           1440 900 (w0 ["y"])).
  repeat constructor.
Defined.

Lemma approved_call_is_executed_witness :
  exists (action_result : dict) (w2 : world),
    execute_action (steady_env []) "navigate" (call_args pay_call) 1440 900
                   (World [Input PROMPT] [])
    = Returns action_result w2 /\
    run_function_calls (steady_env []) [pay_call; open_call] [] 1440 900 (w0 ["yes"])
    = run_function_calls (steady_env []) [open_call]
        ([] ++ [("navigate", action_result,
                 {["safety_acknowledgement" := VStr "true"]})])
        1440 900 w2.
Proof.
  apply (approved_call_is_executed (steady_env []) pay_call [open_call] []
           1440 900 {["explanation" := VStr "Submits a payment"]}
           (w0 ["yes"]) (World [Input PROMPT] [])).
  - reflexivity.
  - reflexivity.
Defined.

(** ** The actions one by one *)




Section Actions2.

Variable E : environment.

Lemma perform_scroll_document (args : dict) (sw sh : Z) :
  perform E "scroll_document" args sw sh =
  let d := dict_get args "direction" VNone in
  bind (lift (PyVal.lower (if PyVal.truthy d then d else VStr "down")))
       (fun direction =>
  if negb (String.eqb direction "up" || String.eqb direction "down"
           || String.eqb direction "left" || String.eqb direction "right")
  then raise (ValueError "direction must be up, down, left, or right")
  else
    bind (lift (PyVal.int (dict_get args "magnitude" (VInt 800))))
         (fun magnitude =>
    let '(dx, dy) :=
      if String.eqb direction "down" then (0, magnitude)
      else if String.eqb direction "up" then (0, - magnitude)
      else if String.eqb direction "right" then (magnitude, 0)
      else if String.eqb direction "left" then (- magnitude, 0)
      else (0, 0) in
    browser_call E (MouseWheel dx dy))).
Proof. reflexivity. Qed.

(** X15.  [scroll_document] with a direction that is not one of the four
    fails before the page is touched.  With one of the four (in any case;
    [down] when none is given) and a magnitude that reads as an integer (800
    when none is given), it turns the wheel once, on one axis only: down and
    up move [dy] by the magnitude and its opposite, right and left move
    [dx]. *)
Theorem scroll_document_wheel (args : dict) (sw sh : Z) (w : world)
        (direction : string) :
  let d := dict_get args "direction" VNone in
  PyVal.lower (if PyVal.truthy d then d else VStr "down") = Ok direction ->
  (is_direction direction = false ->
   perform E "scroll_document" args sw sh w
   = Raises (ValueError "direction must be up, down, left, or right") w) /\
  (is_direction direction = true ->
   forall magnitude,
     PyVal.int (dict_get args "magnitude" (VInt 800)) = Ok magnitude ->
     exists dx dy : Z,
       perform E "scroll_document" args sw sh w
       = browser_call E (MouseWheel dx dy) w /\
       (dx = 0 \/ dy = 0) /\
       (direction = "down" -> dx = 0 /\ dy = magnitude) /\
       (direction = "up" -> dx = 0 /\ dy = - magnitude) /\
       (direction = "right" -> dx = magnitude /\ dy = 0) /\
       (direction = "left" -> dx = - magnitude /\ dy = 0)).
Proof.
  intros d Hdir.
  assert (Hstep :
    perform E "scroll_document" args sw sh w =
    (if negb (is_direction direction)
     then raise (ValueError "direction must be up, down, left, or right")
     else
       bind (lift (PyVal.int (dict_get args "magnitude" (VInt 800))))
            (fun magnitude =>
       browser_call E
         (MouseWheel
            (fst (if String.eqb direction "down" then (0, magnitude)
                  else if String.eqb direction "up" then (0, - magnitude)
                  else if String.eqb direction "right" then (magnitude, 0)
                  else if String.eqb direction "left" then (- magnitude, 0)
                  else (0, 0)))
            (snd (if String.eqb direction "down" then (0, magnitude)
                  else if String.eqb direction "up" then (0, - magnitude)
                  else if String.eqb direction "right" then (magnitude, 0)
                  else if String.eqb direction "left" then (- magnitude, 0)
                  else (0, 0)))))) w).
  { rewrite perform_scroll_document. fold d. cbv zeta.
    unfold bind at 1. rewrite Hdir. cbn [lift ret]. unfold is_direction.
    destruct (negb _); [reflexivity|].
    unfold bind.
    destruct (lift (PyVal.int (dict_get args "magnitude" (VInt 800))) w)
      as [magnitude w'|e w']; [|reflexivity].
    now destruct (if String.eqb direction "down" then (0, magnitude)
                  else if String.eqb direction "up" then (0, - magnitude)
                  else if String.eqb direction "right" then (magnitude, 0)
                  else if String.eqb direction "left" then (- magnitude, 0)
                  else (0, 0)). }
  rewrite Hstep. split.
  - intros Hbad. rewrite Hbad. reflexivity.
  - intros Hgood magnitude Hmag. rewrite Hgood. cbn [negb].
    unfold bind. rewrite Hmag. cbn [lift ret].
    unfold is_direction in Hgood.
    destruct (String.eqb_spec direction "down") as [->|Hd].
    { exists 0, magnitude. repeat split; auto; discriminate. }
    destruct (String.eqb_spec direction "up") as [->|Hu].
    { exists 0, (- magnitude). repeat split; auto; discriminate. }
    destruct (String.eqb_spec direction "right") as [->|Hr].
    { exists magnitude, 0. repeat split; auto; discriminate. }
    destruct (String.eqb_spec direction "left") as [->|Hl].
    { exists (- magnitude), 0. repeat split; auto; discriminate. }
    exfalso.
    discriminate Hgood.
Qed.



Lemma perform_click_at (args : dict) (sw sh : Z) :
  perform E "click_at" args sw sh =
  bind (lift (res_bind (dict_getitem args "x") PyVal.int)) (fun x =>
  bind (lift (denormalize_x x sw)) (fun actual_x =>
  bind (lift (res_bind (dict_getitem args "y") PyVal.int)) (fun y =>
  bind (lift (denormalize_y y sh)) (fun actual_y =>
  browser_call E (MouseClick actual_x actual_y))))).
Proof. reflexivity. Qed.

(** X17.  [click_at] either reads both coordinates and makes exactly one
    click, at the pixel they denormalise to, or fails before the page is
    touched: its result is then the error and the world is as it was.  A
    missing [x] is such a failure. *)
Theorem click_at_reads_before_it_clicks (args : dict) (sw sh : Z) (w : world) :
  ((exists x y actual_x actual_y : Z,
       res_bind (dict_getitem args "x") PyVal.int = Ok x /\
       denormalize_x x sw = Ok actual_x /\
       res_bind (dict_getitem args "y") PyVal.int = Ok y /\
       denormalize_y y sh = Ok actual_y /\
       perform E "click_at" args sw sh w
       = browser_call E (MouseClick actual_x actual_y) w) \/
   (exists e : exn,
       perform E "click_at" args sw sh w = Raises e w /\
       execute_action E "click_at" args sw sh w
       = Returns {["error" := VStr (exn_msg e)]} w)) /\
  (args !! "x" = None ->
   execute_action E "click_at" args sw sh w
   = Returns {["error" := VStr "'x'"]} w).
Proof.
  split.
  - rewrite perform_click_at. unfold bind, lift.
    destruct (res_bind (dict_getitem args "x") PyVal.int) as [x|e] eqn:Hx;
      [|right; exists e; split; [reflexivity|];
        apply execute_action_raised; rewrite perform_click_at;
        unfold bind, lift; now rewrite Hx].
    cbn [ret].
    destruct (denormalize_x x sw) as [ax|e] eqn:Hax;
      [|right; exists e; split; [reflexivity|];
        apply execute_action_raised; rewrite perform_click_at;
        unfold bind, lift; rewrite Hx; cbn [ret]; now rewrite Hax].
    cbn [ret].
    destruct (res_bind (dict_getitem args "y") PyVal.int) as [y|e] eqn:Hy;
      [|right; exists e; split; [reflexivity|];
        apply execute_action_raised; rewrite perform_click_at;
        unfold bind, lift; rewrite Hx; cbn [ret]; rewrite Hax; cbn [ret];
        now rewrite Hy].
    cbn [ret].
    destruct (denormalize_y y sh) as [ay|e] eqn:Hay;
      [|right; exists e; split; [reflexivity|];
        apply execute_action_raised; rewrite perform_click_at;
        unfold bind, lift; rewrite Hx; cbn [ret]; rewrite Hax; cbn [ret];
        rewrite Hy; cbn [ret]; now rewrite Hay].
    left. exists x, y, ax, ay. auto.
  - intros Hx.
    apply (execute_action_raised E "click_at" args sw sh w w (KeyError "x")).
    rewrite perform_click_at. unfold bind, lift, dict_getitem.
    rewrite Hx. reflexivity.
Qed.

(** X18.  [open_web_browser], and any function the dispatcher does not
    know, does nothing to the page: the call only goes through the settle
    step and its result is the empty one. *)
Theorem unknown_function_only_settles (fname : string) (args : dict)
        (sw sh : Z) (w : world) :
  known_function fname = false \/ fname = "open_web_browser" ->
  perform E fname args sw sh w = Returns tt w /\
  execute_action E fname args sw sh w
  = Returns ∅ (World (trace w ++ SETTLE) (stdin w)).
Proof.
  intros H.
  assert (Hp : perform E fname args sw sh w = Returns tt w).
  { destruct H as [H| ->]; [|reflexivity].
    unfold known_function in H.
    repeat match type of H with
           | (_ || _)%bool = false => apply orb_false_elim in H as [H ?]
           end.
    unfold perform.
    repeat match goal with
           | Hf : String.eqb fname _ = false |- _ => rewrite Hf; clear Hf
           end.
    reflexivity. }
  split; [exact Hp|]. now apply execute_action_returned.
Qed.

End Actions2.

Lemma scroll_document_wheel_witness :
  perform (steady_env []) "scroll_document" {["direction" := VStr "LEFT"]}
          1440 900 (w0 [])
  = Returns tt (World [MouseWheel (-800) 0] []).
Proof.
  destruct (scroll_document_wheel (steady_env []) {["direction" := VStr "LEFT"]}
              1440 900 (w0 []) "left") as [_ Hgood]; [reflexivity|].
  destruct (Hgood eq_refl 800) as (dx & dy & Hp & _ & _ & _ & _ & Hleft);
    [reflexivity|].
  destruct (Hleft eq_refl) as [-> ->]. exact Hp.
Defined.

Lemma unknown_function_only_settles_witness :
  execute_action (steady_env []) "drag_and_drop" ∅ 1440 900 (w0 [])
  = Returns ∅ (World SETTLE []).
Proof.
  apply (unknown_function_only_settles (steady_env []) "drag_and_drop" ∅
           1440 900 (w0 [])).
  left. reflexivity.
Defined.

(** ** The response bundle and the session *)

Section Session2.

Variable E : environment.

Local Open Scope list_scope.

Lemma dict_falsy_empty (d : dict) : dict_truthy d = false -> d = ∅.
Proof.
  unfold dict_truthy. destruct (map_to_list d) eqn:Hd; [|discriminate].
  intros _. now apply map_to_list_empty_iff.
Qed.

(** X19.  In a function response the fields of the safety acknowledgement
    win over those of the action result, and both win over the page
    address; nothing else is in it. *)
Theorem response_fields_precedence (shot : list Byte.byte) (url name : string)
        (result extra : dict) (k : string) :
  fr_response (function_response shot url (name, result, extra)) !! k =
  match extra !! k, result !! k with
  | Some v, _ => Some v
  | None, Some v => Some v
  | None, None => if String.eqb k "url" then Some (VStr url) else None
  end.
Proof.
  assert (Hurl : ({["url" := VStr url]} : dict) !! k
                 = if String.eqb k "url" then Some (VStr url) else None).
  { destruct (String.eqb_spec k "url") as [->|Hk].
    - apply lookup_singleton_eq.
    - apply lookup_singleton_ne. congruence. }
  unfold function_response. cbn [fr_response]. unfold dict_update.
  destruct (dict_truthy result) eqn:Hr, (dict_truthy extra) eqn:He;
    try (apply dict_falsy_empty in Hr; rewrite Hr; clear Hr);
    try (apply dict_falsy_empty in He; rewrite He; clear He);
    rewrite ?lookup_union, ?lookup_empty, ?Hurl;
    destruct (extra !! k), (result !! k), (String.eqb k "url"); reflexivity.
Qed.

Lemma get_function_responses_returned (results : list result_entry)
      (w w' : world) (frs : list FunctionResponse) :
  get_function_responses E results w = Returns frs w' ->
  exists shot url, frs = map (function_response shot url) results.
Proof.
  unfold get_function_responses, screenshot, current_page_url, bind,
    browser_call, ret.
  destruct (browser_raises E (trace w) (Screenshot "png")); [discriminate|].
  intros H. injection H as <- _. eauto.
Qed.

Lemma no_function_calls (parts : list Part) :
  omap part_function_call parts = [] ->
  existsb has_function_call parts = false.
Proof.
  induction parts as [|p parts IH]; [reflexivity|].
  cbn [omap list_omap existsb]. unfold has_function_call at 1.
  destruct (part_function_call p); [discriminate|]. exact IH.
Qed.

Lemma after_reply_answer (contents : list Content) (candidate : Candidate)
      (others : list Candidate) (w : world) :
  function_calls_of candidate = [] ->
  after_reply E contents (candidate :: others) w =
  Returns (Some (NoFunctionCalls
                   (PyStr.join " "
                      (texts_of (content_parts (candidate_content candidate))))),
           contents ++ [candidate_content candidate]) w.
Proof.
  intros Hnone. apply no_function_calls in Hnone.
  unfold after_reply, bind, lift. cbn [first_candidate ret].
  rewrite Hnone. reflexivity.
Qed.

Lemma turn_limit_split (k : nat) :
  (k < turn_limit)%nat -> turn_limit = (k + S (turn_limit - S k))%nat.
Proof. lia. Qed.

(** X20.  A reply without a function call is the agent's final answer: the
    session ends there, with the reply as the last entry of the history and
    the non-empty texts of its parts joined by one blank as the answer; the
    page is not touched after the model call. *)
Theorem final_answer_ends_session (k : nat) (contents : list Content)
        (w : world) (contents' : list Content) (w' : world)
        (candidate : Candidate) (others : list Candidate) :
  turns_continue E k contents w contents' w' ->
  (k < turn_limit)%nat ->
  model_reply E (trace w') contents' = Ok (candidate :: others) ->
  function_calls_of candidate = [] ->
  agent_loop E contents w =
  Returns (NoFunctionCalls
             (PyStr.join " "
                (texts_of (content_parts (candidate_content candidate)))),
           contents' ++ [candidate_content candidate])
          (record (GenerateContent MODEL contents') w').
Proof.
  intros Hturns Hk Hreply Hnone.
  unfold agent_loop. rewrite (turn_limit_split k Hk).
  rewrite (turns_continue_agent_turns E _ _ _ _ _ Hturns).
  rewrite agent_turns_S, agent_turn_unfold.
  unfold bind at 1. unfold generate_content. rewrite Hreply.
  now rewrite after_reply_answer.
Qed.

(** X21.  A model call that fails, or that comes back without a candidate,
    ends the session with that error: the loop neither repeats the call nor
    touches the page. *)
Theorem model_failure_ends_session (k : nat) (contents : list Content)
        (w : world) (contents' : list Content) (w' : world) :
  turns_continue E k contents w contents' w' ->
  (k < turn_limit)%nat ->
  (forall e : exn,
      model_reply E (trace w') contents' = Err e ->
      agent_loop E contents w
      = Raises e (record (GenerateContent MODEL contents') w')) /\
  (model_reply E (trace w') contents' = Ok [] ->
   agent_loop E contents w
   = Raises (IndexError "list index out of range")
            (record (GenerateContent MODEL contents') w')).
Proof.
  intros Hturns Hk.
  assert (Hloop : agent_loop E contents w =
                  match agent_turn E contents' w' with
                  | Returns (Some exit, c) w2 => Returns (exit, c) w2
                  | Returns (None, c) w2 =>
                      agent_turns E (turn_limit - S k) c w2
                  | Raises e w2 => Raises e w2
                  end).
  { unfold agent_loop. rewrite (turn_limit_split k Hk) at 1.
    rewrite (turns_continue_agent_turns E _ _ _ _ _ Hturns).
    apply agent_turns_S. }
  rewrite Hloop, agent_turn_unfold. unfold bind, generate_content.
  split.
  - intros e ->. reflexivity.
  - intros ->. reflexivity.
Qed.

Lemma after_reply_extends (contents : list Content)
      (candidates : list Candidate) (w : world)
      (exit : option loop_exit) (contents' : list Content) (w' : world) :
  after_reply E contents candidates w = Returns (exit, contents') w' ->
  exists more : list Content,
    contents' = contents ++ more /\ (1 <= length more <= 2)%nat.
Proof.
  destruct candidates as [|candidate others]; [discriminate|].
  destruct (existsb has_function_call
              (content_parts (candidate_content candidate))) eqn:Hcalls.
  - rewrite (after_reply_calls E _ _ _ _ Hcalls).
    destruct (execute_function_calls E candidate SCREEN_WIDTH SCREEN_HEIGHT w)
      as [[results terminated] w1|e w1]; [|discriminate].
    destruct (get_function_responses E results w1) as [frs w2|e w2];
      [|discriminate].
    intros H. injection H as _ <- _.
    eexists [_; _]. rewrite <- app_assoc. split; [reflexivity|cbn; lia].
  - unfold after_reply, bind, lift. cbn [first_candidate ret].
    rewrite Hcalls. cbn [negb]. unfold ret.
    intros H. injection H as _ <- _.
    eexists [_]. split; [reflexivity|cbn; lia].
Qed.

Lemma agent_turn_extends (contents : list Content) (w : world)
      (exit : option loop_exit) (contents' : list Content) (w' : world) :
  agent_turn E contents w = Returns (exit, contents') w' ->
  exists more : list Content,
    contents' = contents ++ more /\ (1 <= length more <= 2)%nat.
Proof.
  rewrite agent_turn_unfold. unfold bind.
  destruct (generate_content E contents w) as [candidates w1|e w1];
    [|discriminate].
  apply after_reply_extends.
Qed.

Lemma agent_turns_extends (remaining : nat) :
  forall (contents : list Content) (w : world) (exit : loop_exit)
         (contents' : list Content) (w' : world),
    agent_turns E remaining contents w = Returns (exit, contents') w' ->
    exists more : list Content,
      contents' = contents ++ more /\
      (length more <= 2 * remaining)%nat /\
      (0 < remaining -> 1 <= length more)%nat.
Proof.
  induction remaining as [|remaining IH]; intros contents w exit contents' w'.
  - cbn [agent_turns]. unfold ret. intros H. injection H as _ <- _.
    exists []. rewrite app_nil_r. cbn. repeat split; lia.
  - rewrite agent_turns_S.
    destruct (agent_turn E contents w) as [[[exit1|] c1] w1|e w1] eqn:Hturn;
      [| |discriminate];
      destruct (agent_turn_extends _ _ _ _ _ Hturn) as (more1 & -> & Hlen1).
    + intros H. injection H as _ <- _.
      exists more1. repeat split; lia.
    + intros H. destruct (IH _ _ _ _ _ H) as (more2 & -> & Hlen2 & _).
      exists (more1 ++ more2). rewrite app_assoc, length_app.
      repeat split; lia.
Qed.

(** X22.  The history only grows: a session that ends leaves the entries it
    started from in place and in order, followed by what it added, which is
    at least the first reply and at most two entries for each turn. *)
Theorem history_is_append_only (contents : list Content) (w : world)
        (exit : loop_exit) (contents' : list Content) (w' : world) :
  agent_loop E contents w = Returns (exit, contents') w' ->
  exists more : list Content,
    contents' = contents ++ more /\
    (1 <= length more <= 2 * turn_limit)%nat.
Proof.
  intros H. destruct (agent_turns_extends _ _ _ _ _ _ H) as (more & -> & Hle & Hge).
  exists more. split; [reflexivity|]. split; [apply Hge; unfold turn_limit; lia|exact Hle].
Qed.

(** X23.  A turn after which the loop goes on has answered every function
    call of the reply: the history gains the reply and one user entry, whose
    function responses carry the names of the calls, one for each call and
    in the order of the calls. *)
Theorem continuing_turn_answers_each_call (contents : list Content)
        (w : world) (contents' : list Content) (w' : world) :
  agent_turn E contents w = Returns (None, contents') w' ->
  exists (candidate : Candidate) (others : list Candidate)
         (frs : list FunctionResponse),
    model_reply E (trace w) contents = Ok (candidate :: others) /\
    contents' = contents ++ [ candidate_content candidate;
                              {| content_role := "user";
                                 content_parts := map response_part frs |} ] /\
    map fr_name frs = map fc_name (function_calls_of candidate) /\
    function_calls_of candidate <> [].
Proof.
  rewrite agent_turn_unfold. unfold bind at 1. unfold generate_content.
  destruct (model_reply E (trace w) contents) as [candidates|e];
    [|discriminate].
  destruct candidates as [|candidate others]; [discriminate|].
  destruct (existsb has_function_call
              (content_parts (candidate_content candidate))) eqn:Hcalls.
  2:{ unfold after_reply, bind, lift. cbn [first_candidate ret].
      rewrite Hcalls. discriminate. }
  rewrite (after_reply_calls E _ _ _ _ Hcalls).
  unfold execute_function_calls.
  pose proof (run_function_calls_shape E SCREEN_WIDTH SCREEN_HEIGHT
                (function_calls_of candidate) []
                (record (GenerateContent MODEL contents) w)) as Hshape.
  destruct (run_function_calls E (function_calls_of candidate) []
              SCREEN_WIDTH SCREEN_HEIGHT
              (record (GenerateContent MODEL contents) w))
    as [[results terminated] w1|e w1]; [|discriminate].
  destruct (get_function_responses E results w1) as [frs w2|e w2] eqn:Hfrs;
    [|discriminate].
  destruct terminated; [discriminate|].
  intros H. injection H as <- _.
  destruct Hshape as (new & -> & Hnames & _ & Hlen & _).
  specialize (Hlen eq_refl). cbn [app] in *.
  destruct (get_function_responses_returned _ _ _ _ Hfrs) as (shot & url & ->).
  exists candidate, others, (map (function_response shot url) new).
  split; [reflexivity|]. split; [now rewrite <- app_assoc|]. split.
  - rewrite map_map.
    rewrite (map_ext _ entry_name (function_response_name shot url)).
    rewrite Hnames, Hlen, <- (length_map fc_name). apply firstn_all.
  - intros Hnone. apply no_function_calls in Hnone. congruence.
Qed.

End Session2.

Lemma final_answer_ends_session_witness :
  agent_loop answer_env (initial_contents "open the page") (w0 []) =
  Returns (NoFunctionCalls "The page is open. Anything else?",
           initial_contents "open the page"
           ++ [candidate_content
                 (model_turn [says "The page is open."; says "";
                              says "Anything else?"])])
          (World [GenerateContent MODEL (initial_contents "open the page")] []).
Proof.
  apply (final_answer_ends_session answer_env 0 (initial_contents "open the page")
           (w0 []) (initial_contents "open the page") (w0 [])
           (model_turn [says "The page is open."; says ""; says "Anything else?"])
           []).
  - constructor.
  - unfold turn_limit. lia.
  - reflexivity.
  - reflexivity.
Defined.

Lemma model_failure_ends_session_witness :
  agent_loop offline_env (initial_contents "go") (w0 []) =
  Raises (Exn "ServerError" "503 UNAVAILABLE")
         (World [GenerateContent MODEL (initial_contents "go")] []).
Proof.
  assert (Hk : (0 < turn_limit)%nat) by (unfold turn_limit; lia).
  destruct (model_failure_ends_session offline_env 0 (initial_contents "go")
              (w0 []) (initial_contents "go") (w0 [])
              (turns_continue_O _ _ _) Hk) as [Herr _].
  apply (Herr (Exn "ServerError" "503 UNAVAILABLE")). reflexivity.
Defined.

Lemma history_is_append_only_witness :
  exists more : list Content,
    initial_contents "open the page"
    ++ [candidate_content
          (model_turn [says "The page is open."; says "";
                       says "Anything else?"])]
    = initial_contents "open the page" ++ more /\
    (1 <= length more <= 2 * turn_limit)%nat.
Proof.
  apply (history_is_append_only answer_env (initial_contents "open the page")
           (w0 [])
           (NoFunctionCalls "The page is open. Anything else?")
           _
           (World [GenerateContent MODEL (initial_contents "open the page")] [])).
  reflexivity.
Defined.

Lemma continuing_turn_answers_each_call_witness :
  exists (candidate : Candidate) (others : list Candidate)
         (frs : list FunctionResponse),
    model_reply open_browser_env [] (initial_contents "go")
    = Ok (candidate :: others) /\
    map fr_name frs = ["open_web_browser"].
Proof.
  edestruct (continuing_turn_answers_each_call open_browser_env
               (initial_contents "go") (w0 []))
    as (candidate & others & frs & Hreply & _ & Hnames & _);
    [vm_compute; reflexivity|].
  exists candidate, others, frs. split; [exact Hreply|].
  rewrite Hnames. injection Hreply as <- _. reflexivity.
Defined.

(** ** Typing, and the number of model calls *)

Section Typing.

Variable E : environment.

Local Open Scope list_scope.

(** X24.  With a text that is not empty, [type_text_at] clicks at the
    pixel, selects all and deletes unless [clear_before_typing] is false,
    types the text with a delay of 15 ms a key, and presses Enter unless
    [press_enter] is false, each step being reached when the ones before it
    did not raise.  When neither flag is given the field is cleared and
    Enter is pressed. *)
Theorem type_text_at_types_text (args : dict)
        (sw sh x y actual_x actual_y : Z) (text : string) (w : world) :
  res_bind (dict_getitem args "x") PyVal.int = Ok x ->
  denormalize_x x sw = Ok actual_x ->
  res_bind (dict_getitem args "y") PyVal.int = Ok y ->
  denormalize_y y sh = Ok actual_y ->
  args !! "text" = Some (VStr text) ->
  text <> "" ->
  let clear := PyVal.truthy (dict_get args "clear_before_typing" (VBool true)) in
  let enter := PyVal.truthy (dict_get args "press_enter" (VBool true)) in
  let events := typing_events actual_x actual_y clear text enter in
  perform E "type_text_at" args sw sh w = browser_calls E events w /\
  (args !! "clear_before_typing" = None ->
   args !! "press_enter" = None ->
   events = [ MouseClick actual_x actual_y; KeyboardPress "Meta+A";
              KeyboardPress "Backspace"; KeyboardType text 15;
              KeyboardPress "Enter" ]) /\
  ((forall tr ev, In ev events -> browser_raises E tr ev = None) ->
   perform E "type_text_at" args sw sh w
   = Returns tt (World (trace w ++ events) (stdin w))).
Proof.
  intros Hx Hax Hy Hay Htext Hne clear enter events.
  assert (Heq : perform E "type_text_at" args sw sh w = browser_calls E events w).
  { rewrite perform_type_text_at.
    unfold bind at 1. rewrite Hx. cbn [lift ret].
    unfold bind at 1. rewrite Hax. cbn [lift ret].
    unfold bind at 1. rewrite Hy. cbn [lift ret].
    unfold bind at 1. rewrite Hay. cbn [lift ret].
    assert (Ht : dict_get args "text" (VStr "") = VStr text)
      by (unfold dict_get; now rewrite Htext).
    rewrite Ht. cbn [PyVal.str]. cbv zeta.
    rewrite (proj2 (truthy_nonempty text) Hne).
    fold clear. fold enter. subst events. unfold typing_events.
    destruct clear, enter; cbn [app browser_calls];
      unfold bind, browser_call, ret; cbn [trace record];
      repeat match goal with
             | |- context [browser_raises E ?tr ?ev] =>
                 destruct (browser_raises E tr ev); cbn [trace record]
             end;
      reflexivity. }
  split; [exact Heq|]. split.
  - intros Hc Hp. subst events clear enter. unfold dict_get.
    rewrite Hc, Hp. reflexivity.
  - intros Hok. rewrite Heq. now apply browser_calls_all.
Qed.

(** X25.  A session calls the model at most ten times, however it ends:
    with an answer, by a refusal, at the turn limit or with an error. *)
Theorem session_calls_model_at_most_ten_times (contents : list Content)
        (w : world) :
  (model_invocations (trace (world_of (agent_loop E contents w)))
   <= model_invocations (trace w) + 10)%nat.
Proof.
  unfold agent_loop.
  apply (agent_turns_invocations E turn_limit contents w).
Qed.

End Typing.

Lemma type_text_at_types_text_witness :
  perform (steady_env []) "type_text_at" hello_args 1440 900 (w0 [])
  = Returns tt (World [ MouseClick 720 450; KeyboardPress "Meta+A";
                        KeyboardPress "Backspace"; KeyboardType "hello" 15;
                        KeyboardPress "Enter" ] []).
Proof.
  assert (Hx : res_bind (dict_getitem hello_args "x") PyVal.int = Ok 500)
    by reflexivity.
  assert (Hax : denormalize_x 500 1440 = Ok 720) by (vm_compute; reflexivity).
  assert (Hy : res_bind (dict_getitem hello_args "y") PyVal.int = Ok 500)
    by reflexivity.
  assert (Hay : denormalize_y 500 900 = Ok 450) by (vm_compute; reflexivity).
  assert (Ht : hello_args !! "text" = Some (VStr "hello")) by reflexivity.
  assert (Hne : "hello" <> "") by discriminate.
  destruct (type_text_at_types_text (steady_env []) hello_args 1440 900
              500 500 720 450 "hello" (w0 []) Hx Hax Hy Hay Ht Hne)
    as (_ & _ & Hall).
  apply Hall. reflexivity.
Defined.
